(** * POP3 application identification: detector_pop3.cc

    A shallow embedding of the POP3 client and service detectors of
    src/network_inspectors/appid/detector_plugins/detector_pop3.cc.

    - A packet payload is a [list Z] of bytes; the C pointers into it
      ([data], [s], [p], [end], [line_end], ...) are positions ([nat]).
    - Every dereference of such a pointer is a [load]; a [load] outside the
      payload aborts the run with [OutOfBounds], and every [load] is counted,
      so that a result [Ok a n] says that the run read [n] bytes, all of them
      inside the payload.
    - The per-flow data, the session flags and the calls made into the
      application-identification framework are passed explicitly. *)

From Stdlib Require Import ZArith List Bool Arith Lia String Ascii.
Import ListNotations.
Local Open Scope nat_scope.

(** ** Bytes *)

Definition chr (a : ascii) : Z := Z.of_N (N_of_ascii a).
Definition bytes (s : string) : list Z := map chr (list_ascii_of_string s).

Definition CR : Z := 13.
Definition LF : Z := 10.
Definition NUL : Z := 0.

Definition is_chr (c : Z) (a : ascii) : bool := Z.eqb c (chr a).

(** <ctype.h> in the "C" locale. *)
Definition isprint (c : Z) : bool := (32 <=? c)%Z && (c <=? 126)%Z.
Definition isdigit (c : Z) : bool := (48 <=? c)%Z && (c <=? 57)%Z.
Definition isupper (c : Z) : bool := (65 <=? c)%Z && (c <=? 90)%Z.
Definition islower (c : Z) : bool := (97 <=? c)%Z && (c <=? 122)%Z.
Definition isalnum (c : Z) : bool := isdigit c || isupper c || islower c.

Fixpoint bytes_eqb (a b : list Z) : bool :=
  match a, b with
  | [], [] => true
  | x :: a', y :: b' => Z.eqb x y && bytes_eqb a' b'
  | _, _ => false
  end.

(** [sub buf pos n]: the [n] bytes of [buf] from position [pos]. *)
Definition sub (buf : list Z) (pos n : nat) : list Z := firstn n (skipn pos buf).

(** A NUL-terminated C string read out of a char array. *)
Fixpoint c_str (l : list Z) : list Z :=
  match l with
  | [] => []
  | c :: l' => if Z.eqb c NUL then [] else c :: c_str l'
  end.

(** [*v = x] on a char array. *)
Fixpoint store (l : list Z) (i : nat) (x : Z) : list Z :=
  match l, i with
  | [], _ => []
  | _ :: l', O => x :: l'
  | c :: l', S i' => c :: store l' i' x
  end.

(** ** Runs that read the payload *)

Inductive outcome (A : Type) : Type :=
| Ok (a : A) (reads : nat)  (* finished; [reads] bytes were fetched *)
| OutOfBounds               (* a byte outside the payload was fetched *)
| OutOfFuel.                (* the iteration bound given to a loop ran out *)
Arguments Ok {A} a reads.
Arguments OutOfBounds {A}.
Arguments OutOfFuel {A}.

Definition ret {A} (a : A) : outcome A := Ok a 0.

Definition bind {A B} (m : outcome A) (f : A -> outcome B) : outcome B :=
  match m with
  | Ok a n => match f a with
              | Ok b k => Ok b (n + k)
              | OutOfBounds => OutOfBounds
              | OutOfFuel => OutOfFuel
              end
  | OutOfBounds => OutOfBounds
  | OutOfFuel => OutOfFuel
  end.

Declare Scope run_scope.
Delimit Scope run_scope with run.
Notation "x <- m ;; k" := (bind m (fun x => k))
  (at level 61, m at next level, right associativity) : run_scope.
Notation "' p <- m ;; k" := (bind m (fun x => let 'p := x in k))
  (at level 61, p pattern, m at next level, right associativity) : run_scope.
Local Open Scope run_scope.

(** [*p] for a pointer [p] into the payload [buf]. *)
Definition load (buf : list Z) (p : nat) : outcome Z :=
  match nth_error buf p with
  | Some c => Ok c 1
  | None => OutOfBounds
  end.

(** The bytes a library routine (the matcher, memcmp, strncmp) is handed:
    [n] bytes from [p], all fetched. *)
Definition load_n (buf : list Z) (p n : nat) : outcome (list Z) :=
  if p + n <=? List.length buf then Ok (sub buf p n) n else OutOfBounds.

Definition value {A} (m : outcome A) : option A :=
  match m with Ok a _ => Some a | _ => None end.

(** [for (; s < lim && P( *s ); s++) ;] -- the recursion is on [lim - s],
    which is zero exactly when the guard [s < lim] fails. *)
Fixpoint scan_from (P : Z -> bool) (buf : list Z) (dist s : nat) : outcome nat :=
  match dist with
  | O => ret s
  | S d => c <- load buf s ;;
           if P c then scan_from P buf d (S s) else ret s
  end.

Definition scan_while (P : Z -> bool) (buf : list Z) (lim s : nat) : outcome nat :=
  scan_from P buf (lim - s) s.

(** ** The framework: session flags, reported events, statistics *)

Inductive AppId := APP_ID_POP3 | APP_ID_POP3S.

Inductive session_flag :=
| APPID_SESSION_CLIENT_GETS_SERVER_PACKETS
| APPID_SESSION_CLIENT_DETECTED
| APPID_SESSION_SERVICE_DETECTED
| APPID_SESSION_CONTINUE
| APPID_SESSION_ENCRYPTED.

Definition session_flag_eqb (a b : session_flag) : bool :=
  match a, b with
  | APPID_SESSION_CLIENT_GETS_SERVER_PACKETS, APPID_SESSION_CLIENT_GETS_SERVER_PACKETS
  | APPID_SESSION_CLIENT_DETECTED, APPID_SESSION_CLIENT_DETECTED
  | APPID_SESSION_SERVICE_DETECTED, APPID_SESSION_SERVICE_DETECTED
  | APPID_SESSION_CONTINUE, APPID_SESSION_CONTINUE
  | APPID_SESSION_ENCRYPTED, APPID_SESSION_ENCRYPTED => true
  | _, _ => false
  end.

Record RNAServiceSubtype := {
  service : list Z;
  sub_version : option (list Z)   (* [version], a null pointer when absent *)
}.

(** A call made into the framework, in the order of the calls. *)
Inductive call :=
| set_session_flags_call (f : session_flag)
| clear_session_flags_call (f : session_flag)
| add_app (client_id payload_id : AppId) (version : option (list Z))
| add_user (username : list Z) (id : AppId) (success : Z)
| add_service_consume_subtype (id : AppId) (vendor : option (list Z))
    (version : option (list Z)) (subtype : list RNAServiceSubtype)
| fail_service
| service_inprocess.

Record AppIdStats := {
  pop3_clients : Z;
  pop3s_clients : Z;
  pop_flows : Z
}.

Record session_flags := {
  client_gets_server_packets : bool;
  client_detected : bool;
  service_detected : bool;
  continue_flag : bool;
  encrypted : bool
}.

Definition no_flags : session_flags :=
  {| client_gets_server_packets := false; client_detected := false;
     service_detected := false; continue_flag := false; encrypted := false |}.

Definition write_flag (f : session_flag) (b : bool) (fl : session_flags) : session_flags :=
  match f with
  | APPID_SESSION_CLIENT_GETS_SERVER_PACKETS =>
      {| client_gets_server_packets := b; client_detected := client_detected fl;
         service_detected := service_detected fl; continue_flag := continue_flag fl;
         encrypted := encrypted fl |}
  | APPID_SESSION_CLIENT_DETECTED =>
      {| client_gets_server_packets := client_gets_server_packets fl; client_detected := b;
         service_detected := service_detected fl; continue_flag := continue_flag fl;
         encrypted := encrypted fl |}
  | APPID_SESSION_SERVICE_DETECTED =>
      {| client_gets_server_packets := client_gets_server_packets fl;
         client_detected := client_detected fl;
         service_detected := b; continue_flag := continue_flag fl;
         encrypted := encrypted fl |}
  | APPID_SESSION_CONTINUE =>
      {| client_gets_server_packets := client_gets_server_packets fl;
         client_detected := client_detected fl;
         service_detected := service_detected fl; continue_flag := b;
         encrypted := encrypted fl |}
  | APPID_SESSION_ENCRYPTED =>
      {| client_gets_server_packets := client_gets_server_packets fl;
         client_detected := client_detected fl;
         service_detected := service_detected fl; continue_flag := continue_flag fl;
         encrypted := b |}
  end.

Definition read_flag (f : session_flag) (fl : session_flags) : bool :=
  match f with
  | APPID_SESSION_CLIENT_GETS_SERVER_PACKETS => client_gets_server_packets fl
  | APPID_SESSION_CLIENT_DETECTED => client_detected fl
  | APPID_SESSION_SERVICE_DETECTED => service_detected fl
  | APPID_SESSION_CONTINUE => continue_flag fl
  | APPID_SESSION_ENCRYPTED => encrypted fl
  end.

(** ** The per-flow data *)

Inductive POP3ClientState :=
| POP3_CLIENT_STATE_AUTH      (* POP3 - AUTHORIZATION state *)
| POP3_CLIENT_STATE_TRANS     (* POP3 - TRANSACTION state *)
| POP3_CLIENT_STATE_STLS_CMD. (* POP3 - AUTHORIZATION hybrid state (probable POP3S) *)

(** The [int] members [set_flags], [detected] and [got_user] only ever hold
    0 or 1 and are only tested for zero: they are booleans here. *)
Record ClientPOP3Data := {
  auth : Z;
  username : option (list Z);      (* a null pointer, or an owned C string *)
  state : POP3ClientState;
  set_flags : bool;
  detected : bool;
  got_user : bool
}.

Inductive POP3State :=
| POP3_STATE_CONNECT
| POP3_STATE_RESPONSE
| POP3_STATE_CONTINUE.

Definition MAX_VERSION_SIZE : nat := 64.

(** [count] is an [unsigned]: it wraps at 2^32.  [subtype] is the linked
    list hanging off the [subtype] pointer, head first; the null pointer is
    the empty list. *)
Record ServicePOP3Data := {
  sstate : POP3State;                (* [state] *)
  count : Z;
  vendor : option (list Z);          (* null, or one of the static vendor strings *)
  version : list Z;                  (* char version[MAX_VERSION_SIZE] *)
  subtype : list RNAServiceSubtype;
  error : bool
}.

Record POP3DetectorData := {
  client : ClientPOP3Data;
  server : ServicePOP3Data;
  need_continue : bool
}.

(** snort_calloc(sizeof(POP3DetectorData)): every member zero. *)
Definition calloc_POP3DetectorData : POP3DetectorData :=
  {| client := {| auth := 0; username := None; state := POP3_CLIENT_STATE_AUTH;
                  set_flags := false; detected := false; got_user := false |};
     server := {| sstate := POP3_STATE_CONNECT; count := 0; vendor := None;
                  version := repeat NUL MAX_VERSION_SIZE; subtype := [];
                  error := false |};
     need_continue := false |}.

Definition with_client (dd : POP3DetectorData) (c : ClientPOP3Data) : POP3DetectorData :=
  {| client := c; server := server dd; need_continue := need_continue dd |}.
Definition with_server (dd : POP3DetectorData) (s : ServicePOP3Data) : POP3DetectorData :=
  {| client := client dd; server := s; need_continue := need_continue dd |}.
Definition with_need_continue (dd : POP3DetectorData) (b : bool) : POP3DetectorData :=
  {| client := client dd; server := server dd; need_continue := b |}.

Definition with_username (fd : ClientPOP3Data) (u : option (list Z)) : ClientPOP3Data :=
  {| auth := auth fd; username := u; state := state fd; set_flags := set_flags fd;
     detected := detected fd; got_user := got_user fd |}.
Definition with_state (fd : ClientPOP3Data) (st : POP3ClientState) : ClientPOP3Data :=
  {| auth := auth fd; username := username fd; state := st; set_flags := set_flags fd;
     detected := detected fd; got_user := got_user fd |}.
Definition with_set_flags (fd : ClientPOP3Data) (b : bool) : ClientPOP3Data :=
  {| auth := auth fd; username := username fd; state := state fd; set_flags := b;
     detected := detected fd; got_user := got_user fd |}.
Definition with_detected (fd : ClientPOP3Data) (b : bool) : ClientPOP3Data :=
  {| auth := auth fd; username := username fd; state := state fd; set_flags := set_flags fd;
     detected := b; got_user := got_user fd |}.
Definition with_got_user (fd : ClientPOP3Data) (b : bool) : ClientPOP3Data :=
  {| auth := auth fd; username := username fd; state := state fd; set_flags := set_flags fd;
     detected := detected fd; got_user := b |}.

Definition with_sstate (pd : ServicePOP3Data) (st : POP3State) : ServicePOP3Data :=
  {| sstate := st; count := count pd; vendor := vendor pd; version := version pd;
     subtype := subtype pd; error := error pd |}.
Definition with_count (pd : ServicePOP3Data) (n : Z) : ServicePOP3Data :=
  {| sstate := sstate pd; count := n; vendor := vendor pd; version := version pd;
     subtype := subtype pd; error := error pd |}.
Definition with_vendor (pd : ServicePOP3Data) (v : option (list Z)) : ServicePOP3Data :=
  {| sstate := sstate pd; count := count pd; vendor := v; version := version pd;
     subtype := subtype pd; error := error pd |}.
Definition with_version (pd : ServicePOP3Data) (v : list Z) : ServicePOP3Data :=
  {| sstate := sstate pd; count := count pd; vendor := vendor pd; version := v;
     subtype := subtype pd; error := error pd |}.
Definition with_subtype (pd : ServicePOP3Data) (l : list RNAServiceSubtype) : ServicePOP3Data :=
  {| sstate := sstate pd; count := count pd; vendor := vendor pd; version := version pd;
     subtype := l; error := error pd |}.
Definition with_error (pd : ServicePOP3Data) (b : bool) : ServicePOP3Data :=
  {| sstate := sstate pd; count := count pd; vendor := vendor pd; version := version pd;
     subtype := subtype pd; error := b |}.

(** [pd->count++] on an [unsigned]. *)
Definition count_incr (pd : ServicePOP3Data) : ServicePOP3Data :=
  with_count pd ((count pd + 1) mod 2 ^ 32)%Z.

(** ** The session

    What the detectors see of an [AppIdSession]: its flags, the per-flow
    data hung on it with [data_add], and, in order, the calls that were made
    into the framework for it.  The thread's [appid_stats] counters travel
    with it. *)
Record AppIdSession := {
  flags : session_flags;
  flow_data : option POP3DetectorData;
  calls : list call;
  appid_stats : AppIdStats
}.

Definition log (c : call) (asd : AppIdSession) : AppIdSession :=
  {| flags := flags asd; flow_data := flow_data asd; calls := calls asd ++ [c];
     appid_stats := appid_stats asd |}.

Definition set_session_flags (f : session_flag) (asd : AppIdSession) : AppIdSession :=
  log (set_session_flags_call f)
    {| flags := write_flag f true (flags asd); flow_data := flow_data asd;
       calls := calls asd; appid_stats := appid_stats asd |}.

Definition clear_session_flags (f : session_flag) (asd : AppIdSession) : AppIdSession :=
  log (clear_session_flags_call f)
    {| flags := write_flag f false (flags asd); flow_data := flow_data asd;
       calls := calls asd; appid_stats := appid_stats asd |}.

Definition get_session_flags (f : session_flag) (asd : AppIdSession) : bool :=
  read_flag f (flags asd).

Definition data_add (dd : POP3DetectorData) (asd : AppIdSession) : AppIdSession :=
  {| flags := flags asd; flow_data := Some dd; calls := calls asd;
     appid_stats := appid_stats asd |}.

Definition with_stats (asd : AppIdSession) (st : AppIdStats) : AppIdSession :=
  {| flags := flags asd; flow_data := flow_data asd; calls := calls asd;
     appid_stats := st |}.

Definition bump_pop3_clients (asd : AppIdSession) : AppIdSession :=
  with_stats asd {| pop3_clients := pop3_clients (appid_stats asd) + 1;
                    pop3s_clients := pop3s_clients (appid_stats asd);
                    pop_flows := pop_flows (appid_stats asd) |}.
Definition bump_pop3s_clients (asd : AppIdSession) : AppIdSession :=
  with_stats asd {| pop3_clients := pop3_clients (appid_stats asd);
                    pop3s_clients := pop3s_clients (appid_stats asd) + 1;
                    pop_flows := pop_flows (appid_stats asd) |}.
Definition bump_pop_flows (asd : AppIdSession) : AppIdSession :=
  with_stats asd {| pop3_clients := pop3_clients (appid_stats asd);
                    pop3s_clients := pop3s_clients (appid_stats asd);
                    pop_flows := pop_flows (appid_stats asd) + 1 |}.

(** ** The client command patterns *)

Definition APOP := bytes "APOP ".
Definition DELE := bytes "DELE ".
Definition LISTC := bytes "LIST ".
Definition LISTEOC := bytes "LIST" ++ [CR; LF].
Definition LISTEOC2 := bytes "LIST" ++ [LF].
Definition NOOP := bytes "NOOP" ++ [CR; LF].
Definition NOOP2 := bytes "NOOP" ++ [LF].
Definition QUIT := bytes "QUIT" ++ [CR; LF].
Definition QUIT2 := bytes "QUIT" ++ [LF].
Definition RETR := bytes "RETR ".
Definition STAT := bytes "STAT" ++ [CR; LF].
Definition STAT2 := bytes "STAT" ++ [LF].
Definition RSET := bytes "RSET" ++ [CR; LF].
Definition RSET2 := bytes "RSET" ++ [LF].
Definition TOP := bytes "TOP ".
Definition UIDL := bytes "UIDL ".
Definition UIDLEOC := bytes "UIDL" ++ [CR; LF].
Definition UIDLEOC2 := bytes "UIDL" ++ [LF].
Definition USER := bytes "USER ".
Definition PASS := bytes "PASS ".
Definition CAPA := bytes "CAPA" ++ [CR; LF].
Definition CAPA2 := bytes "CAPA" ++ [LF].
Definition AUTH := bytes "AUTH ".
Definition AUTHEOC := bytes "AUTH" ++ [CR; LF].
Definition AUTHEOC2 := bytes "AUTH" ++ [LF].
Definition AUTHEOC3 := bytes "AUTH " ++ [CR; LF].
Definition AUTHEOC4 := bytes "AUTH " ++ [LF].
Definition STLSEOC := bytes "STLS" ++ [CR; LF].
Definition STLSEOC2 := bytes "STLS" ++ [LF].

(** enum Client_App_Pattern_Index: the enumerators count from 0. *)
Definition PATTERN_USER : nat := 0.
Definition PATTERN_PASS : nat := 1.
Definition PATTERN_APOP : nat := 2.
Definition PATTERN_AUTH : nat := 3.
Definition PATTERN_AUTHEOC : nat := 4.
Definition PATTERN_AUTHEOC2 : nat := 5.
Definition PATTERN_AUTHEOC3 : nat := 6.
Definition PATTERN_AUTHEOC4 : nat := 7.
Definition PATTERN_STLSEOC : nat := 8.
Definition PATTERN_STLSEOC2 : nat := 9.
Definition PATTERN_POP3_OTHER : nat := 10.

(** The members of [AppIdFlowContentPattern] that the detector reads. *)
Record AppIdFlowContentPattern := {
  pattern : list Z;
  length : nat
}.

(** An initializer [{ X, sizeof(X)-1, 0, 1, 0 }]. *)
Definition entry (x : list Z) : AppIdFlowContentPattern :=
  {| pattern := x; length := List.length x |}.

Definition pop3_client_patterns : list AppIdFlowContentPattern :=
  [ entry USER; entry PASS; entry APOP; entry AUTH;
    entry AUTHEOC; entry AUTHEOC2; entry AUTHEOC3; entry AUTHEOC4;
    entry STLSEOC; entry STLSEOC2;
    (* These are represented by index >= PATTERN_POP3_OTHER *)
    entry DELE; entry LISTC; entry LISTEOC; entry LISTEOC2;
    entry NOOP; entry NOOP2; entry QUIT; entry QUIT2; entry RETR;
    entry STAT; entry STAT2; entry RSET; entry RSET2; entry TOP;
    entry UIDL; entry UIDLEOC; entry UIDLEOC2; entry CAPA; entry CAPA2 ].

Definition num_pop3_client_patterns : nat := List.length pop3_client_patterns.

Definition eoc : list bool :=
  [ false; false; false; false; true; true; true; true; true;
    true; false; false; true; true; true; true; true; true; false; true; true; true; true;
    false; false; true; true; true; true ].

(** The constructor copies the table into [tcp_patterns]. *)
Definition tcp_patterns : list AppIdFlowContentPattern := pop3_client_patterns.

Definition no_pattern : AppIdFlowContentPattern := {| pattern := []; length := 0 |}.

(** ** The pattern matcher *)

(** Modelled from the spec: the multi-pattern search tool ([SearchTool],
    with its [add] and [find_all]) is not part of these sources.  Following
    section 4.1, a search over a text reports every occurrence of every
    added pattern, as the pattern's id and the position just after the
    occurrence, by increasing end position, and hands each to the callback
    until the callback returns a positive value.  Patterns are compared
    byte for byte. *)
Definition SearchTool := list (nat * list Z).

Definition ends_at (pat text : list Z) (pos : nat) : bool :=
  (List.length pat <=? pos) &&
  bytes_eqb pat (sub text (pos - List.length pat) (List.length pat)).

Definition matches_ending_at (m : SearchTool) (text : list Z) (pos : nat)
  : list (nat * nat) :=
  flat_map (fun ip => if ends_at (snd ip) text pos then [(fst ip, pos)] else []) m.

Definition all_matches (m : SearchTool) (text : list Z) : list (nat * nat) :=
  flat_map (matches_ending_at m text) (seq 1 (List.length text)).

Fixpoint run_callback {A} (ms : list (nat * nat)) (cb : nat -> nat -> A -> Z * A)
  (data : A) : A :=
  match ms with
  | [] => data
  | (id, pos) :: ms' =>
      let (r, data') := cb id pos data in
      if (0 <? r)%Z then data' else run_callback ms' cb data'
  end.

Definition find_all {A} (m : SearchTool) (text : list Z)
  (cb : nat -> nat -> A -> Z * A) (data : A) : A :=
  run_callback (all_matches m text) cb data.

(** Pop3ClientDetector::do_custom_init: the patterns are added with the
    ids 1, 2, ... ([cooked_idx]), and [longest_pattern] is their greatest
    length. *)
Definition do_custom_init : SearchTool * nat :=
  let '(m, _, longest) :=
    fold_left
      (fun (acc : SearchTool * nat * nat) (pat : AppIdFlowContentPattern) =>
         let '(m, cooked_idx, longest_pattern) := acc in
         (m ++ [(cooked_idx, firstn (length pat) (pattern pat))],
          S cooked_idx,
          if longest_pattern <? length pat then length pat else longest_pattern))
      tcp_patterns ([], 1, 0) in
  (m, longest).

Definition cmd_matcher : SearchTool := Eval cbv in fst do_custom_init.
Definition longest_pattern : nat := Eval cbv in snd do_custom_init.

(** pop3_pattern_match: the callback keeps a match only when it ends at the
    pattern's length, that is when the pattern sits at the start of the
    text. *)
Definition pop3_pattern_match (id match_end_pos : nat) (data : nat) : Z * nat :=
  let idx := id in
  if negb (length (nth (idx - 1) pop3_client_patterns no_pattern) =? match_end_pos)
  then (0%Z, data)
  else (1%Z, id).

(** ** The line scanner *)

(** pop3_check_line: "Line in the form (textCRLF)".  Returns the result code
    and the advanced [*data].  The [for] loop recurses on [end - *data]. *)
Fixpoint check_line_from (buf : list Z) (e dist data : nat) : outcome (Z * nat) :=
  match dist with
  | O => ret (1%Z, data)
  | S d =>
      c <- load buf data ;;
      if Z.eqb c 13 then
        let data := S data in
        if data <? e then
          c' <- load buf data ;;
          if Z.eqb c' 10 then ret (0%Z, S data) else ret ((-1)%Z, data)
        else ret ((-1)%Z, data)
      else if negb (isprint c) then ret ((-1)%Z, data)
      else check_line_from buf e d (S data)
  end.

Definition pop3_check_line (buf : list Z) (data e : nat) : outcome (Z * nat) :=
  check_line_from buf e (e - data) data.

(** ** The server parser *)

Definition POP3_PORT : nat := 110.
Definition POP3_COUNT_THRESHOLD : Z := 4.

Definition POP3_OK := bytes "+OK".
Definition POP3_ERR := bytes "-ERR".
Definition POP3_TERM := bytes "." ++ [CR; LF].
(** sizeof counts the terminating NUL of the literal. *)
Definition sizeof (literal : list Z) : nat := S (List.length literal).

Definition ven_cppop := bytes "cppop".
Definition ven_cc := bytes "Cubic Circle".
Definition ven_im := bytes "InterMail".
Definition ver_cc := bytes "'s v".
Definition ven_po := bytes "Post.Office".
Definition ver_po := bytes " v".
Definition ver_po2 := bytes " release ".
Definition sub_po := bytes " with ".
Definition subver_po := bytes " version ".

(** Modelled from the spec: service_strstr (service_util.h) is not part of
    these sources; it finds the first occurrence of [needle] in the [len]
    bytes from [haystack] and returns its position, or null. *)
Definition service_strstr (buf : list Z) (haystack len : nat) (needle : list Z)
  : option nat :=
  let h := sub buf haystack len in
  match find (fun i => bytes_eqb needle (sub h i (List.length needle))) (seq 0 len) with
  | Some i => Some (haystack + i)
  | None => None
  end.

(** [lim - p >= (int)sizeof(lit)-1 && memcmp(p, lit, sizeof(lit)-1) == 0] *)
Definition has_at (buf : list Z) (p lim : nat) (lit : list Z) : outcome bool :=
  if List.length lit <=? lim - p then
    w <- load_n buf p (List.length lit) ;; ret (bytes_eqb w lit)
  else ret false.

(** [p < lim && *p] *)
Definition nonzero_at (buf : list Z) (p lim : nat) : outcome bool :=
  if p <? lim then c <- load buf p ;; ret (negb (Z.eqb c NUL)) else ret false.

Definition v_end : nat := MAX_VERSION_SIZE - 1.

(** [for (; p < line_end && *p && *p != stop; p++) if (v < v_end) { *v = *p; v++; }] *)
Fixpoint copy_until (stop : Z) (buf : list Z) (dist p : nat) (ver : list Z) (v : nat)
  : outcome (nat * list Z * nat) :=
  match dist with
  | O => ret (p, ver, v)
  | S d =>
      c <- load buf p ;;
      if negb (Z.eqb c NUL) && negb (Z.eqb c stop) then
        if v <? v_end then copy_until stop buf d (S p) (store ver v c) (S v)
        else copy_until stop buf d (S p) ver v
      else ret (p, ver, v)
  end.

(** The version copy of the cppop and Cubic Circle branches, with the
    termination that follows the loop. *)
Definition copy_version (stop : Z) (buf : list Z) (p line_end : nat)
  (pd : ServicePOP3Data) : outcome ServicePOP3Data :=
  '(p, ver, v) <- copy_until stop buf (line_end - p) p (version pd) 0 ;;
  nz <- nonzero_at buf p line_end ;;
  ret (with_version pd (if nz then store ver v NUL else store ver 0 NUL)).

(** [for (; ver < p && *ver; ver++) if (v < v_end) { *v = *ver; v++; } else break;]
    followed by [*v = 0]. *)
Fixpoint copy_range (buf : list Z) (dist ver : nat) (vbuf : list Z) (v : nat)
  : outcome (list Z * nat) :=
  match dist with
  | O => ret (vbuf, v)
  | S d =>
      c <- load buf ver ;;
      if negb (Z.eqb c NUL) then
        if v <? v_end then copy_range buf d (S ver) (store vbuf v c) (S v)
        else ret (vbuf, v)
      else ret (vbuf, v)
  end.

Definition set_version (buf : list Z) (ver p : nat) (pd : ServicePOP3Data)
  : outcome ServicePOP3Data :=
  '(vbuf, v) <- copy_range buf (p - ver) ver (version pd) 0 ;;
  ret (with_version pd (store vbuf v NUL)).

(** [for (; p < line_end && *p && *p != ' '; p++) ;] *)
Definition scan_token (buf : list Z) (p line_end : nat) : outcome nat :=
  scan_while (fun c => negb (Z.eqb c NUL) && negb (is_chr c " ")) buf line_end p.

(** The Post.Office branch, after [pd->vendor = ven_po]; every
    [goto ven_ver_done] is a [ret]. *)
Definition post_office (buf : list Z) (p line_end : nat) (pd : ServicePOP3Data)
  : outcome ServicePOP3Data :=
  let p := p + (sizeof ven_po - 1) in
  m <- has_at buf p line_end ver_po ;;
  if negb m then ret pd else
  let p := p + (sizeof ver_po - 1) in
  let ver := p in
  p <- scan_token buf p line_end ;;
  stop <- (if p =? ver then ret true else nz <- nonzero_at buf p line_end ;; ret (negb nz)) ;;
  if stop then ret pd else
  m <- has_at buf p line_end ver_po2 ;;
  if negb m then (* Does not have release *) set_version buf ver p pd else
  (* Move past release and look for number followed by a space *)
  let p2 := p + (sizeof ver_po2 - 1) in
  let rel := p2 in
  p2 <- scan_token buf p2 line_end ;;
  stop <- (if negb (p2 <? line_end) || (p2 =? rel) then ret true
           else c <- load buf p2 ;; ret (Z.eqb c NUL)) ;;
  if stop then set_version buf ver p pd else
  pd <- set_version buf ver p2 pd ;;
  m <- has_at buf p2 line_end sub_po ;;
  if negb m then ret pd else
  let s := p2 + (sizeof sub_po - 1) in
  p <- scan_token buf s line_end ;;
  stop <- (if p =? s then ret true else nz <- nonzero_at buf p line_end ;; ret (negb nz)) ;;
  if stop then ret pd else
  let sub_len := p - s in
  serv <- load_n buf s sub_len ;;
  m <- (if List.length subver_po <? line_end - p
        then w <- load_n buf p (List.length subver_po) ;; ret (bytes_eqb w subver_po)
        else ret false) ;;
  if m then
    let s := p + (sizeof subver_po - 1) in
    p <- scan_token buf s line_end ;;
    ok <- (if negb (p =? s) then nonzero_at buf p line_end else ret false) ;;
    if ok then
      let sub_len := p - s in
      ver' <- load_n buf s sub_len ;;
      ret (with_subtype pd ({| service := serv; sub_version := Some ver' |} :: subtype pd))
    else
      ret (with_subtype pd ({| service := serv; sub_version := None |} :: subtype pd))
  else
    ret (with_subtype pd ({| service := serv; sub_version := None |} :: subtype pd)).

(** Lines 376-525: vendor, version and subtype out of the greeting line
    [begin, line_end). *)
Definition scan_greeting (buf : list Z) (begin line_end : nat) (pd : ServicePOP3Data)
  : outcome ServicePOP3Data :=
  let len := line_end - begin in
  match service_strstr buf begin len ven_cppop with
  | Some p =>
      let pd := with_vendor pd (Some ven_cppop) in
      let p := p + (sizeof ven_cppop - 1) in
      c <- load buf p ;;
      if is_chr c " " then copy_version (chr "]") buf (S p) line_end pd else ret pd
  | None =>
  match service_strstr buf begin len ven_cc with
  | Some p =>
      let pd := with_vendor pd (Some ven_cc) in
      let p := p + (sizeof ven_cc - 1) in
      m <- has_at buf p line_end ver_cc ;;
      if m then copy_version (chr " ") buf (p + (sizeof ver_cc - 1)) line_end pd
      else ret pd
  | None =>
  match service_strstr buf begin len ven_im with
  | Some _ => ret (with_vendor pd (Some ven_im))
  | None =>
  match service_strstr buf begin len ven_po with
  | Some p => post_office buf p line_end (with_vendor pd (Some ven_po))
  | None => ret pd
  end end end end.

(** Lines 338-375: the status line just read is matched with what the
    client did last. *)
Definition correlate (dd : POP3DetectorData) (asd : AppIdSession)
  : POP3DetectorData * AppIdSession :=
  let pd := server dd in
  match state (client dd) with
  | POP3_CLIENT_STATE_STLS_CMD =>
      if error pd then
        (* We failed to transition to POP3S - fall back to normal POP3 state *)
        (with_client dd (with_state (client dd) POP3_CLIENT_STATE_AUTH), asd)
      else
        let asd := set_session_flags APPID_SESSION_ENCRYPTED asd in
        let asd := clear_session_flags APPID_SESSION_CLIENT_GETS_SERVER_PACKETS asd in
        let asd := log (add_app APP_ID_POP3S APP_ID_POP3S None) asd in
        (dd, bump_pop3s_clients asd)
  | _ =>
      match username (client dd) with
      | Some u =>
          if error pd then
            let asd := log (add_user u APP_ID_POP3 0) asd in
            (with_client dd (with_username (client dd) None), asd)
          else
            let asd := log (add_user u APP_ID_POP3 1) asd in
            let dd := with_client dd (with_username (client dd) None) in
            let dd := with_need_continue dd false in
            let asd := clear_session_flags APPID_SESSION_CLIENT_GETS_SERVER_PACKETS asd in
            let dd := with_client dd (with_got_user (client dd) true) in
            (dd, if detected (client dd)
                 then set_session_flags APPID_SESSION_CLIENT_DETECTED asd else asd)
      | None => (dd, asd)
      end
  end.

(** case POP3_STATE_CONTINUE: the [while (data < end)] loop.  An iteration
    that does not return has read a line and moved [data] forward, so
    [end - data] iterations are enough; [fuel] bounds them. *)
Fixpoint continue_loop (fuel : nat) (buf : list Z) (e data : nat) (pd : ServicePOP3Data)
  : outcome (Z * ServicePOP3Data) :=
  if data <? e then
    match fuel with
    | O => OutOfFuel
    | S fuel' =>
        term <- (if e - data =? sizeof POP3_TERM - 1
                 then w <- load_n buf data (sizeof POP3_TERM - 1) ;;
                      ret (bytes_eqb w POP3_TERM)
                 else ret false) ;;
        if term then ret (0%Z, with_sstate (count_incr pd) POP3_STATE_RESPONSE)
        else
          '(r, data) <- pop3_check_line buf data e ;;
          if (r <? 0)%Z then ret ((-1)%Z, pd)
          else continue_loop fuel' buf e data pd
    end
  else ret (0%Z, pd).

(** case POP3_STATE_RESPONSE, entered with [begin] set (from CONNECT) or
    null. *)
Definition response_case (dd : POP3DetectorData) (buf : list Z) (asd : AppIdSession)
  (server_arg : bool) (begin : option nat)
  : outcome (Z * POP3DetectorData * AppIdSession) :=
  let data := 0 in
  let size := List.length buf in
  let e := data + size in
  sasl <- match begin with
          | Some _ => ret false
          | None => c0 <- load buf data ;;
                    if is_chr c0 "+"
                    then c1 <- load buf (data + 1) ;; ret (is_chr c1 " ")
                    else ret false
          end ;;
  if sasl then
    let data := data + 2 in
    '(r, data) <- pop3_check_line buf data e ;;
    if negb (Z.eqb r 0) then ret ((-1)%Z, dd, asd)
    else if negb (data =? e) then ret ((-1)%Z, dd, asd)
    else ret (0%Z, dd, asd)
  else if size <? sizeof POP3_ERR then ret ((-1)%Z, dd, asd)
  else
    w3 <- load_n buf data (sizeof POP3_OK - 1) ;;
    status <- (if bytes_eqb w3 POP3_OK then ret (Some (false, begin, sizeof POP3_OK - 1))
               else w4 <- load_n buf data (sizeof POP3_ERR - 1) ;;
                    if bytes_eqb w4 POP3_ERR
                    then ret (Some (true, None, sizeof POP3_ERR - 1))
                    else ret None) ;;
    match status with
    | None => ret ((-1)%Z, dd, asd)
    | Some (err, begin, skip) =>
        let data := data + skip in
        let dd := with_server dd (with_error (server dd) err) in
        '(r, data) <- pop3_check_line buf data e ;;
        if (r <? 0)%Z then ret ((-1)%Z, dd, asd)
        else
          let '(dd, asd) := correlate dd asd in
          pd <- match begin with
                | Some begin =>
                    if server_arg then scan_greeting buf begin (data - 1) (server dd)
                    else ret (server dd)
                | None => ret (server dd)
                end ;;
          if e <=? data then ret (0%Z, with_server dd (count_incr pd), asd)
          else
            let pd := with_sstate pd POP3_STATE_CONTINUE in
            '(r, pd) <- continue_loop (e - data) buf e data pd ;;
            ret (r, with_server dd pd, asd)
    end.

(** pop3_server_validate(dd, data, size, asd, server); [size] is the length
    of the payload [buf]. *)
Definition pop3_server_validate (dd : POP3DetectorData) (buf : list Z)
  (asd : AppIdSession) (server_arg : bool)
  : outcome (Z * POP3DetectorData * AppIdSession) :=
  let e := List.length buf in
  match sstate (server dd) with
  | POP3_STATE_CONNECT =>
      let dd := with_server dd (with_sstate (server dd) POP3_STATE_RESPONSE) in
      response_case dd buf asd server_arg (Some 0)
  | POP3_STATE_RESPONSE =>
      response_case dd buf asd server_arg None
  | POP3_STATE_CONTINUE =>
      '(r, pd) <- continue_loop e buf e 0 (server dd) ;;
      ret (r, with_server dd pd, asd)
  end.

(** ** The client parser *)

Inductive appid_status := APPID_SUCCESS | APPID_INPROCESS | APPID_NOMATCH.

Inductive direction := APP_ID_FROM_INITIATOR | APP_ID_FROM_RESPONDER.

(** The members of [AppIdDiscoveryArgs] that the detectors use; [size] is
    the length of [data]. *)
Record AppIdDiscoveryArgs := {
  data : list Z;
  dir : direction;
  asd : AppIdSession
}.

Definition size (args : AppIdDiscoveryArgs) : nat := List.length (data args).

(** [for (; (s < end) && *s != '\r' && *s != '\n'; s++) ;] *)
Definition skip_to_eol (buf : list Z) (e s : nat) : outcome nat :=
  scan_while (fun c => negb (Z.eqb c CR) && negb (Z.eqb c LF)) buf e s.

(** [for (; (s < end) && ( *s == '\r' || *s == '\n'); s++) ;] *)
Definition skip_crlf (buf : list Z) (e s : nat) : outcome nat :=
  scan_while (fun c => Z.eqb c CR || Z.eqb c LF) buf e s.

(** sizeof(username) for [char username[((255 - (sizeof(USER) - 1)) - 2) + 1]]. *)
Definition sizeof_username : nat := ((255 - (sizeof USER - 1)) - 2) + 1.

Definition username_char (c : Z) : bool :=
  isalnum c || is_chr c "." || is_chr c "@" || is_chr c "-" || is_chr c "_".

(** [*p = 0; if (username[0]) { ...; fd->username = snort_strdup(username); }]
    with [acc] the bytes written to [username] so far. *)
Definition save_username (acc : list Z) (fd : ClientPOP3Data) : ClientPOP3Data :=
  let username := acc ++ [NUL] in
  if negb (Z.eqb (hd NUL username) NUL)
  then with_username fd (Some (c_str username))
  else fd.

(** The [for (; s < end && p < p_end; s++)] loop of the USER/APOP case.
    [acc] holds the bytes written to the local [username] array, so that
    [p - username] is its length; the recursion is on [end - s]. *)
Fixpoint username_loop (buf : list Z) (dist s : nat) (acc : list Z) (found_tick : bool)
  (fd : ClientPOP3Data) : outcome (nat * ClientPOP3Data) :=
  match dist with
  | O => ret (s, fd)
  | S d =>
      if List.length acc <? sizeof_username - 1 then
        c <- load buf s ;;
        if username_char c then
          username_loop buf d (S s) (if found_tick then acc else acc ++ [c]) found_tick fd
        else if is_chr c "`" then
          username_loop buf d (S s) acc true fd
        else if Z.eqb c CR || Z.eqb c LF || is_chr c " " then
          ret (s, save_username acc fd)
        else ret (s, fd)
      else ret (s, fd)
  end.

Inductive step_result :=
| Return (code : appid_status)
| Continue (s : nat).

Section ClientDetector.

(** [eoc] has [num_pop3_client_patterns] entries, and [eoc[pattern_index]]
    is read with [pattern_index] up to [num_pop3_client_patterns]: what the
    read one past the array yields is left open. *)
Variable eoc_past_end : bool.

Definition eoc_at (i : nat) : bool := nth i eoc eoc_past_end.

(** case POP3_CLIENT_STATE_AUTH: [switch (pattern_index)]. *)
Definition auth_case (buf : list Z) (e s pattern_index : nat) (fd : ClientPOP3Data)
  : outcome (nat * ClientPOP3Data) :=
  if (pattern_index =? PATTERN_STLSEOC) || (pattern_index =? PATTERN_STLSEOC2) then
    let fd := with_state fd POP3_CLIENT_STATE_STLS_CMD in
    (* skip extra CRLFs *)
    s <- skip_crlf buf e s ;;
    ret (s, fd)
  else if (pattern_index =? PATTERN_APOP) || (pattern_index =? PATTERN_USER) then
    '(s, fd) <- username_loop buf (e - s) s [] false fd ;;
    let fd := if pattern_index =? PATTERN_APOP
              then with_state fd POP3_CLIENT_STATE_TRANS else fd in
    s <- skip_to_eol buf e s ;;
    s <- skip_crlf buf e s ;;
    ret (s, fd)
  else if pattern_index =? PATTERN_AUTH then
    let fd := with_state fd POP3_CLIENT_STATE_TRANS in
    s <- skip_to_eol buf e s ;;
    s <- skip_crlf buf e s ;;
    ret (s, fd)
  else if (pattern_index =? PATTERN_AUTHEOC) || (pattern_index =? PATTERN_AUTHEOC2)
          || (pattern_index =? PATTERN_AUTHEOC3) || (pattern_index =? PATTERN_AUTHEOC4) then
    s <- skip_crlf buf e s ;;
    ret (s, fd)
  else if (pattern_index =? PATTERN_PASS) && got_user fd then
    let fd := with_state fd POP3_CLIENT_STATE_TRANS in
    s <- skip_to_eol buf e s ;;
    s <- skip_crlf buf e s ;;
    ret (s, fd)
  else
    s <- (if negb (eoc_at pattern_index) then skip_to_eol buf e s else ret s) ;;
    s <- skip_crlf buf e s ;;
    ret (s, fd).

(** case POP3_CLIENT_STATE_TRANS. *)
Definition trans_case (buf : list Z) (e s pattern_index : nat) (fd : ClientPOP3Data)
  (asd : AppIdSession) : outcome (nat * ClientPOP3Data * AppIdSession) :=
  let '(fd, asd) :=
    if PATTERN_POP3_OTHER <=? pattern_index then
      let asd := log (add_app APP_ID_POP3 APP_ID_POP3 None) asd in
      let asd := bump_pop3_clients asd in
      (with_detected fd true, asd)
    else (fd, asd) in
  s <- (if negb (eoc_at pattern_index) then skip_to_eol buf e s else ret s) ;;
  s <- skip_crlf buf e s ;;
  ret (s, fd, asd).

(** One turn of [while ((length = (end - s)))], entered with [s < end]. *)
Definition client_command (buf : list Z) (e s : nat) (dd : POP3DetectorData)
  (asd : AppIdSession) : outcome (step_result * POP3DetectorData * AppIdSession) :=
  let length_ := e - s in
  text <- load_n buf s (if longest_pattern <? length_ then longest_pattern else length_) ;;
  let pattern_index := find_all cmd_matcher text pop3_pattern_match 0 in
  if pattern_index =? 0 then
    let dd := with_need_continue dd false in
    let asd := set_session_flags APPID_SESSION_CLIENT_DETECTED asd in
    ret (Return APPID_SUCCESS, dd, asd)
  else
    let cmd := nth (pattern_index - 1) tcp_patterns no_pattern in
    let s := s + length cmd in
    match state (client dd) with
    | POP3_CLIENT_STATE_STLS_CMD =>
        (* We failed to transition to POP3S - fall back to normal POP3 AUTHORIZATION state *)
        let fd := with_state (client dd) POP3_CLIENT_STATE_AUTH in
        '(s, fd) <- auth_case buf e s pattern_index fd ;;
        ret (Continue s, with_client dd fd, asd)
    | POP3_CLIENT_STATE_AUTH =>
        '(s, fd) <- auth_case buf e s pattern_index (client dd) ;;
        ret (Continue s, with_client dd fd, asd)
    | POP3_CLIENT_STATE_TRANS =>
        '(s, fd, asd) <- trans_case buf e s pattern_index (client dd) asd ;;
        ret (Continue s, with_client dd fd, asd)
    end.

(** The [while] loop; [fuel] bounds its turns. *)
Fixpoint client_loop (fuel : nat) (buf : list Z) (e s : nat) (dd : POP3DetectorData)
  (asd : AppIdSession) : outcome (appid_status * POP3DetectorData * AppIdSession) :=
  if e - s =? 0 then ret (APPID_INPROCESS, dd, asd)
  else
    match fuel with
    | O => OutOfFuel
    | S fuel' =>
        '(r, dd, asd) <- client_command buf e s dd asd ;;
        match r with
        | Return code => ret (code, dd, asd)
        | Continue s => client_loop fuel' buf e s dd asd
        end
    end.

(** Pop3ClientDetector::validate.  The per-flow data is changed in place:
    the result session carries it as it is when the call returns. *)
Definition Pop3ClientDetector_validate (args : AppIdDiscoveryArgs)
  : outcome (appid_status * AppIdSession) :=
  let s := 0 in
  let e := size args in
  if size args =? 0 then ret (APPID_INPROCESS, asd args)
  else
    let '(dd, asd) :=
      match flow_data (asd args) with
      | None => (calloc_POP3DetectorData, data_add calloc_POP3DetectorData (asd args))
      | Some dd => (dd, asd args)
      end in
    let '(dd, asd) :=
      if negb (set_flags (client dd)) then
        let dd := with_need_continue dd true in
        let dd := with_client dd (with_set_flags (client dd) true) in
        (dd, set_session_flags APPID_SESSION_CLIENT_GETS_SERVER_PACKETS asd)
      else (dd, asd) in
    match dir args with
    | APP_ID_FROM_RESPONDER =>
        '(r, dd, asd) <- pop3_server_validate dd (data args) asd false ;;
        let asd := if negb (Z.eqb r 0)
                   then clear_session_flags APPID_SESSION_CLIENT_GETS_SERVER_PACKETS asd
                   else asd in
        ret (APPID_INPROCESS, data_add dd asd)
    | APP_ID_FROM_INITIATOR =>
        '(r, dd, asd) <- client_loop (e - s) (data args) e s dd asd ;;
        ret (r, data_add dd asd)
    end.

End ClientDetector.

(** ** The service detector *)

(** Lines 812-831 of Pop3ServiceDetector::validate: the per-flow data is
    fetched, or made, and the session flags are set for a packet that the
    service side sees. *)
Definition service_flow_data (asd : AppIdSession) : POP3DetectorData * AppIdSession :=
  let '(dd, asd) :=
    match flow_data asd with
    | None => (calloc_POP3DetectorData, data_add calloc_POP3DetectorData asd)
    | Some dd => (dd, asd)
    end in
  (* server side is seeing packets so no need for client side to process them *)
  let asd := clear_session_flags APPID_SESSION_CLIENT_GETS_SERVER_PACKETS asd in
  let asd := if need_continue dd
             then set_session_flags APPID_SESSION_CONTINUE asd
             else clear_session_flags APPID_SESSION_CONTINUE asd in
  (dd, asd).

(** The arguments of the add_service_consume_subtype call of line 844. *)
Definition service_report (dd : POP3DetectorData) : call :=
  let pd := server dd in
  add_service_consume_subtype
    (match state (client dd) with
     | POP3_CLIENT_STATE_STLS_CMD => APP_ID_POP3S
     | _ => APP_ID_POP3
     end)
    (vendor pd)
    (if negb (Z.eqb (hd NUL (version pd)) NUL) then Some (c_str (version pd)) else None)
    (subtype pd).

(** Pop3ServiceDetector::validate. *)
Definition Pop3ServiceDetector_validate (args : AppIdDiscoveryArgs)
  : outcome (appid_status * AppIdSession) :=
  let inprocess (asd : AppIdSession) := ret (APPID_INPROCESS, log service_inprocess asd) in
  if size args =? 0 then inprocess (asd args)
  else
    match dir args with
    | APP_ID_FROM_INITIATOR => inprocess (asd args)
    | APP_ID_FROM_RESPONDER =>
        let '(dd, asd) := service_flow_data (asd args) in
        if negb (need_continue dd) && get_session_flags APPID_SESSION_SERVICE_DETECTED asd
        then ret (APPID_SUCCESS, bump_pop_flows asd)
        else
          '(r, dd, asd) <- pop3_server_validate dd (data args) asd true ;;
          let pd := server dd in
          if Z.eqb r 0 then
            if (POP3_COUNT_THRESHOLD <=? count pd)%Z
               && negb (get_session_flags APPID_SESSION_SERVICE_DETECTED asd) then
              let asd := log (service_report dd) asd in
              let dd := with_server dd (with_subtype pd []) in
              ret (APPID_SUCCESS, data_add dd (bump_pop_flows asd))
            else inprocess (data_add dd asd)
          else if negb (get_session_flags APPID_SESSION_SERVICE_DETECTED asd) then
            ret (APPID_NOMATCH, data_add dd (log fail_service asd))
          else
            let asd := clear_session_flags APPID_SESSION_CONTINUE asd in
            ret (APPID_SUCCESS, data_add dd (bump_pop_flows asd))
    end.

(** * Specification vocabulary

    The predicates and relations in which the properties are stated. *)

(** ** Reasoning about runs *)

(** [wp m Q]: the run [m] finishes, without a fetch outside the payload and
    without running out of loop turns, and [Q] holds of its result and of
    the number of bytes it fetched. *)
Definition wp {A} (m : outcome A) (Q : A -> nat -> Prop) : Prop :=
  match m with
  | Ok a n => Q a n
  | _ => False
  end.

(** The byte of [buf] at [i] exists and satisfies [P]. *)
Definition byte_at (buf : list Z) (i : nat) (P : Z -> bool) : Prop :=
  exists c, nth_error buf i = Some c /\ P c = true.

(** ** The line scanner *)

(** Every byte of [buf] from [a] up to [b] is printable. *)
Definition printable_run (buf : list Z) (a b : nat) : Prop :=
  forall i, a <= i < b -> byte_at buf i isprint.

(** What pop3_check_line makes of the bytes from [data] up to [e]: the
    result code and where it leaves the cursor.
    - [line_terminated]: [k] printable bytes, then CR LF; 0, and the cursor
      is just past the LF.
    - [line_incomplete]: every byte up to [e] is printable; 1, and the
      cursor is at [e].
    - [line_malformed_cr]: [k] printable bytes, then a CR that is the last
      byte before [e] or is followed by a byte other than LF; -1, and the
      cursor is just past the CR.
    - [line_malformed_byte]: [k] printable bytes, then a byte that is
      neither printable nor CR; -1, and the cursor is at that byte. *)
Inductive line_result (buf : list Z) (data e : nat) : Z -> nat -> Prop :=
| line_terminated k :
    data + k + 2 <= e ->
    printable_run buf data (data + k) ->
    nth_error buf (data + k) = Some CR ->
    nth_error buf (data + k + 1) = Some LF ->
    line_result buf data e 0 (data + k + 2)
| line_incomplete :
    printable_run buf data e ->
    line_result buf data e 1 e
| line_malformed_cr k :
    data + k < e ->
    printable_run buf data (data + k) ->
    nth_error buf (data + k) = Some CR ->
    (data + k + 1 < e -> byte_at buf (data + k + 1) (fun c => negb (Z.eqb c LF))) ->
    line_result buf data e (-1) (data + k + 1)
| line_malformed_byte k :
    data + k < e ->
    printable_run buf data (data + k) ->
    byte_at buf (data + k) (fun c => negb (Z.eqb c CR) && negb (isprint c)) ->
    line_result buf data e (-1) (data + k).

(** ** The greeting scan reads inside the line and leaves the response state alone *)

Definition same_progress (pd pd' : ServicePOP3Data) : Prop :=
  sstate pd' = sstate pd /\ count pd' = count pd /\ error pd' = error pd.

(** ** What one call of the server parser does *)

(** [d] is reached from [data] over whole CRLF-terminated lines. *)
Inductive whole_lines (buf : list Z) : nat -> nat -> Prop :=
| whole_lines_nil d : whole_lines buf d d
| whole_lines_cons d d' d'' :
    line_result buf d (List.length buf) 0 d' ->
    whole_lines buf d' d'' ->
    whole_lines buf d d''.

(** The CONTINUE loop from [data]: either the data is left as it is, or the
    last three bytes of the payload are the terminator, at a line start. *)
Inductive continue_outcome (buf : list Z) (data : nat) (pd : ServicePOP3Data)
  : Z -> ServicePOP3Data -> Prop :=
| cont_open r :
    r = 0%Z \/ r = (-1)%Z -> continue_outcome buf data pd r pd
| cont_term d :
    whole_lines buf data d -> d + 3 = List.length buf -> sub buf d 3 = POP3_TERM ->
    continue_outcome buf data pd 0 (with_sstate (count_incr pd) POP3_STATE_RESPONSE).

(** The status that starts the payload. *)
Definition status_of (buf : list Z) : option bool :=
  if bytes_eqb (sub buf 0 3) POP3_OK then Some false
  else if bytes_eqb (sub buf 0 4) POP3_ERR then Some true
  else None.

(** After the status line, which ended at [d]. *)
Inductive after_status (buf : list Z) (d : nat) (pd : ServicePOP3Data)
  : Z -> ServicePOP3Data -> Prop :=
| single_line :
    List.length buf <= d -> after_status buf d pd 0 (count_incr pd)
| multi_line r pd' :
    d < List.length buf ->
    continue_outcome buf d (with_sstate pd POP3_STATE_CONTINUE) r pd' ->
    after_status buf d pd r pd'.

(** case POP3_STATE_RESPONSE, entered with [begin]: every way through it. *)
Inductive response_outcome (dd : POP3DetectorData) (buf : list Z) (asd : AppIdSession)
  (server_arg : bool) (begin : option nat) : Z -> POP3DetectorData -> AppIdSession -> Prop :=
| resp_sasl r :
    begin = None ->
    byte_at buf 0 (fun c => is_chr c "+") -> byte_at buf 1 (fun c => is_chr c " ") ->
    r = 0%Z \/ r = (-1)%Z ->
    response_outcome dd buf asd server_arg begin r dd asd
| resp_short :
    List.length buf < 5 ->
    response_outcome dd buf asd server_arg begin (-1) dd asd
| resp_unknown :
    status_of buf = None ->
    response_outcome dd buf asd server_arg begin (-1) dd asd
| resp_malformed err rl d :
    status_of buf = Some err ->
    line_result buf (if err then 4 else 3) (List.length buf) rl d -> (rl < 0)%Z ->
    response_outcome dd buf asd server_arg begin (-1)
      (with_server dd (with_error (server dd) err)) asd
| resp_status err rl d dd1 asd1 pd1 r pd' :
    5 <= List.length buf ->
    status_of buf = Some err ->
    line_result buf (if err then 4 else 3) (List.length buf) rl d -> (0 <= rl)%Z ->
    correlate (with_server dd (with_error (server dd) err)) asd = (dd1, asd1) ->
    (server_arg = false \/ begin = None \/ err = true -> pd1 = server dd1) ->
    same_progress (server dd1) pd1 ->
    after_status buf d pd1 r pd' ->
    response_outcome dd buf asd server_arg begin r (with_server dd1 pd') asd1.

(** pop3_server_validate. *)
Inductive server_outcome (dd : POP3DetectorData) (buf : list Z) (asd : AppIdSession)
  (server_arg : bool) : Z -> POP3DetectorData -> AppIdSession -> Prop :=
| srv_connect r dd' asd' :
    sstate (server dd) = POP3_STATE_CONNECT ->
    response_outcome (with_server dd (with_sstate (server dd) POP3_STATE_RESPONSE))
      buf asd server_arg (Some 0) r dd' asd' ->
    server_outcome dd buf asd server_arg r dd' asd'
| srv_response r dd' asd' :
    sstate (server dd) = POP3_STATE_RESPONSE ->
    response_outcome dd buf asd server_arg None r dd' asd' ->
    server_outcome dd buf asd server_arg r dd' asd'
| srv_continue r pd' :
    sstate (server dd) = POP3_STATE_CONTINUE ->
    continue_outcome buf 0 (server dd) r pd' ->
    server_outcome dd buf asd server_arg r (with_server dd pd') asd.

(** ** Status lines *)

(** The payload starts with the status [lit] and the line scanner accepts
    what follows it (terminated, or cut by the end of the payload). *)
Definition status_line (buf lit : list Z) : Prop :=
  5 <= List.length buf /\
  sub buf 0 (List.length lit) = lit /\
  exists r d n,
    pop3_check_line buf (List.length lit) (List.length buf) = Ok (r, d) n /\ (0 <= r)%Z.

(** ** The calls that [correlate] makes *)

Definition correlate_calls (dd : POP3DetectorData) : list call :=
  match state (client dd) with
  | POP3_CLIENT_STATE_STLS_CMD =>
      if error (server dd) then []
      else [set_session_flags_call APPID_SESSION_ENCRYPTED;
            clear_session_flags_call APPID_SESSION_CLIENT_GETS_SERVER_PACKETS;
            add_app APP_ID_POP3S APP_ID_POP3S None]
  | _ =>
      match username (client dd) with
      | Some u =>
          if error (server dd) then [add_user u APP_ID_POP3 0]
          else [add_user u APP_ID_POP3 1;
                clear_session_flags_call APPID_SESSION_CLIENT_GETS_SERVER_PACKETS]
               ++ (if detected (client dd)
                   then [set_session_flags_call APPID_SESSION_CLIENT_DETECTED] else [])
      | None => []
      end
  end.

(** ** The pattern matcher *)

Definition accepted (ip : nat * nat) : bool :=
  length (nth (fst ip - 1) pop3_client_patterns no_pattern) =? snd ip.

Definition pattern_index_of (text : list Z) : nat :=
  find_all cmd_matcher text pop3_pattern_match 0.

(** ** The client parser: one command *)

Definition allowed (u : list Z) : Prop := Forall (fun c => username_char c = true) u.

(** What a call may do to the stored user name. *)
Definition username_kept_or_captured (old new : option (list Z)) : Prop :=
  new = old \/
  exists u, new = Some u /\ 0 < List.length u <= sizeof_username - 2 /\ allowed u.

Definition same_but_username (fd fd' : ClientPOP3Data) : Prop :=
  auth fd' = auth fd /\ state fd' = state fd /\ set_flags fd' = set_flags fd /\
  detected fd' = detected fd /\ got_user fd' = got_user fd /\
  username_kept_or_captured (username fd) (username fd').

(** The client state that the AUTHORIZATION case leaves. *)
Definition auth_next (pattern_index : nat) (fd : ClientPOP3Data) : POP3ClientState :=
  if (pattern_index =? PATTERN_STLSEOC) || (pattern_index =? PATTERN_STLSEOC2)
  then POP3_CLIENT_STATE_STLS_CMD
  else if pattern_index =? PATTERN_APOP then POP3_CLIENT_STATE_TRANS
  else if pattern_index =? PATTERN_USER then state fd
  else if pattern_index =? PATTERN_AUTH then POP3_CLIENT_STATE_TRANS
  else if (pattern_index =? PATTERN_AUTHEOC) || (pattern_index =? PATTERN_AUTHEOC2)
          || (pattern_index =? PATTERN_AUTHEOC3) || (pattern_index =? PATTERN_AUTHEOC4)
  then state fd
  else if (pattern_index =? PATTERN_PASS) && got_user fd then POP3_CLIENT_STATE_TRANS
  else state fd.

Definition auth_post (fd fd' : ClientPOP3Data) (pattern_index : nat) : Prop :=
  auth fd' = auth fd /\ state fd' = auth_next pattern_index fd /\
  set_flags fd' = set_flags fd /\ detected fd' = detected fd /\
  got_user fd' = got_user fd /\
  username_kept_or_captured (username fd) (username fd').

Definition trans_calls (pattern_index : nat) : list call :=
  if PATTERN_POP3_OTHER <=? pattern_index then [add_app APP_ID_POP3 APP_ID_POP3 None] else [].

(** The text handed to the matcher at [s]. *)
Definition window (buf : list Z) (s : nat) : list Z :=
  sub buf s (if longest_pattern <? List.length buf - s
             then longest_pattern else List.length buf - s).

(** One turn of the loop at [s], with [e] the payload's length. *)
Inductive command_outcome (buf : list Z) (s : nat) (dd : POP3DetectorData)
  (asd : AppIdSession) : step_result -> POP3DetectorData -> AppIdSession -> nat -> Prop :=
| cmd_no_match :
    pattern_index_of (window buf s) = 0 ->
    command_outcome buf s dd asd (Return APPID_SUCCESS)
      (with_need_continue dd false)
      (set_session_flags APPID_SESSION_CLIENT_DETECTED asd)
      (List.length (window buf s))
| cmd_auth s' fd' n :
    pattern_index_of (window buf s) <> 0 ->
    state (client dd) <> POP3_CLIENT_STATE_TRANS ->
    s < s' <= List.length buf -> n <= 3 * (s' - s) ->
    auth_post (with_state (client dd) POP3_CLIENT_STATE_AUTH) fd'
      (pattern_index_of (window buf s)) ->
    command_outcome buf s dd asd (Continue s') (with_client dd fd') asd n
| cmd_trans s' asd' n :
    pattern_index_of (window buf s) <> 0 ->
    state (client dd) = POP3_CLIENT_STATE_TRANS ->
    s < s' <= List.length buf -> n <= 3 * (s' - s) ->
    calls asd' = calls asd ++ trans_calls (pattern_index_of (window buf s)) ->
    flags asd' = flags asd -> flow_data asd' = flow_data asd ->
    command_outcome buf s dd asd (Continue s')
      (with_client dd
         (if PATTERN_POP3_OTHER <=? pattern_index_of (window buf s)
          then with_detected (client dd) true else client dd)) asd' n.

(** The flow data a detector call starts from. *)
Definition flow_data_or_new (asd : AppIdSession) : POP3DetectorData :=
  match flow_data asd with
  | Some dd => dd
  | None => calloc_POP3DetectorData
  end.

(** ** Concrete flows *)

Definition new_session : AppIdSession :=
  {| flags := no_flags; flow_data := None; calls := [];
     appid_stats := {| pop3_clients := 0; pop3s_clients := 0; pop_flows := 0 |} |}.

Definition from_server (payload : list Z) (a : AppIdSession) : AppIdDiscoveryArgs :=
  {| data := payload; dir := APP_ID_FROM_RESPONDER; asd := a |}.

Definition from_client (payload : list Z) (a : AppIdSession) : AppIdDiscoveryArgs :=
  {| data := payload; dir := APP_ID_FROM_INITIATOR; asd := a |}.

Definition crlf : list Z := [CR; LF].

(** The server side of the flow data after a detector call. *)
Definition server_after (o : outcome (appid_status * AppIdSession)) : option ServicePOP3Data :=
  match o with
  | Ok (_, a) _ => option_map server (flow_data a)
  | _ => None
  end.

Definition post_office_greeting : list Z :=
  bytes "+OK Post.Office v3.5.3 release 223 with Rutger version 1.0" ++ crlf.

(** ** C5: the line scanner *)

(** The conditions C5 names, in its words. *)
Definition low_byte_seen (buf : list Z) (data e : nat) : Prop :=
  exists i c, data <= i < e /\ nth_error buf i = Some c /\
              (c < 32)%Z /\ c <> CR /\ c <> LF.
Definition cr_without_lf (buf : list Z) (data e : nat) : Prop :=
  exists i, data <= i < e /\ nth_error buf i = Some CR /\ nth_error buf (i + 1) <> Some LF.
Definition crlf_seen (buf : list Z) (data e : nat) : Prop :=
  exists i, data <= i /\ i + 1 < e /\
            nth_error buf i = Some CR /\ nth_error buf (i + 1) = Some LF.

(** ** C4: the response count *)

Definition at_line_start (buf : list Z) (d : nat) : Prop :=
  d = 0 \/ (2 <= d /\ nth_error buf (d - 2) = Some CR /\ nth_error buf (d - 1) = Some LF).

(** The payload is one status line and nothing more: the line ends the
    payload with CRLF ([rl] = 0) or is cut by the end of the payload
    ([rl] = 1). *)
Definition status_ends_payload (dd : POP3DetectorData) (buf : list Z) : Prop :=
  sstate (server dd) <> POP3_STATE_CONTINUE /\
  5 <= List.length buf /\
  exists err rl,
    status_of buf = Some err /\
    line_result buf (if err then 4 else 3) (List.length buf) rl (List.length buf) /\
    (rl = 0 \/ rl = 1)%Z.

(** The last three bytes of the payload are "." CR LF, at a line start. *)
Definition terminator_ends_payload (buf : list Z) : Prop :=
  exists d, d + 3 = List.length buf /\ sub buf d 3 = POP3_TERM /\ at_line_start buf d.

(** ** Status lines and the client's last action (C1, C10) *)

Definition stls_ok_calls : list call :=
  [ set_session_flags_call APPID_SESSION_ENCRYPTED;
    clear_session_flags_call APPID_SESSION_CLIENT_GETS_SERVER_PACKETS;
    add_app APP_ID_POP3S APP_ID_POP3S None ].

(** ** C2: the service report *)

Definition is_service_report (c : call) : bool :=
  match c with
  | add_service_consume_subtype _ _ _ _ => true
  | _ => false
  end.

(** The calls made between two states of a session. *)
Definition emitted (before after : AppIdSession) : list call :=
  skipn (List.length (calls before)) (calls after).

(** ** C3: no recognised command *)

(** No pattern of the table starts the bytes at [s]. *)
Definition no_command_at (buf : list Z) (s : nat) : Prop :=
  forall cmd, In cmd pop3_client_patterns ->
              pattern cmd <> firstn (length cmd) (skipn s buf).

(** ** C6: the captured user name *)

(** The bytes that end a user name: CR, LF and space. *)
Definition separator (t : Z) : Prop := t = CR \/ t = LF \/ t = chr " ".

Definition long_name : list Z := repeat (chr "a") 252.

(** ** C8: packet boundaries *)

Definition terminator_at (buf : list Z) (d : nat) : Prop :=
  d + 3 = List.length buf /\ sub buf d 3 = POP3_TERM.

(** The CONTINUE loop, turn by turn. *)
Inductive continue_run (buf : list Z) : nat -> ServicePOP3Data -> Z -> ServicePOP3Data -> Prop :=
| run_end d pd :
    List.length buf <= d -> continue_run buf d pd 0 pd
| run_term d pd :
    d < List.length buf -> terminator_at buf d ->
    continue_run buf d pd 0 (with_sstate (count_incr pd) POP3_STATE_RESPONSE)
| run_malformed d pd rl d' :
    d < List.length buf -> ~ terminator_at buf d ->
    line_result buf d (List.length buf) rl d' -> (rl < 0)%Z ->
    continue_run buf d pd (-1) pd
| run_line d pd rl d' r pd' :
    d < List.length buf -> ~ terminator_at buf d ->
    line_result buf d (List.length buf) rl d' -> (0 <= rl)%Z ->
    continue_run buf d' pd r pd' ->
    continue_run buf d pd r pd'.

Definition ends_with_crlf (p : list Z) : Prop := exists q, p = q ++ [CR; LF].

(** The flow data and session after one more server payload. *)
Definition then_server (o : option (POP3DetectorData * AppIdSession)) (p : list Z)
  : option (POP3DetectorData * AppIdSession) :=
  match o with
  | Some (dd, a) =>
      match pop3_server_validate dd p a true with
      | Ok (_, dd', a') _ => Some (dd', a')
      | _ => None
      end
  | None => None
  end.

(** The session after one more client payload. *)
Definition then_client (o : option AppIdSession) (p : list Z) : option AppIdSession :=
  match o with
  | Some a =>
      match Pop3ClientDetector_validate false (from_client p a) with
      | Ok (_, a') _ => Some a'
      | _ => None
      end
  | None => None
  end.

(** ** C10: the user report *)

(** The session after one more server payload seen by the service
    detector. *)
Definition then_service (o : option AppIdSession) (p : list Z) : option AppIdSession :=
  match o with
  | Some a =>
      match Pop3ServiceDetector_validate (from_server p a) with
      | Ok (_, a') _ => Some a'
      | _ => None
      end
  | None => None
  end.

Definition is_add_user (c : call) : bool :=
  match c with
  | add_user _ _ _ => true
  | _ => false
  end.

(** The user name held by the flow of a session. *)
Definition held_username (a : AppIdSession) : option (list Z) :=
  match flow_data a with
  | Some dd => username (client dd)
  | None => None
  end.

(** ** The theorems at concrete flows *)

(** A flow whose client sent STLS and waits for the answer. *)
Definition stls_flow : POP3DetectorData :=
  with_server
    (with_client calloc_POP3DetectorData
       (with_state (client calloc_POP3DetectorData) POP3_CLIENT_STATE_STLS_CMD))
    (with_sstate (server calloc_POP3DetectorData) POP3_STATE_RESPONSE).

(** A flow that holds the user name "alice". *)
Definition alice_flow : POP3DetectorData :=
  with_server
    (with_client calloc_POP3DetectorData
       (with_username (client calloc_POP3DetectorData) (Some (bytes "alice"))))
    (with_sstate (server calloc_POP3DetectorData) POP3_STATE_RESPONSE).

(** A flow that has seen three responses. *)
Definition three_responses : POP3DetectorData :=
  with_server calloc_POP3DetectorData
    (with_count (with_sstate (server calloc_POP3DetectorData) POP3_STATE_RESPONSE) 3).

(** A flow inside a multi-line response. *)
Definition in_body : POP3DetectorData :=
  with_server calloc_POP3DetectorData
    (with_sstate (server calloc_POP3DetectorData) POP3_STATE_CONTINUE).

(** ** The server parser: what a call can change *)

(** The banner fields of the server data. *)
Definition same_banner (pd pd' : ServicePOP3Data) : Prop :=
  vendor pd' = vendor pd /\ version pd' = version pd /\ subtype pd' = subtype pd.

(** What a call of the server parser does to the client side of the flow
    data and to the session: nothing, or what [correlate] does once the
    [error] member is set from the status. *)
Definition client_side_effect (dd : POP3DetectorData) (asd : AppIdSession)
  (dd' : POP3DetectorData) (asd' : AppIdSession) : Prop :=
  (client dd' = client dd /\ need_continue dd' = need_continue dd /\ asd' = asd) \/
  exists ddR dd1,
    client ddR = client dd /\ need_continue ddR = need_continue dd /\
    correlate ddR asd = (dd1, asd') /\
    client dd' = client dd1 /\ need_continue dd' = need_continue dd1.

(** The response count after a call: as it was, or one more. *)
Definition count_step (pd pd' : ServicePOP3Data) : Prop :=
  count pd' = count pd \/ count pd' = ((count pd + 1) mod 2 ^ 32)%Z.

(** ** The server parser: reads, return codes, the greeting *)

(** The payloads on which the test [data[0] == '+' && data[1] == ' '] of
    the RESPONSE state reads past the payload. *)
Definition over_read (dd : POP3DetectorData) (buf : list Z) : Prop :=
  sstate (server dd) = POP3_STATE_RESPONSE /\ (buf = [] \/ buf = [chr "+"]).

(** ** The version copied out of the greeting *)

(** The bytes of a version token: not NUL and not the byte that ends it. *)
Definition token_bytes (stop : Z) (t : list Z) : Prop :=
  Forall (fun c => c <> NUL /\ c <> stop) t.

(** The version array is [MAX_VERSION_SIZE] bytes. *)
Definition version_array (pd : ServicePOP3Data) : Prop :=
  List.length (version pd) = MAX_VERSION_SIZE.

(** ** The service detector: verdicts and session flags *)

(** The calls by which a detector tells the framework its verdict on the
    service. *)
Definition is_verdict (c : call) : bool :=
  match c with
  | add_service_consume_subtype _ _ _ _ | fail_service | service_inprocess => true
  | _ => false
  end.

(** What a call made for a server payload may do to the session flags:
    CLIENT_GETS_SERVER_PACKETS is not set, SERVICE_DETECTED and CONTINUE are
    left alone, ENCRYPTED and CLIENT_DETECTED are not cleared. *)
Definition flags_after_server (fl fl' : session_flags) : Prop :=
  (client_gets_server_packets fl' = true -> client_gets_server_packets fl = true) /\
  service_detected fl' = service_detected fl /\
  continue_flag fl' = continue_flag fl /\
  (encrypted fl = true -> encrypted fl' = true) /\
  (client_detected fl = true -> client_detected fl' = true).

(** ** The vendor named in the greeting *)

(** [needle] occurs in the line [begin, line_end). *)
Definition names (buf : list Z) (begin line_end : nat) (needle : list Z) : bool :=
  match service_strstr buf begin (line_end - begin) needle with
  | Some _ => true
  | None => false
  end.

(** The vendor that the greeting line gives: the first of the four names,
    in the order of the tests, that occurs in the line. *)
Definition greeting_vendor (buf : list Z) (begin line_end : nat) (old : option (list Z))
  : option (list Z) :=
  if names buf begin line_end ven_cppop then Some ven_cppop
  else if names buf begin line_end ven_cc then Some ven_cc
  else if names buf begin line_end ven_im then Some ven_im
  else if names buf begin line_end ven_po then Some ven_po
  else old.

(** The version and subtype scans leave the vendor alone and only add to
    the subtype list. *)
Definition version_scan (pd pd' : ServicePOP3Data) : Prop :=
  vendor pd' = vendor pd /\ exists k, subtype pd' = k ++ subtype pd.

(** ** The client parser: what the loop can change *)

Definition pop3_found : call := add_app APP_ID_POP3 APP_ID_POP3 None.

(** What the turns of the [while] loop that go on to a next turn do, taken
    together, to the flow data and the session. *)
Definition client_progress (dd : POP3DetectorData) (asd : AppIdSession)
  (dd' : POP3DetectorData) (asd' : AppIdSession) : Prop :=
  server dd' = server dd /\ need_continue dd' = need_continue dd /\
  auth (client dd') = auth (client dd) /\
  set_flags (client dd') = set_flags (client dd) /\
  got_user (client dd') = got_user (client dd) /\
  username_kept_or_captured (username (client dd)) (username (client dd')) /\
  (state (client dd) = POP3_CLIENT_STATE_TRANS ->
   state (client dd') = POP3_CLIENT_STATE_TRANS /\
   username (client dd') = username (client dd)) /\
  (detected (client dd) = true -> detected (client dd') = true) /\
  flags asd' = flags asd /\ flow_data asd' = flow_data asd /\
  exists k, calls asd' = calls asd ++ repeat pop3_found k /\
            (0 < k -> detected (client dd') = true /\
                      state (client dd') = POP3_CLIENT_STATE_TRANS).

(** How the loop ends: the payload is used up (INPROCESS), or no command
    is found at the cursor (SUCCESS). *)
Definition client_loop_end (ddm : POP3DetectorData) (asdm : AppIdSession)
  (r : appid_status) (dd' : POP3DetectorData) (asd' : AppIdSession) : Prop :=
  (r = APPID_INPROCESS /\ dd' = ddm /\ asd' = asdm) \/
  (r = APPID_SUCCESS /\ dd' = with_need_continue ddm false /\
   asd' = set_session_flags APPID_SESSION_CLIENT_DETECTED asdm).

(** The flow data and the session with which the detector enters its
    direction switch: the flow data is made if there is none, and the
    first call asks for the server's packets. *)
Definition client_entry (a : AppIdSession) : POP3DetectorData * AppIdSession :=
  let '(dd, a) :=
    match flow_data a with
    | None => (calloc_POP3DetectorData, data_add calloc_POP3DetectorData a)
    | Some dd => (dd, a)
    end in
  if negb (set_flags (client dd)) then
    (with_client (with_need_continue dd true)
       (with_set_flags (client (with_need_continue dd true)) true),
     set_session_flags APPID_SESSION_CLIENT_GETS_SERVER_PACKETS a)
  else (dd, a).

(** ** Every call of a detector *)

(** A call of one of the two detectors on a session, with any payload and
    direction, that returns [r] and leaves the session [a']. *)
Inductive detector_call (a : AppIdSession) (r : appid_status) (a' : AppIdSession) : Prop :=
| client_call (eoc_past_end : bool) (payload : list Z) (d : direction) (n : nat) :
    Pop3ClientDetector_validate eoc_past_end {| data := payload; dir := d; asd := a |}
      = Ok (r, a') n ->
    detector_call a r a'
| service_call (payload : list Z) (d : direction) (n : nat) :
    Pop3ServiceDetector_validate {| data := payload; dir := d; asd := a |} = Ok (r, a') n ->
    detector_call a r a'.

(** How Pop3ServiceDetector::validate ends after the server parser has
    returned. *)
Inductive service_tail (dd : POP3DetectorData) (a : AppIdSession)
  : appid_status -> AppIdSession -> Prop :=
| tail_report :
    (POP3_COUNT_THRESHOLD <= count (server dd))%Z ->
    service_tail dd a APPID_SUCCESS
      (data_add (with_server dd (with_subtype (server dd) []))
         (bump_pop_flows (log (service_report dd) a)))
| tail_inprocess :
    service_tail dd a APPID_INPROCESS (log service_inprocess (data_add dd a))
| tail_fail :
    service_tail dd a APPID_NOMATCH (data_add dd (log fail_service a))
| tail_known :
    service_tail dd a APPID_SUCCESS
      (data_add dd (bump_pop_flows (clear_session_flags APPID_SESSION_CONTINUE a))).

(** The ways through the two detectors. *)
Inductive call_shape (a : AppIdSession) (r : appid_status) (a' : AppIdSession) : Prop :=
| shape_idle :
    a' = a -> r = APPID_INPROCESS -> call_shape a r a'
| shape_inprocess :
    a' = log service_inprocess a -> r = APPID_INPROCESS -> call_shape a r a'
| shape_client ddm asdm dd' asd1 :
    server ddm = server (flow_data_or_new a) ->
    client_progress (fst (client_entry a)) (snd (client_entry a)) ddm asdm ->
    client_loop_end ddm asdm r dd' asd1 ->
    a' = data_add dd' asd1 ->
    call_shape a r a'
| shape_client_server dd' asd1 (failed : bool) :
    count_step (server (flow_data_or_new a)) (server dd') ->
    client_side_effect (fst (client_entry a)) (snd (client_entry a)) dd' asd1 ->
    a' = data_add dd'
           (if failed
            then clear_session_flags APPID_SESSION_CLIENT_GETS_SERVER_PACKETS asd1
            else asd1) ->
    r = APPID_INPROCESS ->
    call_shape a r a'
| shape_service_known :
    a' = bump_pop_flows (snd (service_flow_data a)) -> r = APPID_SUCCESS ->
    call_shape a r a'
| shape_service dd' asd1 :
    count_step (server (flow_data_or_new a)) (server dd') ->
    client_side_effect (fst (service_flow_data a)) (snd (service_flow_data a)) dd' asd1 ->
    service_tail dd' asd1 r a' ->
    call_shape a r a'.

(** The flags that the detectors set and clear as packets pass. *)
Definition packet_flag (f : session_flag) : Prop :=
  f = APPID_SESSION_CLIENT_GETS_SERVER_PACKETS \/ f = APPID_SESSION_CONTINUE.

(** What a detector call does to the client side of the flow data and to
    [need_continue], with the calls it makes: a sequence of these steps. *)
Inductive flow_change
  : ClientPOP3Data -> bool -> ClientPOP3Data -> bool -> list call -> Prop :=
| fc_none fd nc : flow_change fd nc fd nc []
| fc_first fd nc :
    set_flags fd = false ->
    flow_change fd nc (with_set_flags fd true) true
      [set_session_flags_call APPID_SESSION_CLIENT_GETS_SERVER_PACKETS]
| fc_turns dd asd dd' asd' :
    client_progress dd asd dd' asd' ->
    flow_change (client dd) (need_continue dd) (client dd') (need_continue dd')
      (emitted asd asd')
| fc_no_command fd nc :
    flow_change fd nc fd false [set_session_flags_call APPID_SESSION_CLIENT_DETECTED]
| fc_status dd asd dd1 asd1 :
    correlate dd asd = (dd1, asd1) ->
    flow_change (client dd) (need_continue dd) (client dd1) (need_continue dd1)
      (correlate_calls dd)
| fc_set f fd nc :
    packet_flag f -> flow_change fd nc fd nc [set_session_flags_call f]
| fc_clear f fd nc :
    packet_flag f -> flow_change fd nc fd nc [clear_session_flags_call f]
| fc_report dd :
    flow_change (client dd) (need_continue dd) (client dd) (need_continue dd)
      [service_report dd]
| fc_fail fd nc : flow_change fd nc fd nc [fail_service]
| fc_inprocess fd nc : flow_change fd nc fd nc [service_inprocess]
| fc_then fd nc fd1 nc1 fd2 nc2 l1 l2 :
    flow_change fd nc fd1 nc1 l1 -> flow_change fd1 nc1 fd2 nc2 l2 ->
    flow_change fd nc fd2 nc2 (l1 ++ l2).

(** ** What holds over every call of a detector *)

(** The calls that mark a flow as POP3 over TLS. *)
Definition names_pop3s (c : call) : bool :=
  match c with
  | add_app APP_ID_POP3S _ _ | add_app _ APP_ID_POP3S _ => true
  | add_user _ APP_ID_POP3S _ => true
  | add_service_consume_subtype APP_ID_POP3S _ _ _ => true
  | set_session_flags_call APPID_SESSION_ENCRYPTED => true
  | _ => false
  end.

(** The user names that the capture loop can store: 1 to 247 bytes, each a
    letter, a digit or one of ".", "@", "-", "_". *)
Definition user_name_ok (u : list Z) : Prop :=
  0 < List.length u <= sizeof_username - 2 /\ allowed u.

Definition held_ok (fd : ClientPOP3Data) : Prop :=
  match username fd with
  | Some u => user_name_ok u
  | None => True
  end.

Definition add_user_ok (c : call) : Prop :=
  match c with
  | add_user u id success => user_name_ok u /\ id = APP_ID_POP3 /\ (success = 0 \/ success = 1)%Z
  | _ => True
  end.

(** The life of a flow: it starts without flow data and with no call made;
    the detectors are called on it, with any payloads in any directions and
    order; between the calls the framework may set and clear session
    flags. *)
Inductive flow_history : AppIdSession -> Prop :=
| history_new fl st :
    flow_history {| flags := fl; flow_data := None; calls := []; appid_stats := st |}
| history_call a r a' :
    flow_history a -> detector_call a r a' -> flow_history a'
| history_flags a fl :
    flow_history a ->
    flow_history {| flags := fl; flow_data := flow_data a; calls := calls a;
                    appid_stats := appid_stats a |}.

(** ** The calls of the client detector *)

(** The calls that Pop3ClientDetector::validate makes on a client payload:
    the request for the server's packets on the first call, [k] reports of
    POP3, and CLIENT_DETECTED when it returns SUCCESS. *)
Definition client_calls (first : bool) (k : nat) (r : appid_status) : list call :=
  (if first then [set_session_flags_call APPID_SESSION_CLIENT_GETS_SERVER_PACKETS] else [])
  ++ repeat pop3_found k
  ++ match r with
     | APPID_SUCCESS => [set_session_flags_call APPID_SESSION_CLIENT_DETECTED]
     | _ => []
     end.

(** ** Calls on concrete flows *)

(** A flow whose client is in TRANSACTION state and holds a user name. *)
Definition transaction_flow : POP3DetectorData :=
  with_server
    (with_client calloc_POP3DetectorData
       (with_set_flags
          (with_state (with_username (client calloc_POP3DetectorData) (Some (bytes "alice")))
             POP3_CLIENT_STATE_TRANS) true))
    (with_sstate (server calloc_POP3DetectorData) POP3_STATE_RESPONSE).

(** ** The command found at the cursor *)

(** A pattern of the table starts the text. *)
Definition starts_with (text : list Z) (cmd : AppIdFlowContentPattern) : Prop :=
  pattern cmd = firstn (length cmd) text.

(** The commands of the TRANSACTION state: the entries of the table after
    the comment "These are represented by index >= PATTERN_POP3_OTHER". *)
Definition transaction_commands : list AppIdFlowContentPattern :=
  skipn 10 pop3_client_patterns.

(** One of two byte strings starts the other. *)
Definition compatible (p q : list Z) : bool :=
  let n := Nat.min (List.length p) (List.length q) in
  bytes_eqb (firstn n p) (firstn n q).

(** ** The response count over the life of a flow *)

(** A call of one of the two detectors with a payload of direction [d]. *)
Inductive packet_call (d : direction) (a : AppIdSession) (r : appid_status)
  (a' : AppIdSession) : Prop :=
| client_packet_call (eoc_past_end : bool) (payload : list Z) (n : nat) :
    Pop3ClientDetector_validate eoc_past_end {| data := payload; dir := d; asd := a |}
      = Ok (r, a') n ->
    packet_call d a r a'
| service_packet_call (payload : list Z) (n : nat) :
    Pop3ServiceDetector_validate {| data := payload; dir := d; asd := a |} = Ok (r, a') n ->
    packet_call d a r a'.

(** The life of a flow, with the number of detector calls made on it with
    a server payload; between the calls the framework may set and clear
    session flags. *)
Inductive flow_history_n : nat -> AppIdSession -> Prop :=
| hn_new fl st :
    flow_history_n 0 {| flags := fl; flow_data := None; calls := []; appid_stats := st |}
| hn_client_packet k a r a' :
    flow_history_n k a -> packet_call APP_ID_FROM_INITIATOR a r a' -> flow_history_n k a'
| hn_server_packet k a r a' :
    flow_history_n k a -> packet_call APP_ID_FROM_RESPONDER a r a' ->
    flow_history_n (S k) a'
| hn_flags k a fl :
    flow_history_n k a ->
    flow_history_n k {| flags := fl; flow_data := flow_data a; calls := calls a;
                        appid_stats := appid_stats a |}.

(** * Properties *)

(** ** Reasoning about runs *)

Arguments wp : simpl never.
Arguments ret : simpl never.
Arguments bind : simpl never.
Arguments load : simpl never.

Lemma wp_ret {A} (a : A) (Q : A -> nat -> Prop) : Q a 0 -> wp (ret a) Q.
Proof. exact (fun H => H). Qed.

Lemma wp_bind {A B} (m : outcome A) (f : A -> outcome B) (Q : B -> nat -> Prop) :
  wp m (fun a n => wp (f a) (fun b k => Q b (n + k))) -> wp (bind m f) Q.
Proof.
  unfold wp, bind. destruct m as [a n| |]; try contradiction.
  destruct (f a); auto.
Qed.

Lemma wp_mono {A} (m : outcome A) (Q Q' : A -> nat -> Prop) :
  wp m Q -> (forall a n, Q a n -> Q' a n) -> wp m Q'.
Proof. unfold wp. destruct m; auto. Qed.

Lemma wp_ok {A} (m : outcome A) (Q : A -> nat -> Prop) :
  wp m Q <-> exists a n, m = Ok a n /\ Q a n.
Proof.
  split.
  - unfold wp. destruct m as [a n| |]; try contradiction. eauto.
  - intros (a & n & -> & H). exact H.
Qed.

Lemma wp_conj {A} (m : outcome A) (Q Q' : A -> nat -> Prop) :
  wp m Q -> wp m Q' -> wp m (fun a n => Q a n /\ Q' a n).
Proof. unfold wp. destruct m; auto. Qed.

Lemma wp_bind_inv {A B} (m : outcome A) (f : A -> outcome B) (b : B) (k : nat) :
  bind m f = Ok b k ->
  exists a n1 n2, m = Ok a n1 /\ f a = Ok b n2 /\ k = n1 + n2.
Proof.
  unfold bind. destruct m as [a n| |]; try discriminate.
  destruct (f a) as [b' k'| |] eqn:E; try discriminate.
  intros H; inversion H; subst. eauto 6.
Qed.

Lemma load_wp buf p (Q : Z -> nat -> Prop) :
  (forall c, nth_error buf p = Some c -> Q c 1) -> p < List.length buf -> wp (load buf p) Q.
Proof.
  intros HQ Hp. unfold load.
  destruct (nth_error buf p) eqn:E.
  - unfold wp. auto.
  - apply nth_error_None in E. lia.
Qed.

Lemma load_n_wp buf p k (Q : list Z -> nat -> Prop) :
  Q (sub buf p k) k -> p + k <= List.length buf -> wp (load_n buf p k) Q.
Proof.
  intros HQ Hp. unfold load_n.
  destruct (Nat.leb_spec (p + k) (List.length buf)); [exact HQ | lia].
Qed.

Lemma scan_from_wp P buf dist : forall s,
  s + dist <= List.length buf ->
  wp (scan_from P buf dist s)
     (fun s' n => s <= s' <= s + dist /\ n <= S (s' - s) /\
                  (forall i, s <= i < s' -> byte_at buf i P) /\
                  (s' < s + dist -> byte_at buf s' (fun c => negb (P c)))).
Proof.
  induction dist as [|d IH]; intros s Hs; simpl.
  - apply wp_ret. split; [lia|]. split; [lia|]. split; intros; lia.
  - apply wp_bind. apply load_wp; [|lia]. intros c Hc.
    destruct (P c) eqn:EP.
    + eapply wp_mono; [apply (IH (S s)); lia|].
      intros s' n (H1 & H2 & H3 & H4). split; [lia|]. split; [lia|]. split.
      * intros i Hi. destruct (Nat.eq_dec i s) as [->|Hne].
        -- exists c; auto.
        -- apply H3; lia.
      * intros Hlt. apply H4; lia.
    + apply wp_ret. split; [lia|]. split; [lia|]. split.
      * intros; lia.
      * intros _. exists c. rewrite EP. auto.
Qed.

Lemma scan_while_wp P buf lim s :
  lim <= List.length buf ->
  wp (scan_while P buf lim s)
     (fun s' n => s <= s' /\ (s <= lim -> s' <= lim) /\ n <= S (s' - s) /\
                  (forall i, s <= i < s' -> byte_at buf i P) /\
                  (s' < lim -> byte_at buf s' (fun c => negb (P c)))).
Proof.
  intros Hl. unfold scan_while.
  destruct (Nat.le_gt_cases s lim) as [Hle|Hgt].
  - eapply wp_mono; [apply scan_from_wp; lia|].
    intros s' n (H1 & H2 & H3 & H4).
    split; [lia|]. split; [lia|]. split; [lia|]. split; [exact H3|].
    intros Hlt. apply H4. lia.
  - replace (lim - s) with 0 by lia. simpl. apply wp_ret.
    split; [lia|]. split; [lia|]. split; [lia|]. split; intros; lia.
Qed.

(** ** The line scanner *)

Lemma printable_run_cons buf data b :
  byte_at buf data isprint -> printable_run buf (S data) b -> printable_run buf data b.
Proof.
  intros H0 H i Hi. destruct (Nat.eq_dec i data) as [->|Hne]; [exact H0|].
  apply H. lia.
Qed.

Lemma line_result_cons buf data e r d :
  byte_at buf data isprint ->
  line_result buf (S data) e r d -> line_result buf data e r d.
Proof.
  intros H0 H. destruct H as [k H1 H2 H3 H4 | H1 | k H1 H2 H3 H4 | k H1 H2 H3].
  - replace (S data + k + 2) with (data + S k + 2) by lia.
    apply line_terminated; try lia.
    + apply printable_run_cons; auto. replace (data + S k) with (S data + k) by lia. auto.
    + replace (data + S k) with (S data + k) by lia. auto.
    + replace (data + S k + 1) with (S data + k + 1) by lia. auto.
  - apply line_incomplete. apply printable_run_cons; auto.
  - replace (S data + k + 1) with (data + S k + 1) by lia.
    apply line_malformed_cr; try lia.
    + apply printable_run_cons; auto. replace (data + S k) with (S data + k) by lia. auto.
    + replace (data + S k) with (S data + k) by lia. auto.
    + replace (data + S k + 1) with (S data + k + 1) by lia. auto.
  - replace (S data + k) with (data + S k) by lia.
    apply line_malformed_byte; try lia.
    + apply printable_run_cons; auto. replace (data + S k) with (S data + k) by lia. auto.
    + replace (data + S k) with (S data + k) by lia. auto.
Qed.

Lemma check_line_from_wp buf e dist : forall data,
  data + dist = e -> e <= List.length buf ->
  wp (check_line_from buf e dist data)
     (fun rd n => line_result buf data e (fst rd) (snd rd) /\ n <= S (snd rd - data)).
Proof.
  induction dist as [|d IH]; intros data Hd He; simpl.
  - apply wp_ret. cbn [fst snd]. split; [|lia].
    replace data with e by lia. apply line_incomplete. intros i Hi; lia.
  - apply wp_bind. apply load_wp; [|lia]. intros c Hc.
    destruct (Z.eqb_spec c 13) as [->|Hcr].
    + destruct (Nat.ltb_spec (S data) e) as [Hlt|Hge].
      * apply wp_bind. apply load_wp; [|lia]. intros c' Hc'.
        destruct (Z.eqb_spec c' 10) as [->|Hlf]; apply wp_ret; cbn [fst snd]; (split; [|lia]).
        -- replace (S (S data)) with (data + 0 + 2) by lia.
           apply line_terminated; try lia.
           ++ intros i Hi; lia.
           ++ rewrite Nat.add_0_r. exact Hc.
           ++ replace (data + 0 + 1) with (S data) by lia. exact Hc'.
        -- replace (S data) with (data + 0 + 1) by lia.
           apply line_malformed_cr; try lia.
           ++ intros i Hi; lia.
           ++ rewrite Nat.add_0_r. exact Hc.
           ++ intros _. exists c'. replace (data + 0 + 1) with (S data) by lia.
              split; auto. apply negb_true_iff. apply Z.eqb_neq. exact Hlf.
      * apply wp_ret; cbn [fst snd]. split; [|lia].
        replace (S data) with (data + 0 + 1) by lia.
        apply line_malformed_cr; try lia.
        -- intros i Hi; lia.
        -- rewrite Nat.add_0_r. exact Hc.
    + destruct (isprint c) eqn:Ep; simpl.
      * eapply wp_mono; [apply (IH (S data)); lia|].
        intros [r d'] n [H1 H2]; cbn [fst snd] in *. split.
        -- apply line_result_cons; auto. exists c; auto.
        -- assert (S data <= d').
           { inversion H1; lia. }
           lia.
      * apply wp_ret; cbn [fst snd]. split; [|lia].
        replace data with (data + 0) at 2 by lia.
        apply line_malformed_byte; try lia.
        -- intros i Hi; lia.
        -- exists c. rewrite Nat.add_0_r. split; auto.
           rewrite Ep. apply andb_true_iff. split; auto.
           apply negb_true_iff. apply Z.eqb_neq. exact Hcr.
Qed.

Lemma pop3_check_line_wp buf data e :
  data <= e -> e <= List.length buf ->
  wp (pop3_check_line buf data e)
     (fun rd n => line_result buf data e (fst rd) (snd rd) /\ n <= S (snd rd - data)).
Proof.
  intros. unfold pop3_check_line. apply check_line_from_wp; lia.
Qed.

Lemma byte_at_fun buf i P Q :
  byte_at buf i P -> byte_at buf i Q -> exists c, nth_error buf i = Some c /\ P c = true /\ Q c = true.
Proof.
  intros (c & H1 & H2) (c' & H3 & H4). rewrite H1 in H3. inversion H3; subst. eauto.
Qed.

Lemma printable_not_cr buf i : byte_at buf i isprint -> nth_error buf i = Some CR -> False.
Proof.
  intros (c & H1 & H2) H. rewrite H in H1. inversion H1; subst. discriminate.
Qed.

Lemma printable_not_bad buf i :
  byte_at buf i isprint ->
  byte_at buf i (fun c => negb (Z.eqb c CR) && negb (isprint c)) -> False.
Proof.
  intros H1 H2. destruct (byte_at_fun _ _ _ _ H1 H2) as (c & _ & Hp & Hn).
  rewrite Hp in Hn. rewrite andb_false_r in Hn. discriminate.
Qed.

Lemma cr_not_bad buf i :
  nth_error buf i = Some CR ->
  byte_at buf i (fun c => negb (Z.eqb c CR) && negb (isprint c)) -> False.
Proof.
  intros H (c & H1 & H2). rewrite H in H1. inversion H1; subst. discriminate.
Qed.

Lemma lf_not_lf buf i :
  nth_error buf i = Some LF -> byte_at buf i (fun c => negb (Z.eqb c LF)) -> False.
Proof.
  intros H (c & H1 & H2). rewrite H in H1. inversion H1; subst. discriminate.
Qed.

(** The position of the first byte that is not printable is determined. *)
Ltac first_stop :=
  match goal with
  | Hr : printable_run ?buf ?a (?a + ?k), Hc : nth_error ?buf (?a + ?k') = Some CR |- _ =>
      assert (k' < k) by lia;
      exfalso; apply (printable_not_cr buf (a + k')); [apply Hr; lia | exact Hc]
  | Hr : printable_run ?buf ?a (?a + ?k),
    Hc : byte_at ?buf (?a + ?k') (fun c => negb (Z.eqb c CR) && negb (isprint c)) |- _ =>
      assert (k' < k) by lia;
      exfalso; apply (printable_not_bad buf (a + k')); [apply Hr; lia | exact Hc]
  | Hr : printable_run ?buf ?a ?e, Hc : nth_error ?buf (?a + ?k') = Some CR |- _ =>
      assert (a + k' < e) by lia;
      exfalso; apply (printable_not_cr buf (a + k')); [apply Hr; lia | exact Hc]
  | Hr : printable_run ?buf ?a ?e,
    Hc : byte_at ?buf (?a + ?k') (fun c => negb (Z.eqb c CR) && negb (isprint c)) |- _ =>
      assert (a + k' < e) by lia;
      exfalso; apply (printable_not_bad buf (a + k')); [apply Hr; lia | exact Hc]
  end.

Lemma line_result_fun buf data e r d r' d' :
  line_result buf data e r d -> line_result buf data e r' d' -> r = r' /\ d = d'.
Proof.
  intros H H'.
  destruct H as [k H1 H2 H3 H4 | H1 | k H1 H2 H3 H4 | k H1 H2 H3];
  destruct H' as [k' G1 G2 G3 G4 | G1 | k' G1 G2 G3 G4 | k' G1 G2 G3];
  try (split; [reflexivity|]); try reflexivity.
  all: try (destruct (Nat.lt_trichotomy k k') as [Hlt|[Heq|Hgt]];
            [ try first_stop | subst k' | try first_stop ]).
  all: try lia.
  all: try first_stop.
  all: try (exfalso; eapply lf_not_lf; [eassumption | apply G4 || apply H4; lia]).
  all: try (exfalso; eapply cr_not_bad; eassumption).
Qed.

(** ** The greeting scan reads inside the line and leaves the response state alone *)

Lemma bytes_eqb_eq a : forall b, bytes_eqb a b = true -> a = b.
Proof.
  induction a as [|x a IH]; intros [|y b]; simpl; try discriminate; auto.
  intros H. apply andb_true_iff in H. destruct H as [H1 H2].
  apply Z.eqb_eq in H1. subst. f_equal. auto.
Qed.

Lemma bytes_eqb_refl a : bytes_eqb a a = true.
Proof. induction a; simpl; auto. rewrite Z.eqb_refl. auto. Qed.

Lemma sub_length buf pos n : List.length (sub buf pos n) = Nat.min n (List.length buf - pos).
Proof. unfold sub. rewrite length_firstn, length_skipn. reflexivity. Qed.

Lemma service_strstr_bounds buf haystack len needle p :
  needle <> [] ->
  service_strstr buf haystack len needle = Some p ->
  haystack <= p /\ p + List.length needle <= haystack + len /\
  p + List.length needle <= List.length buf.
Proof.
  intros Hn. unfold service_strstr.
  destruct (find _ _) as [i|] eqn:E; [|discriminate].
  intros H; inversion H; subst; clear H.
  apply find_some in E. destruct E as [_ E].
  apply bytes_eqb_eq in E.
  assert (L : List.length needle = List.length (sub (sub buf haystack len) i (List.length needle)))
    by (rewrite <- E; reflexivity).
  rewrite !sub_length in L.
  assert (0 < List.length needle) by (destruct needle; simpl; [congruence|lia]).
  lia.
Qed.

Lemma same_progress_refl pd : same_progress pd pd.
Proof. repeat split. Qed.

Lemma same_progress_trans a b c : same_progress a b -> same_progress b c -> same_progress a c.
Proof. unfold same_progress. intuition congruence. Qed.

#[local] Hint Resolve same_progress_refl : core.

Lemma has_at_wp buf p lim lit :
  lit <> [] -> lim <= List.length buf ->
  wp (has_at buf p lim lit) (fun m _ => m = true -> p + List.length lit <= lim).
Proof.
  intros Hn Hl. unfold has_at.
  assert (0 < List.length lit) by (destruct lit; simpl; [congruence|lia]).
  destruct (Nat.leb_spec (List.length lit) (lim - p)).
  - apply wp_bind. apply load_n_wp; [|lia]. apply wp_ret. lia.
  - apply wp_ret. discriminate.
Qed.

Lemma nonzero_at_wp buf p lim :
  lim <= List.length buf ->
  wp (nonzero_at buf p lim) (fun nz _ => nz = true -> p < lim).
Proof.
  intros Hl. unfold nonzero_at.
  destruct (Nat.ltb_spec p lim).
  - apply wp_bind. apply load_wp; [|lia]. intros c _. apply wp_ret. auto.
  - apply wp_ret. discriminate.
Qed.

Lemma scan_token_wp buf p line_end :
  line_end <= List.length buf ->
  wp (scan_token buf p line_end) (fun p' _ => p <= p' /\ (p <= line_end -> p' <= line_end)).
Proof.
  intros Hl. unfold scan_token.
  eapply wp_mono; [apply scan_while_wp; exact Hl|].
  intros p' n (H1 & H2 & _). auto.
Qed.

Lemma copy_until_wp stop buf dist : forall p ver v,
  dist = 0 \/ p + dist <= List.length buf ->
  wp (copy_until stop buf dist p ver v) (fun r _ => p <= fst (fst r) <= p + dist).
Proof.
  induction dist as [|d IH]; intros p ver v Hp; simpl.
  - apply wp_ret. simpl. lia.
  - apply wp_bind. apply load_wp; [|lia]. intros c _.
    destruct (negb (Z.eqb c NUL) && negb (Z.eqb c stop)).
    + destruct (v <? v_end);
        (eapply wp_mono; [apply IH; lia|]; intros [[p' ?] ?] ?; cbn [fst]; lia).
    + apply wp_ret. cbn [fst]. lia.
Qed.

Lemma copy_version_wp stop buf p line_end pd :
  line_end <= List.length buf ->
  wp (copy_version stop buf p line_end pd) (fun pd' _ => same_progress pd pd').
Proof.
  intros Hl. unfold copy_version.
  apply wp_bind. eapply wp_mono; [apply copy_until_wp; lia|].
  intros [[p' ver] v] n _.
  apply wp_bind. eapply wp_mono; [apply nonzero_at_wp; exact Hl|].
  intros nz k _. apply wp_ret. repeat split.
Qed.

Lemma copy_range_wp buf dist : forall ver vbuf v,
  dist = 0 \/ ver + dist <= List.length buf ->
  wp (copy_range buf dist ver vbuf v) (fun _ _ => True).
Proof.
  induction dist as [|d IH]; intros ver vbuf v Hp; simpl.
  - apply wp_ret. exact I.
  - apply wp_bind. apply load_wp; [|lia]. intros c _.
    destruct (negb (Z.eqb c NUL)); [|apply wp_ret; exact I].
    destruct (v <? v_end); [|apply wp_ret; exact I].
    apply IH. lia.
Qed.

Lemma set_version_wp buf ver p pd :
  p <= List.length buf ->
  wp (set_version buf ver p pd) (fun pd' _ => same_progress pd pd').
Proof.
  intros Hl. unfold set_version.
  apply wp_bind. eapply wp_mono; [apply copy_range_wp; lia|].
  intros [vbuf v] n _. apply wp_ret. repeat split.
Qed.

Ltac literal_nonempty := cbv; discriminate.

Lemma post_office_wp buf p line_end pd :
  line_end <= List.length buf ->
  wp (post_office buf p line_end pd) (fun pd' _ => same_progress pd pd').
Proof.
  intros Hl. unfold post_office.
  apply wp_bind. eapply wp_mono; [apply has_at_wp; [literal_nonempty|exact Hl]|].
  intros m n Hm. destruct m; cbn [negb]; [|apply wp_ret; auto].
  specialize (Hm eq_refl).
  apply wp_bind. eapply wp_mono; [apply scan_token_wp; exact Hl|].
  intros p1 n1 [Hp1 Hp1'].
  apply wp_bind.
  assert (Hstop : wp (if p1 =? p + (sizeof ven_po - 1) + (sizeof ver_po - 1) then ret true
                      else nz <- nonzero_at buf p1 line_end;; ret (negb nz))
                     (fun stop _ => stop = false -> p1 < line_end)).
  { destruct (p1 =? _); [apply wp_ret; discriminate|].
    apply wp_bind. eapply wp_mono; [apply nonzero_at_wp; exact Hl|].
    intros nz k Hnz. apply wp_ret. destruct nz; [auto|discriminate]. }
  eapply wp_mono; [exact Hstop|]. clear Hstop.
  intros stop n2 Hs. destruct stop; [apply wp_ret; auto|]. specialize (Hs eq_refl).
  apply wp_bind. eapply wp_mono; [apply has_at_wp; [literal_nonempty|exact Hl]|].
  intros m n3 Hm3. destruct m; cbn [negb]; [|apply set_version_wp; lia].
  specialize (Hm3 eq_refl).
  apply wp_bind. eapply wp_mono; [apply scan_token_wp; exact Hl|].
  intros p2 n4 [Hp2 Hp2'].
  apply wp_bind.
  assert (Hstop : wp (if negb (p2 <? line_end) || (p2 =? p1 + (sizeof ver_po2 - 1)) then ret true
                      else c <- load buf p2;; ret (Z.eqb c NUL))
                     (fun stop _ => stop = false -> p2 < line_end)).
  { destruct (Nat.ltb_spec p2 line_end); cbn [negb orb]; [|apply wp_ret; discriminate].
    destruct (p2 =? _); [apply wp_ret; discriminate|].
    apply wp_bind. apply load_wp; [|lia]. intros c _. apply wp_ret. auto. }
  eapply wp_mono; [exact Hstop|]. clear Hstop.
  intros stop n5 Hs5. destruct stop; [apply set_version_wp; lia|]. specialize (Hs5 eq_refl).
  apply wp_bind. eapply wp_mono; [apply set_version_wp; lia|].
  intros pd1 n6 Hpd1.
  apply wp_bind. eapply wp_mono; [apply has_at_wp; [literal_nonempty|exact Hl]|].
  intros m n7 Hm7. destruct m; cbn [negb]; [|apply wp_ret; auto].
  specialize (Hm7 eq_refl).
  apply wp_bind. eapply wp_mono; [apply scan_token_wp; exact Hl|].
  intros p3 n8 [Hp3 Hp3'].
  apply wp_bind.
  assert (Hstop : wp (if p3 =? p2 + (sizeof sub_po - 1) then ret true
                      else nz <- nonzero_at buf p3 line_end;; ret (negb nz))
                     (fun stop _ => stop = false -> p3 < line_end)).
  { destruct (p3 =? _); [apply wp_ret; discriminate|].
    apply wp_bind. eapply wp_mono; [apply nonzero_at_wp; exact Hl|].
    intros nz k Hnz. apply wp_ret. destruct nz; [auto|discriminate]. }
  eapply wp_mono; [exact Hstop|]. clear Hstop.
  intros stop n9 Hs9. destruct stop; [apply wp_ret; auto|]. specialize (Hs9 eq_refl).
  apply wp_bind. apply load_n_wp; [|lia].
  apply wp_bind.
  assert (Hsv : wp (if List.length subver_po <? line_end - p3
                   then w <- load_n buf p3 (List.length subver_po);; ret (bytes_eqb w subver_po)
                   else ret false) (fun _ _ => True)).
  { destruct (Nat.ltb_spec (List.length subver_po) (line_end - p3)); [|apply wp_ret; exact I].
    apply wp_bind. apply load_n_wp; [|lia]. apply wp_ret. exact I. }
  eapply wp_mono; [exact Hsv|]. clear Hsv.
  intros m n10 _.
  destruct m; [|apply wp_ret; destruct Hpd1 as (?&?&?); repeat split; auto].
  apply wp_bind. eapply wp_mono; [apply scan_token_wp; exact Hl|].
  intros p4 n11 [Hp4 Hp4'].
  apply wp_bind.
  assert (Hok : wp (if negb (p4 =? p3 + (sizeof subver_po - 1))
                    then nonzero_at buf p4 line_end else ret false)
                   (fun ok _ => ok = true -> p4 < line_end)).
  { destruct (negb _); [apply nonzero_at_wp; exact Hl|apply wp_ret; discriminate]. }
  eapply wp_mono; [exact Hok|]. clear Hok.
  intros ok n12 Hok.
  destruct ok; [|apply wp_ret; destruct Hpd1 as (?&?&?); repeat split; auto].
  specialize (Hok eq_refl).
  apply wp_bind. apply load_n_wp; [|lia].
  apply wp_ret; destruct Hpd1 as (?&?&?); repeat split; auto.
Qed.

Lemma scan_greeting_wp buf begin line_end pd :
  line_end < List.length buf ->
  wp (scan_greeting buf begin line_end pd) (fun pd' _ => same_progress pd pd').
Proof.
  intros Hl. unfold scan_greeting.
  destruct (service_strstr buf begin (line_end - begin) ven_cppop) as [p|] eqn:E1.
  { apply service_strstr_bounds in E1; [|literal_nonempty].
    apply wp_bind. apply load_wp.
    - intros c _. destruct (is_chr c " "); [|apply wp_ret; repeat split].
      eapply wp_mono; [apply copy_version_wp; lia|].
      intros pd' n H. exact H.
    - change (sizeof ven_cppop - 1) with (List.length ven_cppop).
      assert (0 < List.length ven_cppop) by (cbv; lia).
      destruct (Nat.le_gt_cases begin line_end); lia. }
  destruct (service_strstr buf begin (line_end - begin) ven_cc) as [p|] eqn:E2.
  { apply wp_bind. eapply wp_mono; [apply has_at_wp; [literal_nonempty|lia]|].
    intros m n _. destruct m; [|apply wp_ret; repeat split].
    eapply wp_mono; [apply copy_version_wp; lia|].
    intros pd' k H. exact H. }
  destruct (service_strstr buf begin (line_end - begin) ven_im) as [p|] eqn:E3.
  { apply wp_ret. repeat split. }
  destruct (service_strstr buf begin (line_end - begin) ven_po) as [p|] eqn:E4.
  { eapply wp_mono; [apply post_office_wp; lia|].
    intros pd' k H. exact H. }
  apply wp_ret. auto.
Qed.

(** ** What one call of the server parser does *)

Lemma line_result_progress buf data e r d :
  line_result buf data e r d -> data < e -> (0 <= r)%Z -> data < d <= e.
Proof.
  intros H Hlt Hr. destruct H; try lia.
Qed.

Lemma continue_loop_wp buf : forall fuel data pd,
  data <= List.length buf -> List.length buf - data <= fuel ->
  wp (continue_loop fuel buf (List.length buf) data pd)
     (fun rp _ => continue_outcome buf data pd (fst rp) (snd rp)).
Proof.
  induction fuel as [|fuel IH]; intros data pd Hd Hf.
  - simpl. destruct (Nat.ltb_spec data (List.length buf)); [lia|].
    apply wp_ret. apply cont_open. auto.
  - simpl. destruct (Nat.ltb_spec data (List.length buf)) as [Hlt|Hge];
      [|apply wp_ret; apply cont_open; auto].
    apply wp_bind.
    assert (Ht : wp (if List.length buf - data =? sizeof POP3_TERM - 1
                     then w <- load_n buf data (sizeof POP3_TERM - 1);; ret (bytes_eqb w POP3_TERM)
                     else ret false)
                    (fun t _ => t = true -> data + 3 = List.length buf /\ sub buf data 3 = POP3_TERM)).
    { destruct (Nat.eqb_spec (List.length buf - data) (sizeof POP3_TERM - 1)) as [E|E].
      - change (sizeof POP3_TERM - 1) with 3 in *.
        apply wp_bind. apply load_n_wp; [|lia]. apply wp_ret.
        intros H. apply bytes_eqb_eq in H. split; [lia|exact H].
      - apply wp_ret. discriminate. }
    eapply wp_mono; [exact Ht|]. clear Ht.
    intros t n Ht. destruct t.
    + destruct (Ht eq_refl) as [H1 H2]. apply wp_ret. cbn [fst snd].
      apply cont_term with (d := data); auto. apply whole_lines_nil.
    + apply wp_bind. eapply wp_mono; [apply pop3_check_line_wp; lia|].
      intros [r d] k [Hr _]. cbn [fst snd] in Hr.
      destruct (Z.ltb_spec r 0) as [Hneg|Hpos].
      * apply wp_ret. cbn [fst snd]. apply cont_open. right. inversion Hr; subst; lia.
      * pose proof (line_result_progress _ _ _ _ _ Hr Hlt Hpos) as Hp.
        eapply wp_mono; [apply IH; lia|].
        intros [r' pd'] k' Hc. cbn [fst snd] in *.
        destruct Hc as [r' Hc | d' Hw Hd3 Hs].
        -- apply cont_open. exact Hc.
        -- apply cont_term with (d := d'); auto.
           destruct Hr as [j H1 H2 H3 H4 | H1 | j H1 H2 H3 H4 | j H1 H2 H3]; try lia.
           ++ eapply whole_lines_cons; [|exact Hw].
              apply line_terminated; auto.
           ++ (* an incomplete line ends the payload *)
              inversion Hw; subst; try lia.
              match goal with H : line_result _ _ _ _ _ |- _ => inversion H; lia end.
Qed.

Lemma response_case_wp dd buf asd server_arg begin :
  2 <= List.length buf ->
  wp (response_case dd buf asd server_arg begin)
     (fun x _ => response_outcome dd buf asd server_arg begin
                   (fst (fst x)) (snd (fst x)) (snd x)).
Proof.
  intros Hlen. unfold response_case.
  cbn [Nat.add].
  apply wp_bind.
  assert (Hs : wp (match begin with
                   | Some _ => ret false
                   | None => c0 <- load buf 0;;
                             (if is_chr c0 "+" then c1 <- load buf 1;; ret (is_chr c1 " ")
                              else ret false)
                   end)
                  (fun sasl _ => sasl = true ->
                     begin = None /\ byte_at buf 0 (fun c => is_chr c "+") /\
                     byte_at buf 1 (fun c => is_chr c " "))).
  { destruct begin; [apply wp_ret; discriminate|].
    apply wp_bind. apply load_wp; [|lia]. intros c0 Hc0.
    destruct (is_chr c0 "+") eqn:E0; [|apply wp_ret; discriminate].
    apply wp_bind. apply load_wp; [|lia]. intros c1 Hc1. apply wp_ret.
    intros E1. split; [reflexivity|]. split; [exists c0|exists c1]; auto. }
  eapply wp_mono; [exact Hs|]. clear Hs. intros sasl n Hsasl.
  destruct sasl.
  { destruct (Hsasl eq_refl) as (Hb & H0 & H1).
    apply wp_bind. eapply wp_mono; [apply pop3_check_line_wp; lia|].
    intros [r d] k _.
    destruct (negb (Z.eqb r 0)); [apply wp_ret; cbn [fst snd]; apply resp_sasl; auto|].
    destruct (negb (d =? List.length buf)); apply wp_ret; cbn [fst snd]; apply resp_sasl; auto. }
  destruct (Nat.ltb_spec (List.length buf) (sizeof POP3_ERR)) as [Hsmall|Hbig].
  { apply wp_ret; cbn [fst snd]; apply resp_short; exact Hsmall. }
  change (sizeof POP3_ERR) with 5 in Hbig.
  apply wp_bind. apply load_n_wp; [|cbn; lia].
  apply wp_bind.
  assert (Hst : wp (if bytes_eqb (sub buf 0 (sizeof POP3_OK - 1)) POP3_OK
                    then ret (Some (false, begin, sizeof POP3_OK - 1))
                    else w4 <- load_n buf 0 (sizeof POP3_ERR - 1);;
                         (if bytes_eqb w4 POP3_ERR
                          then ret (Some (true, None, sizeof POP3_ERR - 1))
                          else ret None))
                   (fun st _ => match st with
                                | None => status_of buf = None
                                | Some (err, b, skip) =>
                                    status_of buf = Some err /\ skip = (if err then 4 else 3) /\
                                    b = (if err then None else begin)
                                end)).
  { unfold status_of. change (sizeof POP3_OK - 1) with 3. change (sizeof POP3_ERR - 1) with 4.
    destruct (bytes_eqb (sub buf 0 3) POP3_OK); [apply wp_ret; repeat split; reflexivity|].
    apply wp_bind. apply load_n_wp; [|lia].
    destruct (bytes_eqb (sub buf 0 4) POP3_ERR); apply wp_ret;
      [repeat split; reflexivity|reflexivity]. }
  eapply wp_mono; [exact Hst|]. clear Hst. intros st k Hst.
  destruct st as [[[err b] skip]|];
    [|apply wp_ret; cbn [fst snd]; apply resp_unknown; exact Hst].
  destruct Hst as (Hst & -> & Hb).
  apply wp_bind. eapply wp_mono; [apply pop3_check_line_wp; destruct err; lia|].
  intros [rl d] k1 [Hl _]. cbn [fst snd Nat.add] in *.
  destruct (Z.ltb_spec rl 0) as [Hneg|Hpos].
  { apply wp_ret; cbn [fst snd]. eapply resp_malformed; eauto. }
  destruct (correlate (with_server dd (with_error (server dd) err)) asd) as [dd1 asd1] eqn:Ec.
  assert (Hd : (if err then 4 else 3) < d <= List.length buf).
  { eapply line_result_progress; eauto. destruct err; lia. }
  apply wp_bind.
  assert (Hg : wp (match b with
                   | Some begin0 =>
                       if server_arg then scan_greeting buf begin0 (d - 1) (server dd1)
                       else ret (server dd1)
                   | None => ret (server dd1)
                   end)
                  (fun pd1 _ => same_progress (server dd1) pd1 /\
                     (server_arg = false \/ begin = None \/ err = true -> pd1 = server dd1))).
  { destruct b as [b0|].
    - destruct server_arg.
      + eapply wp_mono; [apply scan_greeting_wp; destruct err; lia|].
        intros pd1 k2 Hp. split; [exact Hp|].
        intros [H|[H|H]];
          [discriminate | rewrite H in Hb; destruct err; discriminate
          | rewrite H in Hb; discriminate].
      + apply wp_ret. split; [apply same_progress_refl|reflexivity].
    - apply wp_ret. split; [apply same_progress_refl|reflexivity]. }
  eapply wp_mono; [exact Hg|]. clear Hg. intros pd1 k2 [Hpd1 Hpd1'].
  destruct (Nat.leb_spec (List.length buf) d) as [Hend|Hmore].
  { apply wp_ret. cbn [fst snd].
    apply (resp_status dd buf asd server_arg begin err rl d dd1 asd1 pd1); auto.
    apply single_line. exact Hend. }
  apply wp_bind. eapply wp_mono; [apply continue_loop_wp; lia|].
  intros [r pd'] k3 Hc. cbn [fst snd] in Hc. apply wp_ret. cbn [fst snd].
  apply (resp_status dd buf asd server_arg begin err rl d dd1 asd1 pd1); auto.
  apply multi_line; auto.
Qed.

(** With fewer than two bytes the SASL test may read past the payload;
    when it does not, the payload is too short for a status. *)
Lemma response_case_small dd buf asd server_arg begin x n :
  List.length buf < 2 ->
  response_case dd buf asd server_arg begin = Ok x n ->
  x = ((-1)%Z, dd, asd).
Proof.
  intros Hlen. destruct buf as [|c [|c' buf]]; [| |simpl in Hlen; lia].
  - destruct begin; cbv; intros H; inversion H; reflexivity.
  - unfold response_case. destruct begin.
    + cbv. intros H; inversion H; reflexivity.
    + cbn [Nat.add]. unfold load at 1. cbn [nth_error].
      unfold bind at 1. unfold bind at 1.
      destruct (is_chr c "+").
      * cbv. discriminate.
      * cbv. intros H; inversion H; reflexivity.
Qed.

Lemma pop3_server_validate_wp dd buf asd server_arg :
  2 <= List.length buf ->
  wp (pop3_server_validate dd buf asd server_arg)
     (fun x _ => server_outcome dd buf asd server_arg (fst (fst x)) (snd (fst x)) (snd x)).
Proof.
  intros Hlen. unfold pop3_server_validate.
  destruct (sstate (server dd)) eqn:Es.
  - eapply wp_mono; [apply response_case_wp; exact Hlen|].
    intros [[r dd'] asd'] n H. apply srv_connect; auto.
  - eapply wp_mono; [apply response_case_wp; exact Hlen|].
    intros [[r dd'] asd'] n H. apply srv_response; auto.
  - apply wp_bind. eapply wp_mono; [apply continue_loop_wp; lia|].
    intros [r pd'] n H. apply wp_ret. cbn [fst snd] in *. apply srv_continue; auto.
Qed.

Lemma pop3_server_validate_outcome dd buf asd server_arg r dd' asd' n :
  pop3_server_validate dd buf asd server_arg = Ok (r, dd', asd') n ->
  server_outcome dd buf asd server_arg r dd' asd'.
Proof.
  intros H. destruct (Nat.le_gt_cases 2 (List.length buf)) as [Hlen|Hlen].
  - pose proof (pop3_server_validate_wp dd buf asd server_arg Hlen) as Hw.
    rewrite H in Hw. exact Hw.
  - unfold pop3_server_validate in H.
    destruct (sstate (server dd)) eqn:Es.
    + apply response_case_small in H; [|exact Hlen]. inversion H; subst.
      apply srv_connect; auto. apply resp_short. lia.
    + apply response_case_small in H; [|exact Hlen]. inversion H; subst.
      apply srv_response; auto. apply resp_short. lia.
    + pose proof (continue_loop_wp buf (List.length buf) 0 (server dd)) as Hw.
      apply wp_bind_inv in H. destruct H as ([r0 pd0] & n1 & n2 & H1 & H2 & _).
      rewrite H1 in Hw. inversion H2; subst.
      apply srv_continue; auto. apply Hw; lia.
Qed.

(** ** Status lines *)

Lemma sub_0_prefix buf lit : sub buf 0 (List.length lit) = lit -> exists rest, buf = lit ++ rest.
Proof.
  unfold sub. cbn [skipn]. intros H. exists (skipn (List.length lit) buf).
  rewrite <- H at 1. symmetry. apply firstn_skipn.
Qed.

Lemma status_of_ok buf : sub buf 0 3 = POP3_OK -> status_of buf = Some false.
Proof. intros H. unfold status_of. rewrite H. reflexivity. Qed.

Lemma status_of_err buf : sub buf 0 4 = POP3_ERR -> status_of buf = Some true.
Proof.
  intros H. apply (sub_0_prefix buf POP3_ERR) in H. destruct H as [rest ->].
  reflexivity.
Qed.

Lemma check_line_result buf data r d n :
  data <= List.length buf ->
  pop3_check_line buf data (List.length buf) = Ok (r, d) n ->
  line_result buf data (List.length buf) r d.
Proof.
  intros Hd H. pose proof (pop3_check_line_wp buf data (List.length buf) Hd (le_n _)) as Hw.
  rewrite H in Hw. apply Hw.
Qed.

Lemma byte_at_nth buf i P c : byte_at buf i P -> nth_error buf i = Some c -> P c = true.
Proof. intros (c' & H1 & H2) H. rewrite H in H1. inversion H1; subst. exact H2. Qed.

(** A status line is handled by the status branch of the RESPONSE case. *)
Lemma status_line_outcome dd buf asd server_arg begin lit err r dd' asd' :
  (lit = POP3_OK /\ err = false) \/ (lit = POP3_ERR /\ err = true) ->
  status_line buf lit ->
  response_outcome dd buf asd server_arg begin r dd' asd' ->
  exists dd1 pd1 pd' d,
    correlate (with_server dd (with_error (server dd) err)) asd = (dd1, asd') /\
    same_progress (server dd1) pd1 /\
    after_status buf d pd1 r pd' /\
    dd' = with_server dd1 pd'.
Proof.
  intros Hlit (Hlen & Hsub & rl & d & n & Hcl & Hrl) H.
  assert (Hst : status_of buf = Some err).
  { destruct Hlit as [[-> ->]|[-> ->]]; [apply status_of_ok|apply status_of_err]; exact Hsub. }
  assert (Hskip : List.length lit = if err then 4 else 3).
  { destruct Hlit as [[-> ->]|[-> ->]]; reflexivity. }
  rewrite Hskip in Hcl. apply check_line_result in Hcl; [|destruct err; lia].
  destruct (sub_0_prefix _ _ Hsub) as [rest Hbuf].
  destruct H as [r Hb H0 H1 Hr | Hs | Hu | err' rl' d' Hst' Hl' Hn
                | err' rl' d' dd1 asd1 pd1 r pd' _ Hst' Hl' Hp' Hc' _ Hsp Ha].
  - exfalso. destruct Hlit as [[-> ->]|[-> ->]]; subst buf.
    + apply byte_at_nth with (c := chr "O") in H1; [discriminate|reflexivity].
    + apply byte_at_nth with (c := chr "-") in H0; [discriminate|reflexivity].
  - lia.
  - congruence.
  - exfalso. rewrite Hst in Hst'. inversion Hst'; subst err'.
    destruct (line_result_fun _ _ _ _ _ _ _ Hcl Hl'). lia.
  - rewrite Hst in Hst'. inversion Hst'; subst err'.
    exists dd1, pd1, pd', d'. auto.
Qed.

(** ** The calls that [correlate] makes *)

Lemma correlate_calls_spec dd asd dd1 asd1 :
  correlate dd asd = (dd1, asd1) ->
  calls asd1 = calls asd ++ correlate_calls dd /\
  service_detected (flags asd1) = service_detected (flags asd) /\
  server dd1 = server dd.
Proof.
  unfold correlate, correlate_calls. cbn.
  destruct (state (client dd)); destruct (username (client dd));
    destruct (error (server dd)); destruct (detected (client dd));
    cbn; intros H; inversion H; subst; cbn;
    rewrite <- ?app_assoc; cbn; rewrite ?app_nil_r; repeat split; reflexivity.
Qed.

(** ** The pattern matcher *)

Lemma find_app_first {A} (f : A -> bool) l1 l2 :
  find f (l1 ++ l2) = match find f l1 with Some x => Some x | None => find f l2 end.
Proof. induction l1 as [|a l1 IH]; simpl; auto. destruct (f a); auto. Qed.

Lemma find_none_iff {A} (f : A -> bool) l :
  find f l = None <-> forall x, In x l -> f x = false.
Proof.
  split.
  - apply find_none.
  - induction l as [|a l IH]; simpl; auto. intros H.
    rewrite (H a (or_introl eq_refl)). apply IH. auto.
Qed.

(** Over positions in increasing order, the first accepted match is at the
    least position that has one. *)
Lemma find_flat_map_seq {A} (f : A -> bool) (g : nat -> list A) n : forall a x,
  find f (flat_map g (seq a n)) = Some x ->
  exists pos, a <= pos < a + n /\ In x (g pos) /\ f x = true /\
              forall q, a <= q < pos -> forall y, In y (g q) -> f y = false.
Proof.
  induction n as [|n IH]; intros a x; simpl; [discriminate|].
  rewrite find_app_first. destruct (find f (g a)) eqn:E.
  - intros H; inversion H; subst. apply find_some in E. destruct E as [E1 E2].
    exists a. split; [lia|]. split; [exact E1|]. split; [exact E2|]. intros q Hq; lia.
  - intros H. apply IH in H. destruct H as (pos & Hp & Hin & Hf & Hbefore).
    exists pos. split; [lia|]. split; [exact Hin|]. split; [exact Hf|].
    intros q Hq y Hy. destruct (Nat.eq_dec q a) as [->|Hne].
    + eapply find_none; eauto.
    + apply (Hbefore q); auto. lia.
Qed.

Lemma run_callback_find ms : forall d,
  run_callback ms pop3_pattern_match d =
  match find accepted ms with Some ip => fst ip | None => d end.
Proof.
  induction ms as [|[id pos] ms IH]; intros d; simpl; auto.
  unfold pop3_pattern_match, accepted at 1. cbn [fst snd].
  destruct (length (nth (id - 1) pop3_client_patterns no_pattern) =? pos); simpl; auto.
Qed.

Lemma in_matches_ending_at m text pos ip :
  In ip (matches_ending_at m text pos) <->
  exists pat, In (fst ip, pat) m /\ ends_at pat text pos = true /\ snd ip = pos.
Proof.
  unfold matches_ending_at. rewrite in_flat_map. split.
  - intros ([id pat] & Hin & H). cbn [fst snd] in H.
    destruct (ends_at pat text pos) eqn:E; [|contradiction].
    destruct H as [<-|[]]. exists pat. auto.
  - intros (pat & Hin & He & Hs). exists (fst ip, pat). split; auto.
    cbn [fst snd]. rewrite He. left. destruct ip; simpl in *; subst; auto.
Qed.

Lemma ends_at_prefix pat text :
  ends_at pat text (List.length pat) = true <-> pat = firstn (List.length pat) text.
Proof.
  unfold ends_at. rewrite Nat.leb_refl, Nat.sub_diag. cbn [andb]. unfold sub. cbn [skipn].
  split.
  - apply bytes_eqb_eq.
  - intros H. rewrite <- H. apply bytes_eqb_refl.
Qed.

(** The table behind [cmd_matcher]: ids 1..29, each with its pattern. *)
Lemma cmd_matcher_table id pat :
  In (id, pat) cmd_matcher <->
  1 <= id <= 29 /\ pat = pattern (nth (id - 1) pop3_client_patterns no_pattern).
Proof.
  split.
  - intros H. cbv [cmd_matcher] in H.
    repeat (destruct H as [H|H]; [inversion H; subst; split; [lia|reflexivity]|]).
    contradiction.
  - intros [Hid ->].
    assert (H : In id (seq 1 29)) by (apply in_seq; lia).
    cbv [seq] in H.
    repeat (destruct H as [<-|H]; [cbv; tauto|]). contradiction.
Qed.

Lemma pattern_lengths id :
  1 <= id <= 29 ->
  let cmd := nth (id - 1) pop3_client_patterns no_pattern in
  length cmd = List.length (pattern cmd) /\ 4 <= length cmd <= longest_pattern.
Proof.
  intros Hid.
  assert (H : In id (seq 1 29)) by (apply in_seq; lia).
  cbv [seq] in H.
  repeat (destruct H as [<-|H]; [cbv; lia|]). contradiction.
Qed.

(** A nonzero pattern index names a pattern that starts the text, and no
    shorter pattern starts the text. *)
Lemma pattern_index_sound text :
  pattern_index_of text <> 0 ->
  let idx := pattern_index_of text in
  let cmd := nth (idx - 1) pop3_client_patterns no_pattern in
  1 <= idx <= 29 /\
  pattern cmd = firstn (length cmd) text /\
  length cmd <= List.length text /\
  forall id, 1 <= id <= 29 ->
    let other := nth (id - 1) pop3_client_patterns no_pattern in
    length other < length cmd ->
    pattern other <> firstn (length other) text.
Proof.
  unfold pattern_index_of, find_all. rewrite run_callback_find.
  unfold all_matches.
  destruct (find accepted _) as [[idx pos]|] eqn:E; cbn [fst]; [|congruence].
  intros _.
  apply find_flat_map_seq in E. destruct E as (p & Hp & Hin & Hacc & Hfirst).
  apply in_matches_ending_at in Hin. destruct Hin as (pat & Hm & He & Hs).
  cbn [fst snd] in *. subst p.
  apply cmd_matcher_table in Hm. destruct Hm as [Hid ->].
  unfold accepted in Hacc. cbn [fst snd] in Hacc. apply Nat.eqb_eq in Hacc.
  destruct (pattern_lengths idx Hid) as [Hl Hr].
  rewrite <- Hacc in He. rewrite Hl in He. apply ends_at_prefix in He.
  split; [exact Hid|]. split; [rewrite Hl; exact He|].
  split; [lia|].
  intros id Hid' Hlt Heq.
  destruct (pattern_lengths id Hid') as [Hl' Hr'].
  assert (Hf : accepted (id, length (nth (id - 1) pop3_client_patterns no_pattern)) = false).
  { apply (Hfirst (length (nth (id - 1) pop3_client_patterns no_pattern))).
    - lia.
    - apply in_matches_ending_at. eexists. cbn [fst snd].
      split; [apply cmd_matcher_table; split; [exact Hid'|reflexivity]|].
      split; [|reflexivity].
      rewrite Hl'. apply ends_at_prefix. rewrite <- Hl'. exact Heq. }
  unfold accepted in Hf. cbn [fst snd] in Hf. rewrite Nat.eqb_refl in Hf. discriminate.
Qed.

(** The index 8 ("AUTH " followed by LF) is never reported: "AUTH " is
    found first. *)
Lemma pattern_index_not_8 text : pattern_index_of text <> 8.
Proof.
  intros H.
  assert (Hnz : pattern_index_of text <> 0) by lia.
  destruct (pattern_index_sound text Hnz) as (_ & Hpre & _ & Hfirst).
  rewrite H in Hpre, Hfirst. cbn in Hpre.
  apply (Hfirst 4); [lia|cbn; lia|].
  cbn. destruct text as [|a [|b [|c [|d [|e [|f text]]]]]]; try discriminate.
  cbn in Hpre. inversion Hpre; subst. reflexivity.
Qed.

(** ** The client parser: one command *)

Lemma skip_wp P buf e s :
  s <= e -> e <= List.length buf ->
  wp (scan_while P buf e s) (fun s' n => s <= s' <= e /\ n <= S (s' - s)).
Proof.
  intros Hs He. eapply wp_mono; [apply scan_while_wp; exact He|].
  intros s' n (H1 & H2 & H3 & _). lia.
Qed.

Lemma username_char_nonzero c : username_char c = true -> Z.eqb c NUL = false.
Proof.
  intros H. destruct (Z.eqb_spec c NUL) as [->|]; [|reflexivity].
  cbv in H. discriminate.
Qed.

Lemma c_str_allowed u : allowed u -> c_str (u ++ [NUL]) = u.
Proof.
  induction 1 as [|c u Hc _ IH]; simpl; auto.
  rewrite (username_char_nonzero c Hc). f_equal. exact IH.
Qed.

Lemma same_but_username_refl fd : same_but_username fd fd.
Proof. unfold same_but_username, username_kept_or_captured. auto 10. Qed.

Lemma save_username_spec acc fd :
  allowed acc -> List.length acc < sizeof_username - 1 ->
  same_but_username fd (save_username acc fd) /\
  (acc <> [] -> save_username acc fd = with_username fd (Some acc)) /\
  (acc = [] -> save_username acc fd = fd).
Proof.
  intros Ha Hl. unfold save_username. rewrite (c_str_allowed acc Ha).
  destruct Ha as [|c u Hc Hu].
  - cbn. split; [apply same_but_username_refl|]. split; [congruence|reflexivity].
  - cbn [app hd]. rewrite (username_char_nonzero c Hc). cbn [negb].
    split; [|split; [reflexivity|discriminate]].
    unfold same_but_username, username_kept_or_captured. cbn.
    repeat (split; [reflexivity|]). right. exists (c :: u).
    split; [reflexivity|]. split; [|constructor; assumption].
    cbn in *. change sizeof_username with 249 in *. lia.
Qed.

Lemma username_loop_wp buf dist : forall s acc found_tick fd,
  dist = 0 \/ s + dist <= List.length buf ->
  allowed acc ->
  wp (username_loop buf dist s acc found_tick fd)
     (fun r n => s <= fst r <= s + dist /\ n <= S (fst r - s) /\
                 same_but_username fd (snd r)).
Proof.
  induction dist as [|d IH]; intros s acc tick fd Hs Ha; cbn [username_loop].
  - apply wp_ret. cbn [fst snd]. split; [lia|]. split; [lia|]. apply same_but_username_refl.
  - destruct (Nat.ltb_spec (List.length acc) (sizeof_username - 1)) as [Hlt|Hge].
    + apply wp_bind. apply load_wp; [|lia]. intros c Hc.
      destruct (username_char c) eqn:Eu.
      * eapply wp_mono; [apply IH; [lia|]|].
        -- destruct tick; [exact Ha|]. apply Forall_app. split; [exact Ha|]. constructor; auto.
        -- intros [s' fd'] n (H1 & H2 & H3). cbn [fst snd] in *.
           split; [lia|]. split; [lia|]. exact H3.
      * destruct (is_chr c "`").
        -- eapply wp_mono; [apply IH; [lia|exact Ha]|].
           intros [s' fd'] n (H1 & H2 & H3). cbn [fst snd] in *.
           split; [lia|]. split; [lia|]. exact H3.
        -- destruct (Z.eqb c CR || Z.eqb c LF || is_chr c " ").
           ++ apply wp_ret. cbn [fst snd]. split; [lia|]. split; [lia|].
              apply save_username_spec; auto.
           ++ apply wp_ret. cbn [fst snd]. split; [lia|]. split; [lia|].
              apply same_but_username_refl.
    + apply wp_ret. cbn [fst snd]. split; [lia|]. split; [lia|]. apply same_but_username_refl.
Qed.

Section ClientCommand.

Variable eoc_past_end : bool.

Ltac skip_step Hlo Hhi :=
  apply wp_bind; eapply wp_mono; [apply skip_wp; [lia|exact Hhi]|];
  let s' := fresh "s" in let n := fresh "n" in let H := fresh "Hs" in
  intros s' n H; cbv beta in H.

Lemma auth_case_wp buf e s pattern_index fd :
  s <= e -> e <= List.length buf ->
  wp (auth_case eoc_past_end buf e s pattern_index fd)
     (fun r n => s <= fst r <= e /\ n <= 3 + (fst r - s) /\
                 auth_post fd (snd r) pattern_index).
Proof.
  intros Hs He. unfold auth_case, auth_post, auth_next.
  destruct ((pattern_index =? PATTERN_STLSEOC) || (pattern_index =? PATTERN_STLSEOC2)).
  { unfold skip_crlf. skip_step Hs He. apply wp_ret. cbn.
    split; [lia|]. split; [lia|]. unfold username_kept_or_captured. auto 10. }
  destruct (pattern_index =? PATTERN_APOP) eqn:Eapop.
  { cbn [orb]. apply wp_bind.
    eapply wp_mono; [apply username_loop_wp; [lia|constructor]|].
    intros [s1 fd1] n1 (H1 & H2 & H3). cbn [fst snd] in *.
    unfold skip_to_eol, skip_crlf.
    skip_step H1 He. skip_step Hs0 He. apply wp_ret. cbn.
    destruct H3 as (A1 & A2 & A3 & A4 & A5 & A6).
    split; [lia|]. split; [lia|]. auto 10. }
  cbn [orb].
  destruct (pattern_index =? PATTERN_USER) eqn:Euser.
  { apply wp_bind.
    eapply wp_mono; [apply username_loop_wp; [lia|constructor]|].
    intros [s1 fd1] n1 (H1 & H2 & H3). cbn [fst snd] in *.
    unfold skip_to_eol, skip_crlf.
    skip_step H1 He. skip_step Hs0 He. apply wp_ret. cbn.
    destruct H3 as (A1 & A2 & A3 & A4 & A5 & A6).
    split; [lia|]. split; [lia|]. auto 10. }
  destruct (pattern_index =? PATTERN_AUTH).
  { unfold skip_to_eol, skip_crlf.
    skip_step Hs He. skip_step Hs0 He. apply wp_ret. cbn.
    split; [lia|]. split; [lia|]. unfold username_kept_or_captured. auto 10. }
  destruct ((pattern_index =? PATTERN_AUTHEOC) || (pattern_index =? PATTERN_AUTHEOC2)
            || (pattern_index =? PATTERN_AUTHEOC3) || (pattern_index =? PATTERN_AUTHEOC4)).
  { unfold skip_crlf. skip_step Hs He. apply wp_ret. cbn.
    split; [lia|]. split; [lia|]. unfold username_kept_or_captured. auto 10. }
  destruct ((pattern_index =? PATTERN_PASS) && got_user fd).
  { unfold skip_to_eol, skip_crlf.
    skip_step Hs He. skip_step Hs0 He. apply wp_ret. cbn.
    split; [lia|]. split; [lia|]. unfold username_kept_or_captured. auto 10. }
  apply wp_bind.
  assert (Hw : wp (if negb (eoc_at eoc_past_end pattern_index)
                   then skip_to_eol buf e s else ret s)
                  (fun s' n => s <= s' <= e /\ n <= S (s' - s))).
  { destruct (negb _); [apply skip_wp; auto|apply wp_ret; lia]. }
  eapply wp_mono; [exact Hw|]. clear Hw. intros s1 n1 H1. cbv beta in H1.
  unfold skip_crlf. skip_step H1 He. apply wp_ret. cbn.
  split; [lia|]. split; [lia|]. unfold username_kept_or_captured. auto 10.
Qed.

Lemma trans_case_wp buf e s pattern_index fd asd :
  s <= e -> e <= List.length buf ->
  wp (trans_case eoc_past_end buf e s pattern_index fd asd)
     (fun r n => s <= fst (fst r) <= e /\ n <= 2 + (fst (fst r) - s) /\
                 snd (fst r) =
                   (if PATTERN_POP3_OTHER <=? pattern_index then with_detected fd true else fd) /\
                 calls (snd r) = calls asd ++ trans_calls pattern_index /\
                 flags (snd r) = flags asd /\ flow_data (snd r) = flow_data asd).
Proof.
  intros Hs He. unfold trans_case, trans_calls.
  destruct (PATTERN_POP3_OTHER <=? pattern_index).
  - apply wp_bind.
    assert (Hw : wp (if negb (eoc_at eoc_past_end pattern_index)
                     then skip_to_eol buf e s else ret s)
                    (fun s' n => s <= s' <= e /\ n <= S (s' - s))).
    { destruct (negb _); [apply skip_wp; auto|apply wp_ret; lia]. }
    eapply wp_mono; [exact Hw|]. clear Hw. intros s1 n1 H1. cbv beta in H1. cbv beta in H1.
    unfold skip_crlf. skip_step H1 He. apply wp_ret. cbn.
    split; [lia|]. split; [lia|]. auto.
  - apply wp_bind.
    assert (Hw : wp (if negb (eoc_at eoc_past_end pattern_index)
                     then skip_to_eol buf e s else ret s)
                    (fun s' n => s <= s' <= e /\ n <= S (s' - s))).
    { destruct (negb _); [apply skip_wp; auto|apply wp_ret; lia]. }
    eapply wp_mono; [exact Hw|]. clear Hw. intros s1 n1 H1. cbv beta in H1. cbv beta in H1.
    unfold skip_crlf. skip_step H1 He. apply wp_ret. cbn.
    split; [lia|]. split; [lia|]. rewrite app_nil_r. auto.
Qed.

End ClientCommand.

Section ClientLoop.

Variable eoc_past_end : bool.

Lemma window_length buf s :
  s <= List.length buf ->
  List.length (window buf s) <= List.length buf - s /\
  List.length (window buf s) <= longest_pattern.
Proof.
  intros Hs. unfold window. rewrite sub_length.
  destruct (Nat.ltb_spec longest_pattern (List.length buf - s)); lia.
Qed.

Lemma auth_post_from_auth fd fd' idx :
  state fd = POP3_CLIENT_STATE_AUTH ->
  auth_post fd fd' idx -> auth_post (with_state fd POP3_CLIENT_STATE_AUTH) fd' idx.
Proof.
  unfold auth_post, auth_next. cbn. intros ->. auto.
Qed.

Lemma client_command_wp buf s dd asd :
  s < List.length buf ->
  wp (client_command eoc_past_end buf (List.length buf) s dd asd)
     (fun x n => command_outcome buf s dd asd (fst (fst x)) (snd (fst x)) (snd x) n).
Proof.
  intros Hs. unfold client_command.
  pose proof (window_length buf s (Nat.lt_le_incl _ _ Hs)) as [Hw1 Hw2].
  apply wp_bind. apply load_n_wp.
  2:{ destruct (Nat.ltb_spec longest_pattern (List.length buf - s)); lia. }
  fold (window buf s). fold (pattern_index_of (window buf s)).
  destruct (Nat.eqb_spec (pattern_index_of (window buf s)) 0) as [E0|Hnz].
  { apply wp_ret. cbn [fst snd]. rewrite Nat.add_0_r.
    replace (if longest_pattern <? List.length buf - s
             then longest_pattern else List.length buf - s)
      with (List.length (window buf s)).
    - apply cmd_no_match. exact E0.
    - unfold window. rewrite sub_length.
      destruct (Nat.ltb_spec longest_pattern (List.length buf - s)); lia. }
  destruct (pattern_index_sound (window buf s) Hnz) as (Hid & Hpre & Hlen & _).
  destruct (pattern_lengths _ Hid) as [Hl1 Hl2].
  set (idx := pattern_index_of (window buf s)) in *.
  change tcp_patterns with pop3_client_patterns.
  set (cmd := nth (idx - 1) pop3_client_patterns no_pattern) in *.
  assert (Hn : (if longest_pattern <? List.length buf - s
                then longest_pattern else List.length buf - s) <= longest_pattern).
  { destruct (Nat.ltb_spec longest_pattern (List.length buf - s)); lia. }
  change longest_pattern with 7 in *.
  destruct (state (client dd)) eqn:Est.
  - apply wp_bind. eapply wp_mono; [apply auth_case_wp; lia|].
    intros [s' fd'] n (H1 & H2 & H3). cbn [fst snd] in *. apply wp_ret. cbn [fst snd].
    apply cmd_auth; auto; try lia; try congruence.
    apply auth_post_from_auth; auto.
  - apply wp_bind. eapply wp_mono; [apply trans_case_wp; lia|].
    intros [[s' fd'] asd'] n (H1 & H2 & H3 & H4 & H5 & H6). cbn [fst snd] in *.
    apply wp_ret. cbn [fst snd]. subst fd'.
    apply cmd_trans; auto; try lia.
  - apply wp_bind. eapply wp_mono; [apply auth_case_wp; lia|].
    intros [s' fd'] n (H1 & H2 & H3). cbn [fst snd] in *. apply wp_ret. cbn [fst snd].
    apply cmd_auth; auto; try lia; try congruence.
Qed.

Lemma username_kept_or_captured_trans a b c :
  username_kept_or_captured a b -> username_kept_or_captured b c ->
  username_kept_or_captured a c.
Proof.
  unfold username_kept_or_captured. intros [->|H1] [->|H2]; auto.
Qed.

Lemma username_kept a : username_kept_or_captured a a.
Proof. left. reflexivity. Qed.

Lemma command_outcome_username buf s dd asd r dd' asd' n :
  command_outcome buf s dd asd r dd' asd' n ->
  username_kept_or_captured (username (client dd)) (username (client dd')) /\
  server dd' = server dd.
Proof.
  intros H. destruct H as [H0 | s' fd' n Hnz Hst Hs' Hn Hp
                          | s' asd' n Hnz Hst Hs' Hn Hc Hf Hd].
  - split; [apply username_kept|reflexivity].
  - destruct Hp as (_ & _ & _ & _ & _ & Hu). cbn in Hu. split; [exact Hu|reflexivity].
  - destruct (PATTERN_POP3_OTHER <=? pattern_index_of (window buf s));
      (split; [apply username_kept|reflexivity]).
Qed.

(** The loop ends, reads at most three bytes per byte of payload left, and
    leaves the server side of the flow data alone. *)
Lemma client_loop_wp buf : forall fuel s dd asd,
  s <= List.length buf -> List.length buf - s <= fuel ->
  wp (client_loop eoc_past_end fuel buf (List.length buf) s dd asd)
     (fun x n => n <= 3 * (List.length buf - s) /\
                 username_kept_or_captured (username (client dd))
                   (username (client (snd (fst x)))) /\
                 server (snd (fst x)) = server dd).
Proof.
  induction fuel as [|fuel IH]; intros s dd asd Hs Hf.
  - cbn [client_loop]. replace (List.length buf - s) with 0 by lia. cbn [Nat.eqb].
    apply wp_ret. cbn [fst snd]. split; [lia|]. split; [apply username_kept|reflexivity].
  - cbn [client_loop]. destruct (Nat.eqb_spec (List.length buf - s) 0) as [E|E].
    + apply wp_ret. cbn [fst snd]. split; [lia|]. split; [apply username_kept|reflexivity].
    + apply wp_bind. eapply wp_mono; [apply client_command_wp; lia|].
      intros [[r dd1] asd1] n Hc. cbn [fst snd] in Hc.
      pose proof (command_outcome_username _ _ _ _ _ _ _ _ Hc) as [Hu Hsv].
      destruct Hc as [H0 | s' fd' n Hnz Hst Hs' Hn Hp
                     | s' asd' n Hnz Hst Hs' Hn Hcl Hfl Hd].
      * apply wp_ret. cbn [fst snd].
        pose proof (window_length buf s Hs). split; [lia|]. split; [apply username_kept|reflexivity].
      * eapply wp_mono; [apply IH; lia|].
        intros [[r2 dd2] asd2] n2 (H1 & H2 & H3). cbn [fst snd] in *.
        split; [lia|]. split; [|congruence].
        eapply username_kept_or_captured_trans; eauto.
      * eapply wp_mono; [apply IH; lia|].
        intros [[r2 dd2] asd2] n2 (H1 & H2 & H3). cbn [fst snd] in *.
        split; [lia|]. split; [|congruence].
        eapply username_kept_or_captured_trans; eauto.
Qed.

Lemma client_validate_wp args :
  dir args = APP_ID_FROM_INITIATOR ->
  wp (Pop3ClientDetector_validate eoc_past_end args)
     (fun x n => n <= 3 * size args /\
                 (size args <> 0 ->
                  exists dd', flow_data (snd x) = Some dd' /\
                    username_kept_or_captured
                      (username (client (flow_data_or_new (asd args))))
                      (username (client dd')))).
Proof.
  intros Hdir. unfold Pop3ClientDetector_validate, flow_data_or_new.
  destruct (Nat.eqb_spec (size args) 0) as [E|E].
  { apply wp_ret. split; [lia|]. intros; contradiction. }
  rewrite Hdir. rewrite Nat.sub_0_r.
  destruct (flow_data (asd args)) as [dd|];
    (match goal with
     | |- context [negb (set_flags (client ?d))] => destruct (negb (set_flags (client d)))
     end;
     apply wp_bind; (eapply wp_mono; [apply client_loop_wp; unfold size; lia|]);
     intros [[r dd'] asd'] n (H1 & H2 & H3); cbn [fst snd] in *;
     apply wp_ret; cbn [fst snd]; (split; [unfold size in *; lia|]);
     intros _; eexists; (split; [reflexivity|]); exact H2).
Qed.

End ClientLoop.

(** ** Concrete flows *)

(** C7 as stated fails: the subtype entry has no version. *)
Lemma post_office_subtype_version_missing :
  option_map subtype
    (server_after (Pop3ServiceDetector_validate (from_server post_office_greeting new_session)))
  <> Some [ {| service := bytes "Rutger"; sub_version := Some (bytes "1.0") |} ].
Proof. vm_compute. discriminate. Qed.

(** C7, amended.  The greeting "+OK Post.Office v3.5.3 release 223 with
    Rutger version 1.0" CRLF leaves vendor "Post.Office", version
    "3.5.3 release 223" and one subtype entry with service "Rutger" and no
    version: a token is kept only when a space follows it on the line.  With
    " ready" after "1.0" the entry has version "1.0". *)
Theorem post_office_greeting_fields :
  (exists pd,
     server_after (Pop3ServiceDetector_validate (from_server post_office_greeting new_session))
       = Some pd /\
     vendor pd = Some (bytes "Post.Office") /\
     c_str (version pd) = bytes "3.5.3 release 223" /\
     subtype pd = [ {| service := bytes "Rutger"; sub_version := None |} ]) /\
  (exists pd,
     server_after
       (Pop3ServiceDetector_validate
          (from_server
             (bytes "+OK Post.Office v3.5.3 release 223 with Rutger version 1.0 ready" ++ crlf)
             new_session))
       = Some pd /\
     vendor pd = Some (bytes "Post.Office") /\
     c_str (version pd) = bytes "3.5.3 release 223" /\
     subtype pd = [ {| service := bytes "Rutger"; sub_version := Some (bytes "1.0") |} ]).
Proof.
  split; eexists; (split; [vm_compute; reflexivity|]); vm_compute; auto.
Qed.

(** ** C5: the line scanner *)

(** C5 as stated fails on "hello" LF: the input ends before any CRLF, has
    no byte below 0x20 other than the LF and no CR, and is malformed, not
    incomplete. *)
Lemma bare_lf_is_malformed :
  let buf := bytes "hello" ++ [LF] in
  value (pop3_check_line buf 0 (List.length buf)) = Some ((-1)%Z, 5) /\
  ~ crlf_seen buf 0 (List.length buf) /\
  ~ low_byte_seen buf 0 (List.length buf) /\
  ~ cr_without_lf buf 0 (List.length buf).
Proof.
  cbv zeta. split; [vm_compute; reflexivity|].
  split; [|split].
  - intros (i & _ & Hi & H & _). cbn in Hi.
    do 6 (destruct i as [|i]; [cbv in H; discriminate|]). cbn in Hi. lia.
  - intros (i & c & Hi & H & Hc & Hcr & Hlf). cbn in Hi.
    do 6 (destruct i as [|i];
          [cbv in H; inversion H; subst;
           first [ apply Hlf; reflexivity | cbv in Hc; discriminate ]|]).
    lia.
  - intros (i & Hi & H & _). cbn in Hi.
    do 6 (destruct i as [|i]; [cbv in H; discriminate|]). lia.
Qed.

(** C5, amended.  From a cursor [data <= e] inside the payload the line
    scanner returns exactly one of: 0, after a run of printable bytes
    (0x20..0x7e) and CR LF, the cursor just past the LF; 1, when every byte
    up to [e] is printable, the cursor at [e]; -1, at the first byte that is
    not printable when it is no CR (a bare LF, a control byte, a byte above
    0x7e), or when it is a CR that is the last byte before [e] or is not
    followed by LF.  Which one is fixed by the bytes. *)
Theorem check_line_classification buf data e :
  data <= e -> e <= List.length buf ->
  exists r data' n,
    pop3_check_line buf data e = Ok (r, data') n /\
    line_result buf data e r data' /\
    (forall r2 d2, line_result buf data e r2 d2 -> r2 = r /\ d2 = data').
Proof.
  intros Hd He.
  pose proof (pop3_check_line_wp buf data e Hd He) as Hw.
  apply wp_ok in Hw. destruct Hw as ([r d] & n & Heq & Hl & _). cbn [fst snd] in Hl.
  exists r, d, n. split; [exact Heq|]. split; [exact Hl|].
  intros r2 d2 H2. destruct (line_result_fun _ _ _ _ _ _ _ Hl H2). auto.
Qed.

Lemma check_line_classification_witness :
  exists r data' n,
    pop3_check_line (bytes "+OK" ++ crlf) 3 5 = Ok (r, data') n /\
    line_result (bytes "+OK" ++ crlf) 3 5 r data' /\
    (forall r2 d2, line_result (bytes "+OK" ++ crlf) 3 5 r2 d2 -> r2 = r /\ d2 = data').
Proof.
  apply (check_line_classification (bytes "+OK" ++ crlf) 3 5); cbn; lia.
Defined.

(** ** C4: the response count *)

Lemma whole_lines_end buf d0 d :
  whole_lines buf d0 d -> d = d0 \/ at_line_start buf d.
Proof.
  induction 1 as [d|d d' d'' Hl Hw IH]; [left; reflexivity|].
  right. destruct IH as [->|IH]; [|exact IH].
  inversion Hl; subst. right.
  replace (d + k + 2 - 2) with (d + k) by lia.
  replace (d + k + 2 - 1) with (d + k + 1) by lia. split; [lia|]. split; assumption.
Qed.

(** C4 as stated fails: "+OK hello", with no CRLF, is counted. *)
Lemma count_incremented_on_unterminated_status :
  let buf := bytes "+OK hello" in
  option_map count
    (server_after (Pop3ServiceDetector_validate (from_server buf new_session))) = Some 1%Z /\
  ~ In CR buf /\ ~ In LF buf.
Proof.
  cbv zeta. split; [vm_compute; reflexivity|].
  split; intros H; cbv in H; repeat (destruct H as [H|H]; [discriminate|]); contradiction.
Qed.

Lemma count_incr_count pd : count (count_incr pd) = ((count pd + 1) mod 2 ^ 32)%Z.
Proof. reflexivity. Qed.

(** C4, amended.  One call of the server parser leaves the response count
    as it was or adds one to it (modulo 2^32), and it adds one only when it
    returns 0 and either the payload is exactly one status line, ended by
    CRLF or cut short by the end of the payload, or the last three bytes
    of the payload are "." CR LF at a line start.  A payload of two bytes
    or more always gets a result. *)
Theorem response_count_increments dd buf asd server_arg :
  (2 <= List.length buf ->
   exists r dd' asd' n,
     pop3_server_validate dd buf asd server_arg = Ok (r, dd', asd') n) /\
  (forall r dd' asd' n,
     pop3_server_validate dd buf asd server_arg = Ok (r, dd', asd') n ->
     count (server dd') = count (server dd) \/
     (count (server dd') = ((count (server dd) + 1) mod 2 ^ 32)%Z /\ r = 0%Z /\
      (status_ends_payload dd buf \/ terminator_ends_payload buf))).
Proof.
  split.
  { intros Hlen. pose proof (pop3_server_validate_wp dd buf asd server_arg Hlen) as Hw.
    apply wp_ok in Hw. destruct Hw as ([[r dd'] asd'] & n & Heq & _). eauto. }
  intros r dd' asd' n Heq. apply pop3_server_validate_outcome in Heq.
  assert (Hresp : forall dd0 begin,
            count (server dd0) = count (server dd) ->
            sstate (server dd) <> POP3_STATE_CONTINUE ->
            response_outcome dd0 buf asd server_arg begin r dd' asd' ->
            count (server dd') = count (server dd) \/
            (count (server dd') = ((count (server dd) + 1) mod 2 ^ 32)%Z /\ r = 0%Z /\
             (status_ends_payload dd buf \/ terminator_ends_payload buf))).
  { intros dd0 begin Hc0 Hst H.
    destruct H as [r Hb H0 H1 Hr | Hs | Hu | err rl d Hso Hl Hn
                  | err rl d dd1 asd1 pd1 r pd' Hlen Hso Hl Hp Hc Hsame Hsp Ha];
      try (left; exact Hc0).
    apply correlate_calls_spec in Hc. destruct Hc as (_ & _ & Hsrv).
    destruct Hsp as (_ & Hcnt & _). rewrite Hsrv in Hcnt. cbn in Hcnt.
    assert (Hd : (if err then 4 else 3) < d <= List.length buf).
    { eapply line_result_progress; eauto. destruct err; lia. }
    destruct Ha as [Hend | r pd' Hmore Hco].
    - right. cbn. rewrite Hcnt, Hc0. split; [reflexivity|]. split; [reflexivity|].
      left. split; [exact Hst|]. split; [exact Hlen|].
      exists err, rl. split; [exact Hso|].
      replace (List.length buf) with d at 2 by lia. split; [exact Hl|].
      inversion Hl; subst; lia.
    - destruct Hco as [r Hr | d2 Hw Hd2 Hsub].
      + left. cbn. congruence.
      + right. cbn. rewrite Hcnt, Hc0. split; [reflexivity|]. split; [reflexivity|].
        right. exists d2. split; [exact Hd2|]. split; [exact Hsub|].
        destruct (whole_lines_end _ _ _ Hw) as [->|Hs]; [|exact Hs].
        right. inversion Hl; subst; try lia.
        match goal with
        | H1 : nth_error buf (?a + ?k) = Some CR, H2 : nth_error buf (?a + ?k + 1) = Some LF |- _ =>
            replace (a + k + 2 - 2) with (a + k) by lia;
            replace (a + k + 2 - 1) with (a + k + 1) by lia;
            split; [lia|]; split; assumption
        end. }
  destruct Heq as [r dd' asd' Hst H | r dd' asd' Hst H | r pd' Hst H].
  - eapply Hresp; [| |exact H]; [reflexivity|congruence].
  - eapply Hresp; [| |exact H]; [reflexivity|congruence].
  - destruct H as [r Hr | d Hw Hd Hsub].
    + left. reflexivity.
    + right. cbn. split; [reflexivity|]. split; [reflexivity|].
      right. exists d. split; [exact Hd|]. split; [exact Hsub|].
      destruct (whole_lines_end _ _ _ Hw) as [->|Hs]; [left; reflexivity|exact Hs].
Qed.

(** ** Status lines and the client's last action (C1, C10) *)

(** A status line read in CONNECT or RESPONSE state: the parser returns,
    and what it did to the client data and the session is [correlate]. *)
Lemma status_line_correlated dd buf asd server_arg lit err :
  (lit = POP3_OK /\ err = false) \/ (lit = POP3_ERR /\ err = true) ->
  sstate (server dd) <> POP3_STATE_CONTINUE ->
  status_line buf lit ->
  exists r dd' asd' n ddR dd1,
    pop3_server_validate dd buf asd server_arg = Ok (r, dd', asd') n /\
    client ddR = client dd /\ need_continue ddR = need_continue dd /\
    error (server ddR) = err /\
    correlate ddR asd = (dd1, asd') /\
    client dd' = client dd1 /\ need_continue dd' = need_continue dd1.
Proof.
  intros Hlit Hst Hsl.
  assert (Hlen : 2 <= List.length buf) by (destruct Hsl; lia).
  pose proof (pop3_server_validate_wp dd buf asd server_arg Hlen) as Hw.
  apply wp_ok in Hw. destruct Hw as ([[r dd'] asd'] & n & Heq & Ho). cbn [fst snd] in Ho.
  exists r, dd', asd', n.
  destruct Ho as [r dd' asd' Hs H | r dd' asd' Hs H | r pd' Hs H]; [| |congruence].
  - destruct (status_line_outcome _ _ _ _ _ _ _ _ _ _ Hlit Hsl H)
      as (dd1 & pd1 & pd' & d & Hc & _ & _ & ->).
    eexists; exists dd1. split; [exact Heq|].
    split; [|split; [|split; [|split; [exact Hc|split; reflexivity]]]]; reflexivity.
  - destruct (status_line_outcome _ _ _ _ _ _ _ _ _ _ Hlit Hsl H)
      as (dd1 & pd1 & pd' & d & Hc & _ & _ & ->).
    eexists; exists dd1. split; [exact Heq|].
    split; [|split; [|split; [|split; [exact Hc|split; reflexivity]]]]; reflexivity.
Qed.

Lemma correlate_keeps_stls dd asd dd1 asd1 :
  correlate dd asd = (dd1, asd1) ->
  state (client dd1) = POP3_CLIENT_STATE_STLS_CMD ->
  state (client dd) = POP3_CLIENT_STATE_STLS_CMD.
Proof.
  unfold correlate. cbn.
  destruct (state (client dd)) eqn:Es; auto;
    destruct (username (client dd)); destruct (error (server dd));
    intros H; inversion H; subst; cbn; congruence.
Qed.

Lemma server_keeps_stls dd buf asd server_arg r dd' asd' n :
  pop3_server_validate dd buf asd server_arg = Ok (r, dd', asd') n ->
  state (client dd') = POP3_CLIENT_STATE_STLS_CMD ->
  state (client dd) = POP3_CLIENT_STATE_STLS_CMD.
Proof.
  intros Heq. apply pop3_server_validate_outcome in Heq.
  assert (Hresp : forall dd0 begin,
            client dd0 = client dd ->
            response_outcome dd0 buf asd server_arg begin r dd' asd' ->
            state (client dd') = POP3_CLIENT_STATE_STLS_CMD ->
            state (client dd) = POP3_CLIENT_STATE_STLS_CMD).
  { intros dd0 begin Hc0 H.
    destruct H as [r Hb H0 H1 Hr | Hs | Hu | err rl d Hso Hl Hn
                  | err rl d dd1 asd1 pd1 r pd' Hlen Hso Hl Hp Hc Hsame Hsp Ha];
      cbn; try (rewrite Hc0; auto; fail).
    intros H. apply (correlate_keeps_stls _ _ _ _ Hc) in H. cbn in H. congruence. }
  destruct Heq as [r dd' asd' Hst H | r dd' asd' Hst H | r pd' Hst H].
  - eapply Hresp; [|exact H]. reflexivity.
  - eapply Hresp; [|exact H]. reflexivity.
  - cbn. auto.
Qed.

Section StlsEntry.

Variable eoc_past_end : bool.

Lemma window_firstn buf s n :
  n <= List.length (window buf s) -> firstn n (window buf s) = sub buf s n.
Proof.
  unfold window, sub. intros H. rewrite length_firstn in H.
  rewrite firstn_firstn. f_equal. lia.
Qed.

(** STLS_CMD after a turn of the client loop: the flow was not in
    TRANSACTION state, and either nothing matched (and the flow was in
    STLS_CMD already) or the command was "STLS" CR LF. *)
Lemma stls_cmd_entered buf s dd asd :
  s < List.length buf ->
  exists r dd' asd' n,
    client_command eoc_past_end buf (List.length buf) s dd asd = Ok (r, dd', asd') n /\
    (state (client dd') = POP3_CLIENT_STATE_STLS_CMD ->
     state (client dd) <> POP3_CLIENT_STATE_TRANS /\
     ((state (client dd) = POP3_CLIENT_STATE_STLS_CMD /\ r = Return APPID_SUCCESS) \/
      sub buf s (List.length STLSEOC) = STLSEOC)).
Proof.
  intros Hs. pose proof (client_command_wp eoc_past_end buf s dd asd Hs) as Hw.
  apply wp_ok in Hw. destruct Hw as ([[r dd'] asd'] & n & Heq & Ho). cbn [fst snd] in Ho.
  exists r, dd', asd', n. split; [exact Heq|].
  destruct Ho as [H0 | s' fd' n Hnz Hst Hs' Hn Hp | s' asd' n Hnz Hst Hs' Hn Hc Hf Hd].
  - cbn. intros H. split; [congruence|]. left. auto.
  - destruct Hp as (_ & Hnext & _). cbn [client with_client]. rewrite Hnext. intros H. split; [exact Hst|]. right.
    destruct (pattern_index_sound _ Hnz) as (Hid & Hpre & Hlen & _).
    unfold auth_next in H. cbn [state with_state got_user] in H.
    destruct (Nat.eqb_spec (pattern_index_of (window buf s)) PATTERN_STLSEOC) as [E8|N8].
    { exfalso. exact (pattern_index_not_8 _ E8). }
    destruct (Nat.eqb_spec (pattern_index_of (window buf s)) PATTERN_STLSEOC2) as [E9|N9].
    { rewrite E9 in Hpre, Hlen. cbn in Hpre, Hlen.
      change (List.length STLSEOC) with 6. rewrite <- window_firstn; [|exact Hlen].
      symmetry. exact Hpre. }
    cbn [orb] in H.
    repeat match type of H with
           | (if ?c then _ else _) = _ => destruct c; try discriminate
           end.
  - destruct (PATTERN_POP3_OTHER <=? pattern_index_of (window buf s)); cbn; intros H; congruence.
Qed.

End StlsEntry.

(** C1.  With the client in STLS_CMD, a status line read by the server
    parser resolves the pending STLS: on -ERR the client state goes back to
    AUTH and no call is made; on +OK the calls made are, in order,
    set ENCRYPTED, clear CLIENT_GETS_SERVER_PACKETS and one add_app POP3S,
    and the flags end up so.  STLS_CMD is entered by the client loop only,
    never from TRANSACTION state, and only on the command "STLS" CR LF; the
    server parser never enters it. *)
Theorem stls_pending_resolution :
  (forall dd buf asd server_arg,
     state (client dd) = POP3_CLIENT_STATE_STLS_CMD ->
     sstate (server dd) <> POP3_STATE_CONTINUE ->
     (status_line buf POP3_ERR ->
      exists r dd' asd' n,
        pop3_server_validate dd buf asd server_arg = Ok (r, dd', asd') n /\
        state (client dd') = POP3_CLIENT_STATE_AUTH /\
        calls asd' = calls asd) /\
     (status_line buf POP3_OK ->
      exists r dd' asd' n,
        pop3_server_validate dd buf asd server_arg = Ok (r, dd', asd') n /\
        calls asd' = calls asd ++ stls_ok_calls /\
        get_session_flags APPID_SESSION_ENCRYPTED asd' = true /\
        get_session_flags APPID_SESSION_CLIENT_GETS_SERVER_PACKETS asd' = false)) /\
  (forall eoc_past_end buf s dd asd,
     s < List.length buf ->
     exists r dd' asd' n,
       client_command eoc_past_end buf (List.length buf) s dd asd = Ok (r, dd', asd') n /\
       (state (client dd') = POP3_CLIENT_STATE_STLS_CMD ->
        state (client dd) <> POP3_CLIENT_STATE_TRANS /\
        ((state (client dd) = POP3_CLIENT_STATE_STLS_CMD /\ r = Return APPID_SUCCESS) \/
         sub buf s (List.length STLSEOC) = STLSEOC))) /\
  (forall dd buf asd server_arg r dd' asd' n,
     pop3_server_validate dd buf asd server_arg = Ok (r, dd', asd') n ->
     state (client dd') = POP3_CLIENT_STATE_STLS_CMD ->
     state (client dd) = POP3_CLIENT_STATE_STLS_CMD).
Proof.
  split; [|split; [exact stls_cmd_entered | exact server_keeps_stls]].
  intros dd buf asd server_arg Hstls Hst. split; intros Hsl.
  - destruct (status_line_correlated dd buf asd server_arg POP3_ERR true
                (or_intror (conj eq_refl eq_refl)) Hst Hsl)
      as (r & dd' & asd' & n & ddR & dd1 & Heq & Hc & Hn & He & Hco & Hc' & Hn').
    exists r, dd', asd', n. split; [exact Heq|].
    unfold correlate in Hco. rewrite Hc, Hstls, He in Hco.
    inversion Hco; subst. rewrite Hc'. cbn. auto.
  - destruct (status_line_correlated dd buf asd server_arg POP3_OK false
                (or_introl (conj eq_refl eq_refl)) Hst Hsl)
      as (r & dd' & asd' & n & ddR & dd1 & Heq & Hc & Hn & He & Hco & Hc' & Hn').
    exists r, dd', asd', n. split; [exact Heq|].
    unfold correlate in Hco. rewrite Hc, Hstls, He in Hco.
    inversion Hco; subst. cbn. rewrite <- !app_assoc. cbn. auto.
Qed.

(** The server side of the user report.  With a user name held and the
    client not in STLS_CMD, a status line read by the server parser makes
    exactly one add_user call, with success 1 on +OK and 0 on -ERR, and the
    user name is then null.  [got_user] is not consulted: no PASS need have
    been seen. *)
Lemma username_surrendered_on_status dd buf asd server_arg u :
  username (client dd) = Some u ->
  state (client dd) <> POP3_CLIENT_STATE_STLS_CMD ->
  sstate (server dd) <> POP3_STATE_CONTINUE ->
  (status_line buf POP3_OK ->
   exists r dd' asd' n,
     pop3_server_validate dd buf asd server_arg = Ok (r, dd', asd') n /\
     calls asd' = calls asd
                  ++ [add_user u APP_ID_POP3 1;
                      clear_session_flags_call APPID_SESSION_CLIENT_GETS_SERVER_PACKETS]
                  ++ (if detected (client dd)
                      then [set_session_flags_call APPID_SESSION_CLIENT_DETECTED] else []) /\
     username (client dd') = None /\
     got_user (client dd') = true /\ need_continue dd' = false) /\
  (status_line buf POP3_ERR ->
   exists r dd' asd' n,
     pop3_server_validate dd buf asd server_arg = Ok (r, dd', asd') n /\
     calls asd' = calls asd ++ [add_user u APP_ID_POP3 0] /\
     username (client dd') = None).
Proof.
  intros Hu Hstls Hst. split; intros Hsl.
  - destruct (status_line_correlated dd buf asd server_arg POP3_OK false
                (or_introl (conj eq_refl eq_refl)) Hst Hsl)
      as (r & dd' & asd' & n & ddR & dd1 & Heq & Hc & Hn & He & Hco & Hc' & Hn').
    exists r, dd', asd', n. split; [exact Heq|].
    unfold correlate in Hco. cbn in Hco. rewrite Hc, Hu, He in Hco.
    destruct (state (client dd)); try congruence;
      destruct (detected (client dd)); inversion Hco; subst;
      rewrite Hc', Hn'; cbn; rewrite <- ?app_assoc; cbn; auto.
  - destruct (status_line_correlated dd buf asd server_arg POP3_ERR true
                (or_intror (conj eq_refl eq_refl)) Hst Hsl)
      as (r & dd' & asd' & n & ddR & dd1 & Heq & Hc & Hn & He & Hco & Hc' & Hn').
    exists r, dd', asd', n. split; [exact Heq|].
    unfold correlate in Hco. cbn in Hco. rewrite Hc, Hu, He in Hco.
    destruct (state (client dd)); try congruence;
      inversion Hco; subst; rewrite Hc'; cbn; auto.
Qed.

(** ** C2: the service report *)

Lemma skipn_length_app {A} (a b : list A) : skipn (List.length a) (a ++ b) = b.
Proof. induction a; simpl; auto. Qed.

Lemma correlate_calls_no_report dd : filter is_service_report (correlate_calls dd) = [].
Proof.
  unfold correlate_calls.
  destruct (state (client dd)); destruct (username (client dd));
    destruct (error (server dd)); destruct (detected (client dd)); reflexivity.
Qed.

(** The server parser reports no service and leaves SERVICE_DETECTED alone. *)
Lemma server_calls dd buf asd server_arg r dd' asd' n :
  pop3_server_validate dd buf asd server_arg = Ok (r, dd', asd') n ->
  exists l, calls asd' = calls asd ++ l /\ filter is_service_report l = [] /\
            service_detected (flags asd') = service_detected (flags asd).
Proof.
  intros Heq. apply pop3_server_validate_outcome in Heq.
  assert (Hresp : forall dd0 begin,
            response_outcome dd0 buf asd server_arg begin r dd' asd' ->
            exists l, calls asd' = calls asd ++ l /\ filter is_service_report l = [] /\
                      service_detected (flags asd') = service_detected (flags asd)).
  { intros dd0 begin H.
    destruct H as [r Hb H0 H1 Hr | Hs | Hu | err rl d Hso Hl Hn
                  | err rl d dd1 asd1 pd1 r pd' Hlen Hso Hl Hp Hc Hsame Hsp Ha];
      try (exists []; rewrite app_nil_r; auto; fail).
    apply correlate_calls_spec in Hc. destruct Hc as (Hc & Hf & _).
    eexists. split; [exact Hc|]. split; [apply correlate_calls_no_report|exact Hf]. }
  destruct Heq as [r dd' asd' Hst H | r dd' asd' Hst H | r pd' Hst H]; eauto.
  exists []. rewrite app_nil_r. auto.
Qed.

Lemma service_flow_data_calls asd dd0 asd0 :
  service_flow_data asd = (dd0, asd0) ->
  dd0 = flow_data_or_new asd /\
  service_detected (flags asd0) = service_detected (flags asd) /\
  exists l, calls asd0 = calls asd ++ l /\ filter is_service_report l = [].
Proof.
  unfold service_flow_data, flow_data_or_new.
  destruct (flow_data asd) as [dd|];
    [destruct (need_continue dd)|destruct (need_continue calloc_POP3DetectorData)];
    intros H; inversion H; subst; cbn;
    (split; [reflexivity|]; split; [reflexivity|]);
    eexists; rewrite <- app_assoc; split; reflexivity.
Qed.

(** C2.  When the service detector's parse of a server payload returns 0
    with the response count at 4 or more and SERVICE_DETECTED is not set,
    the detector returns SUCCESS and has made exactly one
    add_service_consume_subtype call, as its last call: with POP3S when the
    client state is then STLS_CMD and POP3 otherwise, the vendor, the
    version when its first byte is not NUL, and the subtype list; the
    subtype pointer of the flow data is then null. *)
Theorem service_reported_once args dd0 asd0 dd' asd' n :
  size args <> 0 ->
  dir args = APP_ID_FROM_RESPONDER ->
  get_session_flags APPID_SESSION_SERVICE_DETECTED (asd args) = false ->
  service_flow_data (asd args) = (dd0, asd0) ->
  pop3_server_validate dd0 (data args) asd0 true = Ok (0%Z, dd', asd') n ->
  (POP3_COUNT_THRESHOLD <= count (server dd'))%Z ->
  exists asd'',
    Pop3ServiceDetector_validate args = Ok (APPID_SUCCESS, asd'') n /\
    calls asd'' = calls asd' ++ [service_report dd'] /\
    filter is_service_report (emitted (asd args) asd'') = [service_report dd'] /\
    service_report dd' =
      add_service_consume_subtype
        (match state (client dd') with
         | POP3_CLIENT_STATE_STLS_CMD => APP_ID_POP3S
         | _ => APP_ID_POP3
         end)
        (vendor (server dd'))
        (if Z.eqb (hd NUL (version (server dd'))) NUL then None
         else Some (c_str (version (server dd'))))
        (subtype (server dd')) /\
    exists dd'', flow_data asd'' = Some dd'' /\ subtype (server dd'') = [] /\
                 dd'' = with_server dd' (with_subtype (server dd') []).
Proof.
  intros Hsz Hdir Hsd Hflow Hparse Hcount.
  destruct (service_flow_data_calls _ _ _ Hflow) as (_ & Hsd0 & l0 & Hl0 & Hf0).
  destruct (server_calls _ _ _ _ _ _ _ _ Hparse) as (l1 & Hl1 & Hf1 & Hsd1).
  unfold get_session_flags in Hsd. cbn [read_flag] in Hsd.
  eexists. split.
  { unfold Pop3ServiceDetector_validate.
    destruct (Nat.eqb_spec (size args) 0) as [E|_]; [contradiction|].
    rewrite Hdir, Hflow.
    unfold get_session_flags. cbn [read_flag]. rewrite Hsd0, Hsd, andb_false_r.
    rewrite Hparse. unfold bind. cbn [Z.eqb].
    rewrite Hsd1, Hsd0, Hsd. cbn [negb]. rewrite andb_true_r.
    destruct (Z.leb_spec POP3_COUNT_THRESHOLD (count (server dd'))) as [_|Hlt]; [|lia].
    unfold ret. rewrite Nat.add_0_r. reflexivity. }
  split; [reflexivity|].
  split.
  { unfold emitted. cbn [calls data_add bump_pop_flows with_stats log].
    rewrite Hl1, Hl0, <- !app_assoc, skipn_length_app.
    rewrite !filter_app, Hf0, Hf1. reflexivity. }
  split.
  { unfold service_report. destruct (Z.eqb (hd NUL (version (server dd'))) NUL); reflexivity. }
  eexists. split; [reflexivity|]. split; reflexivity.
Qed.

(** ** C3: no recognised command *)

Lemma no_command_index buf s :
  no_command_at buf s -> pattern_index_of (window buf s) = 0.
Proof.
  intros Hno. destruct (Nat.eq_dec (pattern_index_of (window buf s)) 0) as [E|Hnz]; [exact E|].
  exfalso. destruct (pattern_index_sound _ Hnz) as (Hid & Hpre & Hlen & _).
  apply (Hno (nth (pattern_index_of (window buf s) - 1) pop3_client_patterns no_pattern)).
  - apply nth_In. change (List.length pop3_client_patterns) with 29. lia.
  - rewrite Hpre. apply window_firstn. exact Hlen.
Qed.

Section NoCommand.

Variable eoc_past_end : bool.

Lemma client_loop_no_command buf s dd asd fuel :
  s < List.length buf -> no_command_at buf s ->
  client_loop eoc_past_end (S fuel) buf (List.length buf) s dd asd =
  Ok (APPID_SUCCESS, with_need_continue dd false,
      set_session_flags APPID_SESSION_CLIENT_DETECTED asd)
     (List.length (window buf s)).
Proof.
  intros Hs Hno. cbn [client_loop].
  destruct (Nat.eqb_spec (List.length buf - s) 0) as [E|_]; [lia|].
  pose proof (client_command_wp eoc_past_end buf s dd asd Hs) as Hw.
  apply wp_ok in Hw. destruct Hw as ([[r dd'] asd'] & n & Heq & Ho). cbn [fst snd] in Ho.
  rewrite Heq. pose proof (no_command_index _ _ Hno) as H0.
  destruct Ho as [_ | s' fd' n Hnz | s' asd' n Hnz]; try contradiction.
  unfold bind, ret. rewrite Nat.add_0_r. reflexivity.
Qed.

End NoCommand.

(** C3.  When no pattern starts the bytes at the cursor, the client loop
    returns SUCCESS with [need_continue] cleared and CLIENT_DETECTED set, and
    makes no other call.  For a client payload with no pattern at its start,
    Pop3ClientDetector::validate returns SUCCESS and its calls are the
    setting of CLIENT_GETS_SERVER_PACKETS, if that was still to be done, and
    the setting of CLIENT_DETECTED: no add_app. *)
Theorem unrecognised_command_ends_detection :
  (forall eoc_past_end buf s dd asd fuel,
     s < List.length buf -> no_command_at buf s ->
     client_loop eoc_past_end (S fuel) buf (List.length buf) s dd asd =
     Ok (APPID_SUCCESS, with_need_continue dd false,
         set_session_flags APPID_SESSION_CLIENT_DETECTED asd)
        (List.length (window buf s))) /\
  (forall eoc_past_end args,
     dir args = APP_ID_FROM_INITIATOR -> data args <> [] -> no_command_at (data args) 0 ->
     exists asd' n dd',
       Pop3ClientDetector_validate eoc_past_end args = Ok (APPID_SUCCESS, asd') n /\
       flow_data asd' = Some dd' /\
       need_continue dd' = false /\
       get_session_flags APPID_SESSION_CLIENT_DETECTED asd' = true /\
       calls asd' =
         calls (asd args)
         ++ (if set_flags (client (flow_data_or_new (asd args))) then []
             else [set_session_flags_call APPID_SESSION_CLIENT_GETS_SERVER_PACKETS])
         ++ [set_session_flags_call APPID_SESSION_CLIENT_DETECTED]).
Proof.
  split; [exact client_loop_no_command|].
  intros oob args Hdir Hne Hno.
  assert (Hsz : 0 < List.length (data args)).
  { destruct (data args); [congruence|cbn; lia]. }
  unfold Pop3ClientDetector_validate, flow_data_or_new, size.
  destruct (Nat.eqb_spec (List.length (data args)) 0) as [E|_]; [lia|].
  rewrite Hdir.
  remember (List.length (data args) - 0) as fuel eqn:Hfuel.
  destruct fuel as [|fuel]; [lia|].
  destruct (flow_data (asd args)) as [dd|];
    [destruct (set_flags (client dd)) eqn:Esf
    |change (set_flags (client calloc_POP3DetectorData)) with false];
    cbn [negb];
    rewrite (client_loop_no_command oob (data args) 0 _ _ fuel Hsz Hno);
    unfold bind, ret; do 3 eexists; (split; [reflexivity|]); cbn;
    rewrite <- ?app_assoc; auto.
Qed.

(** ** C6: the captured user name *)

Lemma skipn_cons_nth {A} (l : list A) s c rest :
  skipn s l = c :: rest -> nth_error l s = Some c /\ skipn (S s) l = rest.
Proof.
  revert l. induction s as [|s IH]; intros [|a l]; cbn; try discriminate.
  - intros H; inversion H; auto.
  - intros H. apply IH in H. exact H.
Qed.

Lemma skipn_length_dist {A} (l : list A) s : List.length (skipn s l) = List.length l - s.
Proof. apply length_skipn. Qed.

Lemma value_ok {A} (x v : A) k : value (Ok x k) = Some v -> x = v.
Proof. unfold value. intros H. injection H. auto. Qed.

(** A run of allowed bytes that fits the array, then a separator: the run
    is saved. *)
Lemma username_loop_saves buf fd t : forall u s acc rest,
  allowed u -> allowed acc -> separator t ->
  List.length acc + List.length u < sizeof_username - 1 ->
  skipn s buf = u ++ t :: rest ->
  value (username_loop buf (List.length buf - s) s acc false fd) =
  Some (s + List.length u, save_username (acc ++ u) fd).
Proof.
  induction u as [|c u IH]; intros s acc rest Hu Ha Ht Hlen Hs.
  - cbn [app] in Hs. destruct (skipn_cons_nth _ _ _ _ Hs) as [Hn _].
    pose proof (skipn_length_dist buf s) as Hd. rewrite Hs in Hd. cbn [List.length] in Hd.
    destruct (List.length buf - s) as [|d] eqn:Ed; [lia|]. cbn [username_loop].
    cbn [List.length] in Hlen.
    destruct (Nat.ltb_spec (List.length acc) (sizeof_username - 1)) as [_|Hge]; [|lia].
    unfold load. rewrite Hn. unfold bind.
    rewrite app_nil_r, Nat.add_0_r.
    destruct Ht as [ -> | [ -> | -> ] ]; reflexivity.
  - cbn [app] in Hs. destruct (skipn_cons_nth _ _ _ _ Hs) as [Hn Hs'].
    pose proof (skipn_length_dist buf s) as Hd. rewrite Hs in Hd. cbn [List.length] in Hd.
    destruct (List.length buf - s) as [|d] eqn:Ed; [lia|]. cbn [username_loop].
    cbn [List.length] in Hlen.
    destruct (Nat.ltb_spec (List.length acc) (sizeof_username - 1)) as [_|Hge]; [|lia].
    unfold load. rewrite Hn. unfold bind.
    inversion Hu as [|c' u' Hc Hu']; subst. rewrite Hc.
    assert (Hd' : d = List.length buf - S s) by lia.
    specialize (IH (S s) (acc ++ [c]) rest Hu').
    rewrite <- Hd' in IH. rewrite <- app_assoc in IH. cbn [app] in IH.
    assert (Hv : value (username_loop buf d (S s) (acc ++ [c]) false fd) =
                 Some (S s + List.length u, save_username (acc ++ c :: u) fd)).
    { apply IH; auto.
      - apply Forall_app. split; [exact Ha|]. constructor; [exact Hc|constructor].
      - rewrite length_app. cbn [List.length]. lia. }
    destruct (username_loop buf d (S s) (acc ++ [c]) false fd) as [x k| |];
      [|discriminate Hv|discriminate Hv]. apply value_ok in Hv. rewrite Hv.
    unfold value. f_equal. f_equal. cbn [List.length]. lia.
Qed.

(** A run of allowed bytes that fills the array: the loop stops there and
    saves nothing. *)
Lemma username_loop_overflows buf fd : forall u s acc rest,
  allowed u -> List.length acc <= sizeof_username - 1 ->
  sizeof_username - 1 <= List.length acc + List.length u ->
  skipn s buf = u ++ rest ->
  value (username_loop buf (List.length buf - s) s acc false fd) =
  Some (s + (sizeof_username - 1 - List.length acc), fd).
Proof.
  induction u as [|c u IH]; intros s acc rest Hu Hle Hge Hs.
  - cbn [List.length] in Hge. rewrite Nat.add_0_r in Hge.
    replace (sizeof_username - 1 - List.length acc) with 0 by lia. rewrite Nat.add_0_r.
    destruct (List.length buf - s) as [|d]; cbn [username_loop]; [reflexivity|].
    destruct (Nat.ltb_spec (List.length acc) (sizeof_username - 1)); [lia|reflexivity].
  - cbn [app] in Hs. destruct (skipn_cons_nth _ _ _ _ Hs) as [Hn Hs'].
    pose proof (skipn_length_dist buf s) as Hd. rewrite Hs in Hd. cbn [List.length] in Hd.
    destruct (List.length buf - s) as [|d] eqn:Ed; [lia|]. cbn [username_loop].
    destruct (Nat.ltb_spec (List.length acc) (sizeof_username - 1)) as [Hlt|Hfull].
    + unfold load. rewrite Hn. unfold bind.
      inversion Hu as [|c' u' Hc Hu']; subst. rewrite Hc.
      assert (Hd' : d = List.length buf - S s) by lia.
      specialize (IH (S s) (acc ++ [c]) rest Hu').
      rewrite <- Hd' in IH.
      assert (Hv : value (username_loop buf d (S s) (acc ++ [c]) false fd) =
                   Some (S s + (sizeof_username - 1 - List.length (acc ++ [c])), fd)).
      { apply IH; auto; rewrite length_app; cbn [List.length] in *; lia. }
      destruct (username_loop buf d (S s) (acc ++ [c]) false fd) as [x k| |];
        [|discriminate Hv|discriminate Hv]. apply value_ok in Hv. rewrite Hv.
      unfold value. f_equal. f_equal. rewrite length_app. cbn [List.length]. lia.
    + replace (sizeof_username - 1 - List.length acc) with 0 by lia.
      rewrite Nat.add_0_r. reflexivity.
Qed.

(** C6 as stated fails: a name of 252 allowed bytes is not stored, neither
    by the capture loop of the USER/APOP case nor by a USER command. *)
Lemma username_252_not_stored :
  List.length long_name = 252 /\ allowed long_name /\
  (forall fd,
     value (username_loop (long_name ++ crlf) (List.length (long_name ++ crlf)) 0 [] false fd)
     = Some (248, fd)) /\
  match Pop3ClientDetector_validate false
          (from_client (bytes "USER " ++ long_name ++ crlf) new_session) with
  | Ok (_, a) _ => option_map (fun dd => username (client dd)) (flow_data a) = Some None
  | _ => False
  end.
Proof.
  split; [reflexivity|]. split.
  { unfold allowed, long_name. apply Forall_forall. intros c Hc.
    apply repeat_spec in Hc. subst. reflexivity. }
  split.
  - intros fd.
    pose proof (username_loop_overflows (long_name ++ crlf) fd long_name 0 [] crlf) as H.
    cbn [List.length Nat.add skipn] in H. rewrite Nat.sub_0_r in H.
    apply H.
    + unfold allowed, long_name. apply Forall_forall. intros c Hc.
      apply repeat_spec in Hc. subst. reflexivity.
    + cbv; lia.
    + unfold long_name. rewrite repeat_length. cbv. lia.
    + reflexivity.
  - vm_compute. reflexivity.
Qed.

Lemma save_username_nonempty u fd :
  allowed u -> u <> [] -> List.length u < sizeof_username - 1 ->
  save_username u fd = with_username fd (Some u).
Proof.
  intros Hu Hne Hl. destruct (save_username_spec u fd Hu Hl) as (_ & H & _). auto.
Qed.

(** C6, amended.  The capture loop of the USER/APOP case stores a run of
    allowed characters in full when the run is at most 247 bytes long and a
    CR, LF or space follows it; when the run is 248 bytes or longer the loop
    stops after 248 bytes, the local array of 249 being full, and stores
    nothing.  Whatever the payload, after a client payload the user name of
    the flow is the one it had or a captured name of 1 to 247 allowed
    bytes. *)
Theorem username_capture_bound :
  sizeof_username = 249 /\
  (forall buf fd u t s rest,
     allowed u -> u <> [] -> List.length u <= sizeof_username - 2 -> separator t ->
     skipn s buf = u ++ t :: rest ->
     value (username_loop buf (List.length buf - s) s [] false fd) =
     Some (s + List.length u, with_username fd (Some u))) /\
  (forall buf fd u s rest,
     allowed u -> sizeof_username - 1 <= List.length u ->
     skipn s buf = u ++ rest ->
     value (username_loop buf (List.length buf - s) s [] false fd) =
     Some (s + (sizeof_username - 1), fd)) /\
  (forall eoc_past_end args,
     dir args = APP_ID_FROM_INITIATOR ->
     exists r asd' n,
       Pop3ClientDetector_validate eoc_past_end args = Ok (r, asd') n /\
       (size args <> 0 ->
        exists dd', flow_data asd' = Some dd' /\
          username_kept_or_captured
            (username (client (flow_data_or_new (asd args))))
            (username (client dd')))).
Proof.
  split; [reflexivity|]. split; [|split].
  - intros buf fd u t s rest Hu Hne Hl Ht Hs.
    change (sizeof_username - 2) with 247 in Hl.
    rewrite (username_loop_saves buf fd t u s [] rest Hu (Forall_nil _) Ht); auto.
    + cbn [app]. rewrite save_username_nonempty; auto.
      change (sizeof_username - 1) with 248. lia.
    + cbn [List.length]. change (sizeof_username - 1) with 248. lia.
  - intros buf fd u s rest Hu Hl Hs.
    rewrite (username_loop_overflows buf fd u s [] rest Hu); auto;
      cbn [List.length]; rewrite ?Nat.sub_0_r; try reflexivity; lia.
  - intros oob args Hdir.
    pose proof (client_validate_wp oob args Hdir) as Hw.
    apply wp_ok in Hw. destruct Hw as ([r asd'] & n & Heq & _ & H).
    exists r, asd', n. split; [exact Heq|exact H].
Qed.

(** ** C9: the client parser ends, in linear time, inside the payload *)

(** C9.  For a client payload of any length and content
    Pop3ClientDetector::validate returns: it fetches no byte outside the
    payload, its loop does not run out of turns, and it fetches at most
    three bytes per byte of payload.  A turn of the loop that does not
    return moves the cursor forward and not past the end. *)
Theorem client_parser_terminates_in_bounds :
  (forall eoc_past_end args,
     dir args = APP_ID_FROM_INITIATOR ->
     exists r asd' n,
       Pop3ClientDetector_validate eoc_past_end args = Ok (r, asd') n /\
       n <= 3 * size args) /\
  (forall eoc_past_end buf s dd asd,
     s < List.length buf ->
     exists r dd' asd' n,
       client_command eoc_past_end buf (List.length buf) s dd asd = Ok (r, dd', asd') n /\
       n <= 3 * (List.length buf - s) /\
       forall s', r = Continue s' -> s < s' <= List.length buf).
Proof.
  split.
  - intros oob args Hdir.
    pose proof (client_validate_wp oob args Hdir) as Hw.
    apply wp_ok in Hw. destruct Hw as ([r asd'] & n & Heq & Hn & _).
    exists r, asd', n. auto.
  - intros oob buf s dd asd Hs.
    pose proof (client_command_wp oob buf s dd asd Hs) as Hw.
    apply wp_ok in Hw. destruct Hw as ([[r dd'] asd'] & n & Heq & Ho). cbn [fst snd] in Ho.
    exists r, dd', asd', n. split; [exact Heq|].
    destruct Ho as [H0 | s' fd' n Hnz Hst Hs' Hn Hp | s' asd' n Hnz Hst Hs' Hn Hc Hf Hd].
    + pose proof (window_length buf s (Nat.lt_le_incl _ _ Hs)).
      split; [lia|]. intros s' Hr; discriminate.
    + split; [lia|]. intros s0 Hr; inversion Hr; subst; lia.
    + split; [lia|]. intros s0 Hr; inversion Hr; subst; lia.
Qed.

(** ** C8: packet boundaries *)

Lemma continue_loop_run buf : forall fuel data pd,
  data <= List.length buf -> List.length buf - data <= fuel ->
  wp (continue_loop fuel buf (List.length buf) data pd)
     (fun rp _ => continue_run buf data pd (fst rp) (snd rp)).
Proof.
  induction fuel as [|fuel IH]; intros data pd Hd Hf.
  - simpl. destruct (Nat.ltb_spec data (List.length buf)); [lia|].
    apply wp_ret. apply run_end. lia.
  - simpl. destruct (Nat.ltb_spec data (List.length buf)) as [Hlt|Hge];
      [|apply wp_ret; apply run_end; lia].
    apply wp_bind.
    assert (Ht : wp (if List.length buf - data =? sizeof POP3_TERM - 1
                     then w <- load_n buf data (sizeof POP3_TERM - 1);; ret (bytes_eqb w POP3_TERM)
                     else ret false)
                    (fun t _ => t = true <-> terminator_at buf data)).
    { unfold terminator_at.
      destruct (Nat.eqb_spec (List.length buf - data) (sizeof POP3_TERM - 1)) as [E|E].
      - change (sizeof POP3_TERM - 1) with 3 in *.
        apply wp_bind. apply load_n_wp; [|lia]. apply wp_ret. split.
        + intros H. apply bytes_eqb_eq in H. split; [lia|exact H].
        + intros [_ H]. rewrite H. reflexivity.
      - change (sizeof POP3_TERM - 1) with 3 in *.
        apply wp_ret. split; [discriminate|]. intros [H _]. lia. }
    eapply wp_mono; [exact Ht|]. clear Ht.
    intros t n Ht. destruct t.
    + apply wp_ret. cbn [fst snd]. apply run_term; [exact Hlt|]. apply Ht. reflexivity.
    + assert (Hnt : ~ terminator_at buf data).
      { intros H. apply Ht in H. discriminate. }
      apply wp_bind. eapply wp_mono; [apply pop3_check_line_wp; lia|].
      intros [r d] k [Hr _]. cbn [fst snd] in Hr.
      destruct (Z.ltb_spec r 0) as [Hneg|Hpos].
      * apply wp_ret. cbn [fst snd]. eapply run_malformed; eauto.
      * pose proof (line_result_progress _ _ _ _ _ Hr Hlt Hpos) as Hp.
        eapply wp_mono; [apply IH; lia|].
        intros [r' pd'] k' Hc. cbn [fst snd] in *.
        eapply run_line; eauto.
Qed.

Lemma continue_run_fun buf d pd r1 pd1 :
  continue_run buf d pd r1 pd1 ->
  forall r2 pd2, continue_run buf d pd r2 pd2 -> r1 = r2 /\ pd1 = pd2.
Proof.
  induction 1 as [d pd He | d pd Hlt Ht | d pd rl d' Hlt Hnt Hl Hn
                 | d pd rl d' r pd' Hlt Hnt Hl Hp Hrun IH];
    intros r2 pd2 H2; inversion H2; subst; try lia; try contradiction; auto.
  - match goal with
    | H : line_result buf d _ ?rl2 _ |- _ =>
        destruct (line_result_fun _ _ _ _ _ _ _ Hl H); lia
    end.
  - match goal with
    | H : line_result buf d _ ?rl2 _ |- _ =>
        destruct (line_result_fun _ _ _ _ _ _ _ Hl H); lia
    end.
  - match goal with
    | H : line_result buf d _ ?rl2 ?d2, Hr : continue_run buf ?d2 pd r2 pd2 |- _ =>
        destruct (line_result_fun _ _ _ _ _ _ _ Hl H) as [_ <-]; apply IH; exact Hr
    end.
Qed.

(** Bytes of the second packet, seen in the whole stream. *)
Lemma byte_at_shift p1 p2 i P : byte_at p2 i P <-> byte_at (p1 ++ p2) (List.length p1 + i) P.
Proof.
  unfold byte_at. rewrite nth_error_app2 by lia.
  replace (List.length p1 + i - List.length p1) with i by lia. reflexivity.
Qed.

Lemma nth_error_shift (p1 p2 : list Z) i :
  nth_error (p1 ++ p2) (List.length p1 + i) = nth_error p2 i.
Proof.
  rewrite nth_error_app2 by lia. f_equal. lia.
Qed.

Lemma printable_run_shift p1 p2 a b :
  printable_run p2 a b -> printable_run (p1 ++ p2) (List.length p1 + a) (List.length p1 + b).
Proof.
  intros H i Hi. replace i with (List.length p1 + (i - List.length p1)) by lia.
  apply byte_at_shift. apply H. lia.
Qed.

Lemma line_result_shift p1 p2 d rl d' :
  line_result p2 d (List.length p2) rl d' ->
  line_result (p1 ++ p2) (List.length p1 + d) (List.length (p1 ++ p2)) rl (List.length p1 + d').
Proof.
  rewrite length_app. intros H.
  destruct H as [k H1 H2 H3 H4 | H1 | k H1 H2 H3 H4 | k H1 H2 H3].
  - replace (List.length p1 + (d + k + 2)) with (List.length p1 + d + k + 2) by lia.
    apply line_terminated; try lia.
    + replace (List.length p1 + d + k) with (List.length p1 + (d + k)) by lia.
      apply printable_run_shift. exact H2.
    + replace (List.length p1 + d + k) with (List.length p1 + (d + k)) by lia.
      rewrite nth_error_shift. exact H3.
    + replace (List.length p1 + d + k + 1) with (List.length p1 + (d + k + 1)) by lia.
      rewrite nth_error_shift. exact H4.
  - apply line_incomplete. apply printable_run_shift. exact H1.
  - replace (List.length p1 + (d + k + 1)) with (List.length p1 + d + k + 1) by lia.
    apply line_malformed_cr; try lia.
    + replace (List.length p1 + d + k) with (List.length p1 + (d + k)) by lia.
      apply printable_run_shift. exact H2.
    + replace (List.length p1 + d + k) with (List.length p1 + (d + k)) by lia.
      rewrite nth_error_shift. exact H3.
    + intros Hlt.
      replace (List.length p1 + d + k + 1) with (List.length p1 + (d + k + 1)) by lia.
      apply byte_at_shift. apply H4. lia.
  - replace (List.length p1 + (d + k)) with (List.length p1 + d + k) by lia.
    apply line_malformed_byte; try lia.
    + replace (List.length p1 + d + k) with (List.length p1 + (d + k)) by lia.
      apply printable_run_shift. exact H2.
    + replace (List.length p1 + d + k) with (List.length p1 + (d + k)) by lia.
      apply byte_at_shift. exact H3.
Qed.

Lemma sub_shift (p1 p2 : list Z) d n :
  sub (p1 ++ p2) (List.length p1 + d) n = sub p2 d n.
Proof.
  unfold sub. rewrite skipn_app.
  rewrite skipn_all2 by lia. cbn [app].
  f_equal. f_equal. lia.
Qed.

Lemma terminator_at_shift p1 p2 d :
  terminator_at p2 d <-> terminator_at (p1 ++ p2) (List.length p1 + d).
Proof.
  unfold terminator_at. rewrite length_app, sub_shift. split; intros [H1 H2]; split; auto; lia.
Qed.

Lemma continue_run_shift p1 p2 d pd r pd' :
  continue_run p2 d pd r pd' ->
  continue_run (p1 ++ p2) (List.length p1 + d) pd r pd'.
Proof.
  induction 1 as [d pd He | d pd Hlt Ht | d pd rl d' Hlt Hnt Hl Hn
                 | d pd rl d' r pd' Hlt Hnt Hl Hp Hrun IH].
  - apply run_end. rewrite length_app. lia.
  - apply run_term; [rewrite length_app; lia|]. apply terminator_at_shift. exact Ht.
  - eapply run_malformed; [rewrite length_app; lia| | |exact Hn].
    + intros H. apply Hnt. eapply terminator_at_shift. exact H.
    + apply line_result_shift. exact Hl.
  - eapply run_line; [rewrite length_app; lia| | |exact Hp|exact IH].
    + intros H. apply Hnt. eapply terminator_at_shift. exact H.
    + apply line_result_shift. exact Hl.
Qed.

(** A line that ends inside the first packet is the same line in the whole
    stream. *)
Lemma byte_at_prefix p1 p2 i P : i < List.length p1 -> byte_at p1 i P -> byte_at (p1 ++ p2) i P.
Proof.
  unfold byte_at. intros Hi. rewrite nth_error_app1 by lia. auto.
Qed.

Lemma line_terminated_prefix p1 p2 d d' :
  line_result p1 d (List.length p1) 0 d' ->
  line_result (p1 ++ p2) d (List.length (p1 ++ p2)) 0 d'.
Proof.
  rewrite length_app. intros H. inversion H; subst.
  apply line_terminated; try lia.
  - intros i Hi. apply byte_at_prefix; [lia|]. auto.
  - rewrite nth_error_app1 by lia. assumption.
  - rewrite nth_error_app1 by lia. assumption.
Qed.

Lemma ends_with_crlf_last q :
  nth_error (q ++ [CR; LF]) (List.length (q ++ [CR; LF]) - 1) = Some LF.
Proof.
  rewrite length_app. cbn [List.length].
  rewrite nth_error_app2 by lia.
  replace (List.length q + 2 - 1 - List.length q) with 1 by lia. reflexivity.
Qed.

(** The first packet is whole lines: its run carries over to the whole
    stream, where the run of the second packet follows it. *)
Lemma continue_run_prefix p1 p2 d pd r1 pd1 :
  continue_run p1 d pd r1 pd1 ->
  r1 = 0%Z -> sstate pd = POP3_STATE_CONTINUE -> sstate pd1 = POP3_STATE_CONTINUE ->
  ends_with_crlf p1 -> p2 <> [] -> d <= List.length p1 ->
  pd1 = pd /\
  forall r pd', continue_run p2 0 pd r pd' -> continue_run (p1 ++ p2) d pd r pd'.
Proof.
  intros Hrun Hr Hst Hst1 Hcrlf Hp2.
  assert (Hl2 : 0 < List.length p2) by (destruct p2; cbn; [congruence|lia]).
  induction Hrun as [d pd He | d pd Hlt Ht | d pd rl d' Hlt Hnt Hl Hn
                    | d pd rl d' r pd' Hlt Hnt Hl Hp Hrun IH]; intros Hd.
  - split; [reflexivity|]. intros r pd' H.
    replace d with (List.length p1 + 0) by lia. apply continue_run_shift. exact H.
  - cbn in Hst1. discriminate.
  - discriminate.
  - assert (Hd' : d < d' <= List.length p1) by (eapply line_result_progress; eauto).
    assert (Hrl : rl = 0%Z).
    { inversion Hl; subst; try lia.
      exfalso. destruct Hcrlf as [q Hq].
      match goal with
      | H : printable_run p1 d (List.length p1) |- _ =>
          apply (printable_not_bad p1 (List.length p1 - 1)); [apply H; lia|]
      end.
      exists LF. split; [|reflexivity]. rewrite Hq. apply ends_with_crlf_last. }
    subst rl. destruct (IH Hr Hst Hst1 ltac:(lia)) as [-> IH'].
    split; [reflexivity|]. intros r0 pd0 H.
    eapply run_line; [rewrite length_app; lia| | |exact Hp|apply IH'; exact H].
    + intros [Ht1 Ht2]. rewrite length_app in Ht1.
      inversion Hl; subst.
      assert (k = 0) by lia. subst k.
      assert (Hc : nth_error (sub (p1 ++ p2) d 3) 0 = Some CR).
      { unfold sub. rewrite nth_error_firstn. cbn [Nat.ltb Nat.leb].
        rewrite nth_error_skipn. rewrite Nat.add_0_r.
        rewrite nth_error_app1 by lia.
        match goal with H : nth_error p1 (d + 0) = Some CR |- _ =>
          rewrite Nat.add_0_r in H; exact H end. }
      rewrite Ht2 in Hc. cbv in Hc. discriminate.
    + apply line_terminated_prefix. exact Hl.
Qed.

(** C8 as stated fails in both directions.  Two server responses in one
    payload count as none and leave the parser in CONTINUE; split between
    them they count as two.  "STAT" CR LF from the client is a command; split
    after "ST" it ends detection. *)
Lemma split_changes_flow_state :
  let start := Some (calloc_POP3DetectorData, new_session) in
  let p1 := bytes "+OK a" ++ crlf in
  let p2 := bytes "+OK b" ++ crlf in
  option_map (fun x => (sstate (server (fst x)), count (server (fst x))))
    (then_server start (p1 ++ p2)) = Some (POP3_STATE_CONTINUE, 0%Z) /\
  option_map (fun x => (sstate (server (fst x)), count (server (fst x))))
    (then_server (then_server start p1) p2) = Some (POP3_STATE_RESPONSE, 2%Z) /\
  option_map calls (then_client (Some new_session) (bytes "ST" ++ bytes "AT" ++ crlf))
  <> option_map calls (then_client (then_client (Some new_session) (bytes "ST"))
                         (bytes "AT" ++ crlf)).
Proof.
  cbv zeta. split; [vm_compute; reflexivity|]. split; [vm_compute; reflexivity|].
  vm_compute. discriminate.
Qed.

(** C8, amended.  Inside a multi-line response the server parser does not
    depend on the packet boundary: in CONTINUE state, when a first payload of
    whole lines (it ends with CR LF, the parser returns 0 on it and stays in
    CONTINUE) is followed by a second payload, the parser ends with the same
    return code, flow data and session as on the two payloads in one. *)
Theorem continue_split_neutral dd p1 p2 asd server_arg dd1 asd1 n1 :
  sstate (server dd) = POP3_STATE_CONTINUE ->
  pop3_server_validate dd p1 asd server_arg = Ok (0%Z, dd1, asd1) n1 ->
  sstate (server dd1) = POP3_STATE_CONTINUE ->
  ends_with_crlf p1 -> p2 <> [] ->
  exists r dd2 asd2 n2 n,
    pop3_server_validate dd1 p2 asd1 server_arg = Ok (r, dd2, asd2) n2 /\
    pop3_server_validate dd (p1 ++ p2) asd server_arg = Ok (r, dd2, asd2) n.
Proof.
  intros Hst H1 Hst1 Hcrlf Hp2.
  unfold pop3_server_validate in H1. rewrite Hst in H1.
  apply wp_bind_inv in H1. destruct H1 as ([r0 pd1] & k1 & k2 & Hrun1 & Hret & _).
  unfold ret in Hret. inversion Hret; subst; clear Hret.
  pose proof (continue_loop_run p1 (List.length p1) 0 (server dd) (Nat.le_0_l _)
                ltac:(lia)) as Hw1.
  rewrite Hrun1 in Hw1. unfold wp in Hw1. cbn [fst snd] in Hw1.
  cbn [server with_server] in Hst1.
  destruct (continue_run_prefix p1 p2 0 (server dd) 0 pd1 Hw1 eq_refl Hst Hst1 Hcrlf Hp2
              (Nat.le_0_l _)) as [-> Hlift].
  unfold pop3_server_validate. cbn [server with_server]. rewrite Hst.
  pose proof (continue_loop_run p2 (List.length p2) 0 (server dd) (Nat.le_0_l _)
                ltac:(lia)) as Hw2.
  apply wp_ok in Hw2. destruct Hw2 as ([r pd'] & n2 & Hrun2 & Hc2). cbn [fst snd] in Hc2.
  pose proof (continue_loop_run (p1 ++ p2) (List.length (p1 ++ p2)) 0 (server dd)
                (Nat.le_0_l _) ltac:(lia)) as Hw.
  apply wp_ok in Hw. destruct Hw as ([r' pd''] & n & Hrun & Hc). cbn [fst snd] in Hc.
  destruct (continue_run_fun _ _ _ _ _ Hc _ _ (Hlift _ _ Hc2)) as [-> ->].
  exists r, (with_server dd pd'), asd1, (n2 + 0), (n + 0).
  rewrite Hrun2, Hrun. split; reflexivity.
Qed.

(** ** C10: the user report *)

(** C10.  The code at the failing input: the client sends "USER alice"
    CR LF and the server answers "+OK" CR LF.  No user name is held after
    the USER command, and the answer makes no add_user call: the matcher's
    id of "USER " is 1, which [switch (pattern_index)] takes for
    PATTERN_PASS, the enumerators counting from 0.  It is "PASS alice"
    CR LF, with id 2 taken for PATTERN_APOP, that leaves the user name
    "alice", which the next +OK reports with success 1. *)
Theorem user_ack_makes_no_add_user :
  let after_user := then_client (Some new_session) (bytes "USER alice" ++ crlf) in
  let after_pass := then_client (Some new_session) (bytes "PASS alice" ++ crlf) in
  option_map held_username after_user = Some None /\
  option_map (fun a => filter is_add_user (calls a))
    (then_service after_user (bytes "+OK" ++ crlf)) = Some [] /\
  option_map held_username after_pass = Some (Some (bytes "alice")) /\
  option_map (fun a => filter is_add_user (calls a))
    (then_service after_pass (bytes "+OK" ++ crlf))
  = Some [add_user (bytes "alice") APP_ID_POP3 1].
Proof.
  cbv zeta. repeat split; vm_compute; reflexivity.
Qed.

(** ** The theorems at concrete flows *)

Ltac status_line_here :=
  split; [cbn; lia|]; split; [reflexivity|];
  do 3 eexists; split; [vm_compute; reflexivity|lia].

Lemma stls_pending_resolution_witness :
  (exists r dd' asd' n,
     pop3_server_validate stls_flow (bytes "-ERR no" ++ crlf) new_session true
       = Ok (r, dd', asd') n /\
     state (client dd') = POP3_CLIENT_STATE_AUTH /\ calls asd' = calls new_session) /\
  (exists r dd' asd' n,
     pop3_server_validate stls_flow (bytes "+OK go" ++ crlf) new_session true
       = Ok (r, dd', asd') n /\
     calls asd' = calls new_session ++ stls_ok_calls /\
     get_session_flags APPID_SESSION_ENCRYPTED asd' = true /\
     get_session_flags APPID_SESSION_CLIENT_GETS_SERVER_PACKETS asd' = false) /\
  (exists r dd' asd' n,
     client_command false (bytes "STLS" ++ crlf) 6 0 calloc_POP3DetectorData new_session
       = Ok (r, dd', asd') n /\
     (state (client dd') = POP3_CLIENT_STATE_STLS_CMD ->
      state (client calloc_POP3DetectorData) <> POP3_CLIENT_STATE_TRANS /\
      ((state (client calloc_POP3DetectorData) = POP3_CLIENT_STATE_STLS_CMD /\
        r = Return APPID_SUCCESS) \/
       sub (bytes "STLS" ++ crlf) 0 (List.length STLSEOC) = STLSEOC))).
Proof.
  destruct stls_pending_resolution as (Hserver & Hclient & _).
  destruct (Hserver stls_flow (bytes "-ERR no" ++ crlf) new_session true eq_refl
              ltac:(discriminate)) as [Herr _].
  destruct (Hserver stls_flow (bytes "+OK go" ++ crlf) new_session true eq_refl
              ltac:(discriminate)) as [_ Hok].
  split; [apply Herr; status_line_here|].
  split; [apply Hok; status_line_here|].
  apply (Hclient false (bytes "STLS" ++ crlf) 0 calloc_POP3DetectorData new_session).
  cbn. lia.
Defined.

Lemma username_surrendered_on_status_example :
  (exists r dd' asd' n,
     pop3_server_validate alice_flow (bytes "+OK ok" ++ crlf) new_session true
       = Ok (r, dd', asd') n /\
     calls asd' = calls new_session
                  ++ [add_user (bytes "alice") APP_ID_POP3 1;
                      clear_session_flags_call APPID_SESSION_CLIENT_GETS_SERVER_PACKETS]
                  ++ (if detected (client alice_flow)
                      then [set_session_flags_call APPID_SESSION_CLIENT_DETECTED] else []) /\
     username (client dd') = None /\
     got_user (client dd') = true /\ need_continue dd' = false) /\
  (exists r dd' asd' n,
     pop3_server_validate alice_flow (bytes "-ERR no" ++ crlf) new_session true
       = Ok (r, dd', asd') n /\
     calls asd' = calls new_session ++ [add_user (bytes "alice") APP_ID_POP3 0] /\
     username (client dd') = None).
Proof.
  destruct (username_surrendered_on_status alice_flow (bytes "+OK ok" ++ crlf) new_session
              true (bytes "alice") eq_refl ltac:(discriminate) ltac:(discriminate))
    as [Hok _].
  destruct (username_surrendered_on_status alice_flow (bytes "-ERR no" ++ crlf) new_session
              true (bytes "alice") eq_refl ltac:(discriminate) ltac:(discriminate))
    as [_ Herr].
  split; [apply Hok; status_line_here|apply Herr; status_line_here].
Qed.

Lemma service_reported_once_witness :
  let args := from_server (bytes "+OK" ++ crlf) (data_add three_responses new_session) in
  size args <> 0 /\
  get_session_flags APPID_SESSION_SERVICE_DETECTED (asd args) = false /\
  exists asd'' n,
    Pop3ServiceDetector_validate args = Ok (APPID_SUCCESS, asd'') n /\
    filter is_service_report (emitted (asd args) asd'')
      = [add_service_consume_subtype APP_ID_POP3 None None []] /\
    option_map (fun dd => subtype (server dd)) (flow_data asd'') = Some [].
Proof.
  cbv zeta. split; [cbn; discriminate|]. split; [reflexivity|].
  edestruct (service_reported_once
               (from_server (bytes "+OK" ++ crlf) (data_add three_responses new_session)))
    as (asd'' & Hv & Hc & Hf & Hr & dd'' & Hd & Hs & _).
  - cbn; discriminate.
  - reflexivity.
  - reflexivity.
  - reflexivity.
  - vm_compute. reflexivity.
  - vm_compute. discriminate.
  - exists asd''. eexists. split; [exact Hv|]. split.
    + rewrite Hf. reflexivity.
    + rewrite Hd. cbn. rewrite Hs. reflexivity.
Defined.

Lemma no_command_in_http_request : no_command_at (bytes "GET / HTTP/1.1" ++ crlf) 0.
Proof.
  intros cmd H. cbv in H.
  repeat (destruct H as [<-|H]; [cbv; discriminate|]). contradiction.
Qed.

Lemma unrecognised_command_ends_detection_witness :
  let args := from_client (bytes "GET / HTTP/1.1" ++ crlf) new_session in
  no_command_at (data args) 0 /\
  exists asd' n dd',
    Pop3ClientDetector_validate false args = Ok (APPID_SUCCESS, asd') n /\
    flow_data asd' = Some dd' /\
    need_continue dd' = false /\
    get_session_flags APPID_SESSION_CLIENT_DETECTED asd' = true /\
    calls asd' =
      [set_session_flags_call APPID_SESSION_CLIENT_GETS_SERVER_PACKETS;
       set_session_flags_call APPID_SESSION_CLIENT_DETECTED].
Proof.
  cbv zeta. split; [exact no_command_in_http_request|].
  destruct unrecognised_command_ends_detection as [_ H].
  apply (H false (from_client (bytes "GET / HTTP/1.1" ++ crlf) new_session) eq_refl).
  - cbv. discriminate.
  - exact no_command_in_http_request.
Defined.

Lemma response_count_increments_witness :
  exists r dd' asd' n,
    pop3_server_validate calloc_POP3DetectorData (bytes "+OK hi" ++ crlf) new_session true
      = Ok (r, dd', asd') n /\
    (count (server dd') = count (server calloc_POP3DetectorData) \/
     (count (server dd') = ((count (server calloc_POP3DetectorData) + 1) mod 2 ^ 32)%Z /\
      r = 0%Z /\
      (status_ends_payload calloc_POP3DetectorData (bytes "+OK hi" ++ crlf) \/
       terminator_ends_payload (bytes "+OK hi" ++ crlf)))).
Proof.
  destruct (response_count_increments calloc_POP3DetectorData (bytes "+OK hi" ++ crlf)
              new_session true) as [Htotal Honly].
  destruct (Htotal ltac:(cbn; lia)) as (r & dd' & asd' & n & Heq).
  exists r, dd', asd', n. split; [exact Heq|]. apply (Honly _ _ _ _ Heq).
Defined.

Lemma username_capture_bound_witness :
  value (username_loop (bytes "alice" ++ crlf) 7 0 [] false (client calloc_POP3DetectorData))
    = Some (5, with_username (client calloc_POP3DetectorData) (Some (bytes "alice"))) /\
  value (username_loop (long_name ++ crlf) 254 0 [] false (client calloc_POP3DetectorData))
    = Some (248, client calloc_POP3DetectorData) /\
  exists r asd' n,
    Pop3ClientDetector_validate false (from_client (bytes "PASS alice" ++ crlf) new_session)
      = Ok (r, asd') n.
Proof.
  destruct username_capture_bound as (_ & Hsave & Hdrop & Hany).
  split; [|split].
  - apply (Hsave (bytes "alice" ++ crlf) (client calloc_POP3DetectorData)
             (bytes "alice") CR 0 [LF]).
    + repeat constructor.
    + discriminate.
    + cbv. lia.
    + left. reflexivity.
    + reflexivity.
  - apply (Hdrop (long_name ++ crlf) (client calloc_POP3DetectorData) long_name 0 crlf).
    + apply Forall_forall. intros c Hc. apply repeat_spec in Hc. subst. reflexivity.
    + cbv. lia.
    + reflexivity.
  - destruct (Hany false (from_client (bytes "PASS alice" ++ crlf) new_session) eq_refl)
      as (r & asd' & n & Heq & _).
    exists r, asd', n. exact Heq.
Defined.

Lemma continue_split_neutral_witness :
  let p1 := bytes "1 120" ++ crlf in
  let p2 := bytes "." ++ crlf in
  ends_with_crlf p1 /\ p2 <> [] /\
  exists r dd2 asd2 n2 n,
    pop3_server_validate in_body p2 new_session true = Ok (r, dd2, asd2) n2 /\
    pop3_server_validate in_body (p1 ++ p2) new_session true = Ok (r, dd2, asd2) n.
Proof.
  cbv zeta.
  assert (Hcrlf : ends_with_crlf (bytes "1 120" ++ crlf)) by (exists (bytes "1 120"); reflexivity).
  split; [exact Hcrlf|]. split; [discriminate|].
  apply (continue_split_neutral in_body (bytes "1 120" ++ crlf) (bytes "." ++ crlf)
           new_session true in_body new_session 7).
  - reflexivity.
  - vm_compute. reflexivity.
  - reflexivity.
  - exact Hcrlf.
  - discriminate.
Defined.

Lemma client_parser_terminates_in_bounds_witness :
  (exists r asd' n,
     Pop3ClientDetector_validate false
       (from_client (bytes "USER alice" ++ crlf ++ bytes "PASS secret" ++ crlf) new_session)
     = Ok (r, asd') n /\ n <= 3 * 25) /\
  (exists r dd' asd' n,
     client_command false (bytes "CAPA" ++ [LF]) 5 0 calloc_POP3DetectorData new_session
     = Ok (r, dd', asd') n /\ n <= 3 * (5 - 0) /\
     forall s', r = Continue s' -> 0 < s' <= 5).
Proof.
  destruct client_parser_terminates_in_bounds as [Hvalidate Hturn].
  split.
  - apply (Hvalidate false
             (from_client (bytes "USER alice" ++ crlf ++ bytes "PASS secret" ++ crlf)
                new_session)).
    reflexivity.
  - apply (Hturn false (bytes "CAPA" ++ [LF]) 0 calloc_POP3DetectorData new_session).
    cbn. lia.
Defined.

(** ** The server parser: what a call can change *)

Lemma same_banner_refl pd : same_banner pd pd.
Proof. repeat split. Qed.

Lemma continue_outcome_effect buf data pd r pd' :
  continue_outcome buf data pd r pd' ->
  (r = 0 \/ r = -1)%Z /\ same_banner pd pd' /\ error pd' = error pd /\
  (sstate pd <> POP3_STATE_CONNECT -> sstate pd' <> POP3_STATE_CONNECT).
Proof.
  intros [r0 Hr | d Hw Hd Hs].
  - split; [exact Hr|]. split; [apply same_banner_refl|]. split; auto.
  - split; [left; reflexivity|]. split; [repeat split|]. split; [reflexivity|].
    intros _. cbn. discriminate.
Qed.

Lemma after_status_effect buf d pd r pd' :
  after_status buf d pd r pd' ->
  (r = 0 \/ r = -1)%Z /\ same_banner pd pd' /\ error pd' = error pd /\
  (sstate pd <> POP3_STATE_CONNECT -> sstate pd' <> POP3_STATE_CONNECT).
Proof.
  intros [Hd | r0 pd0 Hd Hc].
  - split; [left; reflexivity|]. split; [repeat split|]. split; [reflexivity|].
    cbn. auto.
  - apply continue_outcome_effect in Hc. destruct Hc as (Hr & Hb & He & Hs).
    split; [exact Hr|]. split; [exact Hb|]. split; [exact He|].
    intros _. apply Hs. cbn. discriminate.
Qed.

Lemma correlate_server dd asd dd1 asd1 :
  correlate dd asd = (dd1, asd1) -> server dd1 = server dd.
Proof. intros H. apply correlate_calls_spec in H. tauto. Qed.

Lemma response_outcome_effect dd buf asd server_arg begin r dd' asd' :
  response_outcome dd buf asd server_arg begin r dd' asd' ->
  (r = 0 \/ r = -1)%Z /\
  client_side_effect dd asd dd' asd' /\
  (sstate (server dd) <> POP3_STATE_CONNECT -> sstate (server dd') <> POP3_STATE_CONNECT) /\
  (server_arg = false \/ begin = None \/ status_of buf <> Some false ->
   same_banner (server dd) (server dd')).
Proof.
  intros H.
  destruct H as [r Hb H0 H1 Hr | Hs | Hu | err rl d Hso Hl Hn
                | err rl d dd1 asd1 pd1 r pd' Hlen Hso Hl Hp Hc Hbanner Hsame Ha].
  - split; [exact Hr|]. split; [left; auto|]. split; [auto|]. intros _. apply same_banner_refl.
  - split; [right; reflexivity|]. split; [left; auto|]. split; [auto|].
    intros _. apply same_banner_refl.
  - split; [right; reflexivity|]. split; [left; auto|]. split; [auto|].
    intros _. apply same_banner_refl.
  - split; [right; reflexivity|]. split; [left; auto|]. split; [auto|].
    intros _. repeat split.
  - apply after_status_effect in Ha. destruct Ha as (Hr & Hb & He & Hst).
    pose proof (correlate_server _ _ _ _ Hc) as Hsrv. cbn in Hsrv.
    destruct Hsame as (Hs1 & Hs2 & Hs3).
    split; [exact Hr|]. split.
    { right. exists (with_server dd (with_error (server dd) err)), dd1.
      split; [reflexivity|]. split; [reflexivity|]. split; [exact Hc|].
      split; reflexivity. }
    split.
    { intros Hne. cbn. apply Hst. rewrite Hs1, Hsrv. cbn. exact Hne. }
    intros Hcase. cbn.
    assert (Hpd1 : pd1 = server dd1).
    { apply Hbanner. destruct Hcase as [Hcase|[Hcase|Hcase]]; auto.
      right; right. destruct err; [reflexivity|congruence]. }
    subst pd1. rewrite Hsrv in Hb. destruct Hb as (B1 & B2 & B3).
    repeat split; assumption.
Qed.

(** Every way through pop3_server_validate. *)
Lemma server_effect dd buf asd server_arg r dd' asd' n :
  pop3_server_validate dd buf asd server_arg = Ok (r, dd', asd') n ->
  (r = 0 \/ r = -1)%Z /\
  client_side_effect dd asd dd' asd' /\
  sstate (server dd') <> POP3_STATE_CONNECT /\
  (sstate (server dd) <> POP3_STATE_CONNECT \/ server_arg = false \/
   status_of buf <> Some false ->
   same_banner (server dd) (server dd')).
Proof.
  intros Heq. apply pop3_server_validate_outcome in Heq.
  destruct Heq as [r dd' asd' Hst H | r dd' asd' Hst H | r pd' Hst H].
  - apply response_outcome_effect in H. destruct H as (Hr & Hc & Hs & Hb).
    split; [exact Hr|]. split.
    { destruct Hc as [Hc|(ddR & dd1 & H1 & H2 & H3)]; [left; exact Hc|].
      right. exists ddR, dd1. exact (conj H1 (conj H2 H3)). }
    split.
    { apply Hs. cbn. discriminate. }
    intros [Hcase|[Hcase|Hcase]]; [congruence| |]; (apply Hb; auto).
  - apply response_outcome_effect in H. destruct H as (Hr & Hc & Hs & Hb).
    split; [exact Hr|]. split; [exact Hc|]. split.
    { apply Hs. congruence. }
    intros _. apply Hb; auto.
  - apply continue_outcome_effect in H. destruct H as (Hr & Hb & He & Hs).
    split; [exact Hr|]. split; [left; auto|]. split.
    { cbn. apply Hs. congruence. }
    intros _. exact Hb.
Qed.

Lemma continue_outcome_count buf data pd r pd' :
  continue_outcome buf data pd r pd' -> count_step pd pd'.
Proof.
  intros [r0 Hr | d Hw Hd Hs]; [left; reflexivity|right; reflexivity].
Qed.

Lemma after_status_count buf d pd r pd' :
  after_status buf d pd r pd' -> count_step pd pd'.
Proof.
  intros [Hd | r0 pd0 Hd Hc]; [right; reflexivity|].
  apply continue_outcome_count in Hc. exact Hc.
Qed.

Lemma response_outcome_count dd buf asd server_arg begin r dd' asd' :
  response_outcome dd buf asd server_arg begin r dd' asd' ->
  count_step (server dd) (server dd').
Proof.
  intros H.
  destruct H as [r Hb H0 H1 Hr | Hs | Hu | err rl d Hso Hl Hn
                | err rl d dd1 asd1 pd1 r pd' Hlen Hso Hl Hp Hc Hbanner Hsame Ha];
    try (left; reflexivity).
  apply after_status_count in Ha.
  pose proof (correlate_server _ _ _ _ Hc) as Hsrv. cbn in Hsrv.
  destruct Hsame as (_ & Hcount & _). rewrite Hsrv in Hcount. cbn in Hcount.
  unfold count_step in *. cbn. rewrite Hcount in Ha. exact Ha.
Qed.

Lemma server_count_step dd buf asd server_arg r dd' asd' n :
  pop3_server_validate dd buf asd server_arg = Ok (r, dd', asd') n ->
  count_step (server dd) (server dd').
Proof.
  intros Heq. apply pop3_server_validate_outcome in Heq.
  destruct Heq as [r dd' asd' Hst H | r dd' asd' Hst H | r pd' Hst H].
  - apply response_outcome_count in H. exact H.
  - apply response_outcome_count in H. exact H.
  - apply continue_outcome_count in H. exact H.
Qed.

(** ** The server parser: reads, return codes, the greeting *)

Lemma over_read_dec dd buf : over_read dd buf \/ ~ over_read dd buf.
Proof.
  unfold over_read.
  destruct (sstate (server dd)); try (right; intros [H _]; discriminate).
  destruct buf as [|c [|c' buf]].
  - left; auto.
  - destruct (Z.eq_dec c (chr "+")) as [->|Hne].
    + left; auto.
    + right. intros [_ [H|H]]; [discriminate|]. inversion H. contradiction.
  - right. intros [_ [H|H]]; discriminate.
Qed.

(** Outside these payloads the parser finishes. *)
Lemma server_parser_finishes dd buf asd server_arg :
  ~ over_read dd buf ->
  exists r dd' asd' n, pop3_server_validate dd buf asd server_arg = Ok (r, dd', asd') n.
Proof.
  intros Hno.
  assert (Hok : exists x n, pop3_server_validate dd buf asd server_arg = Ok x n).
  { destruct (Nat.le_gt_cases 2 (List.length buf)) as [Hlen|Hlen].
    - pose proof (pop3_server_validate_wp dd buf asd server_arg Hlen) as Hw.
      apply wp_ok in Hw. destruct Hw as (x & n & Hx & _). eauto.
    - unfold over_read in Hno. unfold pop3_server_validate.
      destruct (sstate (server dd)) eqn:Est.
      + destruct buf as [|c [|c' buf]]; [| |simpl in Hlen; lia];
          eexists; eexists; reflexivity.
      + destruct buf as [|c [|c' buf]]; [| |simpl in Hlen; lia].
        * exfalso. apply Hno. auto.
        * unfold response_case. cbn [Nat.add]. unfold load at 1. cbn [nth_error].
          unfold bind at 1. unfold bind at 1.
          destruct (is_chr c "+") eqn:Ec.
          -- exfalso. apply Hno. split; [reflexivity|]. right.
             unfold is_chr in Ec. apply Z.eqb_eq in Ec. subst c. reflexivity.
          -- eexists; eexists; reflexivity.
      + pose proof (continue_loop_wp buf (List.length buf) 0 (server dd)
                      ltac:(lia) ltac:(lia)) as Hw.
        apply wp_ok in Hw. destruct Hw as ([r pd'] & n & Hx & _).
        rewrite Hx. eexists; eexists; reflexivity. }
  destruct Hok as ([[r dd'] asd'] & n & Hx). eauto.
Qed.

(** X1.  pop3_server_validate reads inside the payload and returns 0 or -1,
    for every flow data, session and payload but these: in RESPONSE state
    an empty payload, or the one-byte payload "+", makes the test
    [data[0] == '+' && data[1] == ' '] read a byte past the payload. *)
Theorem server_parser_reads_in_bounds dd buf asd server_arg :
  (over_read dd buf -> pop3_server_validate dd buf asd server_arg = OutOfBounds) /\
  (~ over_read dd buf ->
   exists r dd' asd' n,
     pop3_server_validate dd buf asd server_arg = Ok (r, dd', asd') n /\
     (r = 0 \/ r = -1)%Z).
Proof.
  split.
  - intros [Hst [-> | ->]]; unfold pop3_server_validate; rewrite Hst; reflexivity.
  - intros Hno.
    destruct (server_parser_finishes dd buf asd server_arg Hno)
      as (r & dd' & asd' & n & Hx).
    exists r, dd', asd', n. split; [exact Hx|].
    apply server_effect in Hx. tauto.
Qed.

(** X2.  A line that starts with "+ " in RESPONSE state (a continuation
    request of an authentication exchange) is accepted exactly when the
    payload is that one line, printable bytes ended by CR LF; accepted or
    not, the flow data and the session are left as they were: the line is
    not counted as a response and no call is made. *)
Theorem sasl_continuation_line dd buf asd server_arg :
  sstate (server dd) = POP3_STATE_RESPONSE ->
  sub buf 0 2 = bytes "+ " ->
  exists r n,
    pop3_server_validate dd buf asd server_arg = Ok (r, dd, asd) n /\
    (r = 0 \/ r = -1)%Z /\
    (r = 0%Z <-> line_result buf 2 (List.length buf) 0 (List.length buf)).
Proof.
  intros Hst Hpre.
  apply (sub_0_prefix buf (bytes "+ ")) in Hpre. destruct Hpre as [rest ->].
  set (buf := bytes "+ " ++ rest).
  assert (Hlen : 2 <= List.length buf) by (subst buf; cbn; lia).
  pose proof (pop3_check_line_wp buf 2 (List.length buf) Hlen (Nat.le_refl _)) as Hw.
  apply wp_ok in Hw. destruct Hw as ([rl d] & k & Hline & Hres & _). cbn [fst snd] in Hres.
  unfold pop3_server_validate. rewrite Hst. unfold response_case. cbn [Nat.add].
  change (load buf 0) with (Ok (chr "+") 1).
  change (load buf 1) with (Ok (chr " ") 1).
  unfold bind at 2. unfold bind at 2.
  change (is_chr (chr "+") "+") with true. cbv iota.
  change (ret (is_chr (chr " ") " ")) with (Ok true 0). cbv iota.
  unfold bind at 1. cbv iota. rewrite Hline. unfold bind at 1.
  destruct (Z.eqb_spec rl 0) as [Hz|Hnz]; cbn [negb].
  - subst rl. destruct (Nat.eqb_spec d (List.length buf)) as [Hd|Hd]; cbn [negb].
    + subst d. do 2 eexists. split; [reflexivity|]. split; [left; reflexivity|].
      split; [intros _; exact Hres|reflexivity].
    + do 2 eexists. split; [reflexivity|]. split; [right; reflexivity|].
      split; [discriminate|].
      intros H. destruct (line_result_fun _ _ _ _ _ _ _ Hres H) as [_ Heq]. contradiction.
  - do 2 eexists. split; [reflexivity|]. split; [right; reflexivity|].
    split; [discriminate|].
    intros H. destruct (line_result_fun _ _ _ _ _ _ _ Hres H) as [Heq _]. contradiction.
Qed.

Lemma sasl_continuation_line_witness :
  exists r n,
    pop3_server_validate alice_flow (bytes "+ PDEyMz4=" ++ crlf) new_session true
      = Ok (r, alice_flow, new_session) n /\
    (r = 0 \/ r = -1)%Z /\
    (r = 0%Z <-> line_result (bytes "+ PDEyMz4=" ++ crlf) 2 12 0 12).
Proof.
  exact (sasl_continuation_line alice_flow (bytes "+ PDEyMz4=" ++ crlf) new_session true
           eq_refl eq_refl).
Defined.

(** X3.  The banner is taken from the greeting only.  After any call the
    server state is not CONNECT, and a call that does not start in CONNECT
    state, or is made for the client detector ([server] = 0), or is given a
    payload that does not start with "+OK", leaves vendor, version and
    subtype list as they were. *)
Theorem banner_set_only_by_greeting dd buf asd server_arg r dd' asd' n :
  pop3_server_validate dd buf asd server_arg = Ok (r, dd', asd') n ->
  sstate (server dd') <> POP3_STATE_CONNECT /\
  (sstate (server dd) <> POP3_STATE_CONNECT \/ server_arg = false \/
   status_of buf <> Some false ->
   vendor (server dd') = vendor (server dd) /\
   version (server dd') = version (server dd) /\
   subtype (server dd') = subtype (server dd)).
Proof.
  intros H. apply server_effect in H. destruct H as (_ & _ & Hs & Hb).
  split; [exact Hs|]. exact Hb.
Qed.

(** ** The version copied out of the greeting *)

Lemma store_length l : forall i x, List.length (store l i x) = List.length l.
Proof. induction l as [|c l IH]; intros [|i] x; simpl; auto. Qed.

Lemma store_firstn l : forall i x, firstn i (store l i x) = firstn i l.
Proof. induction l as [|c l IH]; intros [|i] x; simpl; auto. f_equal. apply IH. Qed.

Lemma store_firstn_S l : forall i x,
  i < List.length l -> firstn (S i) (store l i x) = firstn i l ++ [x].
Proof.
  induction l as [|c l IH]; intros [|i] x Hi; simpl in *; try lia; auto.
  f_equal. apply IH. lia.
Qed.

Lemma c_str_firstn_nul l : forall i,
  i < List.length l -> Forall (fun c => c <> NUL) (firstn i l) ->
  c_str (store l i NUL) = firstn i l.
Proof.
  induction l as [|c l IH]; intros [|i] Hi Hall; simpl in *; try lia; auto.
  inversion Hall; subst.
  destruct (Z.eqb_spec c NUL); [contradiction|]. f_equal. apply IH; [lia|assumption].
Qed.

(** The copy loop over a token that a [stop] byte ends before [line_end]:
    the first [v_end - v] bytes of the token go to the array from [v] on,
    the others are dropped. *)
Lemma copy_until_token stop : forall t pre post ver v dist,
  token_bytes stop t -> List.length t < dist ->
  List.length ver = MAX_VERSION_SIZE -> v <= v_end ->
  exists ver',
    copy_until stop (pre ++ t ++ stop :: post) dist (List.length pre) ver v
      = Ok (List.length pre + List.length t, ver', Nat.min v_end (v + List.length t))
           (S (List.length t)) /\
    List.length ver' = MAX_VERSION_SIZE /\
    firstn (Nat.min v_end (v + List.length t)) ver' = firstn v ver ++ firstn (v_end - v) t.
Proof.
  induction t as [|c t IH]; intros pre post ver v dist Htok Hdist Hver Hv.
  - destruct dist as [|d]; [simpl in Hdist; lia|]. cbn [copy_until app List.length].
    unfold load. rewrite nth_error_app2 by lia. rewrite Nat.sub_diag. cbn [nth_error].
    unfold bind. rewrite Z.eqb_refl. rewrite andb_false_r.
    exists ver. rewrite !Nat.add_0_r. rewrite Nat.min_r by lia.
    split; [reflexivity|]. split; [exact Hver|].
    rewrite firstn_nil, app_nil_r. reflexivity.
  - destruct dist as [|d]; [simpl in Hdist; lia|]. cbn [copy_until].
    inversion Htok as [|c0 t0 [Hc1 Hc2] Htok']; subst.
    unfold load. rewrite nth_error_app2 by lia. rewrite Nat.sub_diag. cbn [nth_error app].
    unfold bind at 1.
    destruct (Z.eqb_spec c NUL); [contradiction|].
    destruct (Z.eqb_spec c stop); [contradiction|]. cbn [negb andb].
    assert (Hbuf : pre ++ c :: t ++ stop :: post = (pre ++ [c]) ++ t ++ stop :: post).
    { rewrite <- app_assoc. reflexivity. }
    assert (Hpos : S (List.length pre) = List.length (pre ++ [c])).
    { rewrite length_app. simpl. lia. }
    cbn [List.length] in Hdist.
    destruct (Nat.ltb_spec v v_end) as [Hlt|Hge].
    + destruct (IH (pre ++ [c]) post (store ver v c) (S v) d Htok' ltac:(lia)
                  ltac:(rewrite store_length; exact Hver) ltac:(lia))
        as (ver' & Heq & Hlen & Hfirst).
      rewrite Hbuf, Hpos, Heq. exists ver'.
      cbn [List.length]. rewrite length_app. cbn [List.length].
      replace (S v + List.length t) with (v + S (List.length t)) in * by lia.
      split.
      { replace (List.length pre + 1 + List.length t)
          with (List.length pre + S (List.length t)) by lia. reflexivity. }
      split; [exact Hlen|].
      rewrite Hfirst. rewrite store_firstn_S by (unfold v_end, MAX_VERSION_SIZE in *; lia).
      rewrite <- app_assoc. f_equal.
      replace (v_end - v) with (S (v_end - S v)) by lia. reflexivity.
    + destruct (IH (pre ++ [c]) post ver v d Htok' ltac:(lia) Hver Hv)
        as (ver' & Heq & Hlen & Hfirst).
      rewrite Hbuf, Hpos, Heq. exists ver'.
      cbn [List.length]. rewrite length_app. cbn [List.length].
      assert (v = v_end) by lia. subst v.
      rewrite Nat.min_l in Heq, Hfirst by lia. rewrite Nat.min_l by lia.
      split.
      { replace (List.length pre + 1 + List.length t)
          with (List.length pre + S (List.length t)) by lia. reflexivity. }
      split; [exact Hlen|].
      rewrite Nat.min_l by lia.
      rewrite Hfirst. rewrite Nat.sub_diag. reflexivity.
Qed.

Lemma token_bytes_nonzero stop t k :
  token_bytes stop t -> Forall (fun c => c <> NUL) (firstn k t).
Proof.
  intros H. unfold token_bytes in H.
  rewrite <- (firstn_skipn k t) in H. apply Forall_app in H. destruct H as [H _].
  eapply Forall_impl; [|exact H]. cbv beta. tauto.
Qed.

(** The version copy of the cppop and Cubic Circle branches, on a token
    that its [stop] byte ends before [line_end]. *)
Lemma copy_version_token stop t pre post line_end pd :
  token_bytes stop t -> stop <> NUL ->
  List.length pre + List.length t < line_end ->
  version_array pd ->
  exists ver' n,
    copy_version stop (pre ++ t ++ stop :: post) (List.length pre) line_end pd
      = Ok (with_version pd ver') n /\
    c_str ver' = firstn v_end t /\ List.length ver' = MAX_VERSION_SIZE.
Proof.
  intros Htok Hstop Hend Hver. unfold copy_version.
  destruct (copy_until_token stop t pre post (version pd) 0 (line_end - List.length pre)
              Htok ltac:(lia) Hver ltac:(lia)) as (ver' & Heq & Hlen & Hfirst).
  rewrite Heq. unfold bind at 1. unfold nonzero_at.
  destruct (Nat.ltb_spec (List.length pre + List.length t) line_end) as [_|]; [|lia].
  unfold load. rewrite app_assoc. rewrite nth_error_app2 by (rewrite length_app; lia).
  rewrite length_app. rewrite Nat.sub_diag. cbn [nth_error]. unfold bind.
  destruct (Z.eqb_spec stop NUL); [contradiction|]. cbn [negb].
  cbn [Nat.add] in *. rewrite Nat.sub_0_r in Hfirst. cbn [firstn app] in Hfirst.
  do 2 eexists. split; [reflexivity|]. split.
  - rewrite c_str_firstn_nul.
    + exact Hfirst.
    + rewrite Hlen. unfold v_end, MAX_VERSION_SIZE. lia.
    + rewrite Hfirst. eapply token_bytes_nonzero. exact Htok.
  - rewrite store_length. exact Hlen.
Qed.

Lemma sub_sub_prefix (buf : list Z) len j k :
  j + k <= len -> sub (sub buf 0 len) j k = sub buf j k.
Proof.
  intros H. unfold sub. cbn [skipn].
  rewrite skipn_firstn_comm. rewrite firstn_firstn. f_equal. lia.
Qed.

Lemma find_seq_first (f : nat -> bool) i : forall len start,
  start <= i < start + len ->
  (forall j, start <= j < i -> f j = false) -> f i = true ->
  find f (seq start len) = Some i.
Proof.
  induction len as [|len IH]; intros start Hi Hbefore Hat; [lia|].
  cbn [seq find]. destruct (Nat.eq_dec start i) as [->|Hne].
  - rewrite Hat. reflexivity.
  - rewrite Hbefore by lia. apply IH; [lia| |exact Hat].
    intros j Hj. apply Hbefore. lia.
Qed.

(** The first occurrence, when it is known where it is. *)
Lemma service_strstr_first buf len needle i :
  needle <> [] ->
  i + List.length needle <= len ->
  sub buf i (List.length needle) = needle ->
  (forall j, j < i -> bytes_eqb needle (sub buf j (List.length needle)) = false) ->
  service_strstr buf 0 len needle = Some i.
Proof.
  intros Hne Hi Hat Hbefore. unfold service_strstr.
  rewrite (find_seq_first _ i).
  - reflexivity.
  - destruct needle; [contradiction|]. simpl in Hi. lia.
  - intros j Hj. rewrite sub_sub_prefix by lia. apply Hbefore. lia.
  - rewrite sub_sub_prefix by lia. rewrite Hat. apply bytes_eqb_refl.
Qed.

Lemma printable_line body d :
  Forall (fun c => isprint c = true) body -> d <= List.length body ->
  line_result (body ++ crlf) d (List.length (body ++ crlf)) 0 (List.length (body ++ crlf)).
Proof.
  intros Hp Hd. rewrite length_app. cbn [crlf List.length].
  replace (List.length body + 2) with (d + (List.length body - d) + 2) by lia.
  apply line_terminated.
  - lia.
  - intros i Hi. destruct (nth_error body i) as [c|] eqn:Ec.
    + exists c. split.
      * rewrite nth_error_app1 by lia. exact Ec.
      * rewrite Forall_forall in Hp. apply Hp. eapply nth_error_In. exact Ec.
    + apply nth_error_None in Ec. lia.
  - rewrite nth_error_app2 by lia.
    replace (d + (List.length body - d) - List.length body) with 0 by lia. reflexivity.
  - rewrite nth_error_app2 by lia.
    replace (d + (List.length body - d) + 1 - List.length body) with 1 by lia. reflexivity.
Qed.

(** X4.  The cppop branch of the greeting scan.  For a greeting
    "+OK cppop " t "]" rest CR LF in which [t] has no "]" and all bytes are
    printable, the parser returns 0 with vendor "cppop" and, as version, the
    first 63 bytes of [t]: a longer token is cut to the 63 bytes that the
    array holds besides its terminating NUL, and nothing is written past
    the array. *)
Theorem cppop_version_captured dd asd t rest :
  sstate (server dd) = POP3_STATE_CONNECT ->
  version_array (server dd) ->
  Forall (fun c => isprint c = true /\ c <> chr "]") t ->
  Forall (fun c => isprint c = true) rest ->
  exists dd' asd' n,
    pop3_server_validate dd (bytes "+OK cppop " ++ t ++ chr "]" :: rest ++ crlf) asd true
      = Ok (0%Z, dd', asd') n /\
    vendor (server dd') = Some ven_cppop /\
    c_str (version (server dd')) = firstn (MAX_VERSION_SIZE - 1) t /\
    version_array (server dd').
Proof.
  intros Hst Hver Ht Hrest.
  set (body := bytes "+OK cppop " ++ t ++ chr "]" :: rest).
  set (buf := bytes "+OK cppop " ++ t ++ chr "]" :: rest ++ crlf).
  assert (Hbuf : buf = body ++ crlf).
  { subst buf body. rewrite <- app_assoc. cbn [app]. rewrite <- app_assoc. reflexivity. }
  assert (Hbody : Forall (fun c => isprint c = true) body).
  { subst body. apply Forall_app. split.
    - repeat constructor.
    - apply Forall_app. split.
      + eapply Forall_impl; [|exact Ht]. cbv beta. tauto.
      + constructor; [reflexivity|exact Hrest]. }
  assert (Hlenb : List.length body = 10 + List.length t + 1 + List.length rest).
  { subst body. rewrite length_app. cbn [bytes List.length map list_ascii_of_string].
    rewrite length_app. cbn [List.length]. lia. }
  assert (Hlen : List.length buf = List.length body + 2).
  { rewrite Hbuf, length_app. reflexivity. }
  assert (Htok : token_bytes (chr "]") t).
  { eapply Forall_impl; [|exact Ht]. cbv beta. intros c [Hp Hc]. split; [|exact Hc].
    intros ->. discriminate. }
  enough (Hw : wp (pop3_server_validate dd buf asd true)
                  (fun x _ => fst (fst x) = 0%Z /\
                     vendor (server (snd (fst x))) = Some ven_cppop /\
                     c_str (version (server (snd (fst x)))) = firstn (MAX_VERSION_SIZE - 1) t /\
                     version_array (server (snd (fst x))))).
  { apply wp_ok in Hw. destruct Hw as ([[r dd'] asd'] & n & Heq & Hr & Hq).
    cbn [fst snd] in *. subst r. exists dd', asd', n. split; [exact Heq|exact Hq]. }
  unfold pop3_server_validate. rewrite Hst. unfold response_case. cbn [Nat.add].
  apply wp_bind. apply wp_ret. cbv iota.
  destruct (Nat.ltb_spec (List.length buf) (sizeof POP3_ERR)) as [Hsmall|_].
  { change (sizeof POP3_ERR) with 5 in Hsmall. lia. }
  apply wp_bind. apply load_n_wp; [|cbn; lia].
  change (sub buf 0 (sizeof POP3_OK - 1)) with POP3_OK.
  rewrite bytes_eqb_refl.
  apply wp_bind. apply wp_ret.
  apply wp_bind. eapply wp_mono; [apply pop3_check_line_wp; cbn; lia|].
  intros [rl d] k [Hline _]. cbn [fst snd] in Hline.
  pose proof (printable_line body 3 Hbody ltac:(lia)) as Hline'.
  rewrite <- Hbuf in Hline'. change (0 + (sizeof POP3_OK - 1)) with 3 in Hline.
  destruct (line_result_fun _ _ _ _ _ _ _ Hline Hline') as [-> ->].
  change (0 <? 0)%Z with false. cbv iota.
  destruct (correlate _ asd) as [dd1 asd1] eqn:Ec.
  pose proof (correlate_server _ _ _ _ Ec) as Hsrv. cbn in Hsrv.
  apply wp_bind.
  assert (Hg : wp (scan_greeting buf 0 (List.length buf - 1) (server dd1))
                  (fun pd _ => vendor pd = Some ven_cppop /\
                     c_str (version pd) = firstn (MAX_VERSION_SIZE - 1) t /\
                     version_array pd)).
  { unfold scan_greeting. rewrite Nat.sub_0_r.
    rewrite (service_strstr_first buf (List.length buf - 1) ven_cppop 4).
    - change (4 + (sizeof ven_cppop - 1)) with 9.
      apply wp_bind. apply load_wp; [|lia]. intros c Hc.
      change (nth_error buf 9) with (Some (chr " ")) in Hc. inversion Hc; subst c.
      change (is_chr (chr " ") " ") with true. cbv iota.
      change buf with ((bytes "+OK cppop ") ++ t ++ chr "]" :: rest ++ crlf).
      change 10 with (List.length (bytes "+OK cppop ")).
      destruct (copy_version_token (chr "]") t (bytes "+OK cppop ") (rest ++ crlf)
                  (List.length buf - 1) (with_vendor (server dd1) (Some ven_cppop))
                  Htok ltac:(discriminate) ltac:(cbn [bytes List.length map list_ascii_of_string]; lia))
        as (ver' & n' & Heq & Hc1 & Hc2).
      { unfold version_array. cbn. rewrite Hsrv. cbn. exact Hver. }
      unfold buf in Heq. unfold buf. rewrite Heq. unfold wp. cbn. auto.
    - discriminate.
    - cbn. lia.
    - reflexivity.
    - intros j Hj. destruct j as [|[|[|[|j]]]]; try lia; reflexivity. }
  eapply wp_mono; [exact Hg|]. intros pd1 k2 (Hv1 & Hv2 & Hv3).
  rewrite Nat.leb_refl.
  apply wp_ret. cbn [fst snd]. split; [reflexivity|]. cbn. auto.
Qed.

Lemma cppop_version_captured_witness :
  exists dd' asd' n,
    pop3_server_validate calloc_POP3DetectorData
      (bytes "+OK cppop " ++ repeat (chr "7") 70 ++ chr "]" :: bytes " ready" ++ crlf)
      new_session true
      = Ok (0%Z, dd', asd') n /\
    vendor (server dd') = Some ven_cppop /\
    c_str (version (server dd')) = firstn (MAX_VERSION_SIZE - 1) (repeat (chr "7") 70) /\
    version_array (server dd').
Proof.
  apply (cppop_version_captured calloc_POP3DetectorData new_session
           (repeat (chr "7") 70) (bytes " ready")).
  - reflexivity.
  - reflexivity.
  - apply Forall_forall. intros c Hc. apply repeat_spec in Hc. subst c.
    split; [reflexivity|discriminate].
  - repeat constructor.
Defined.

(** The copy loop over bytes that reach [line_end] without a [stop] byte. *)
Lemma copy_until_exhaust stop : forall t pre post ver v,
  token_bytes stop t -> List.length ver = MAX_VERSION_SIZE ->
  exists ver' v',
    copy_until stop (pre ++ t ++ post) (List.length t) (List.length pre) ver v
      = Ok (List.length pre + List.length t, ver', v') (List.length t) /\
    List.length ver' = MAX_VERSION_SIZE.
Proof.
  induction t as [|c t IH]; intros pre post ver v Htok Hver.
  - cbn [copy_until List.length]. exists ver, v. rewrite Nat.add_0_r. auto.
  - cbn [copy_until List.length].
    inversion Htok as [|c0 t0 [Hc1 Hc2] Htok']; subst.
    unfold load. rewrite nth_error_app2 by lia. rewrite Nat.sub_diag. cbn [nth_error app].
    unfold bind at 1.
    destruct (Z.eqb_spec c NUL); [contradiction|].
    destruct (Z.eqb_spec c stop); [contradiction|]. cbn [negb andb].
    assert (Hbuf : pre ++ c :: t ++ post = (pre ++ [c]) ++ t ++ post).
    { rewrite <- app_assoc. reflexivity. }
    assert (Hpos : S (List.length pre) = List.length (pre ++ [c])).
    { rewrite length_app. simpl. lia. }
    destruct (v <? v_end).
    + destruct (IH (pre ++ [c]) post (store ver v c) (S v) Htok'
                  ltac:(rewrite store_length; exact Hver)) as (ver' & v' & Heq & Hlen).
      rewrite Hbuf, Hpos, Heq. exists ver', v'. rewrite length_app. cbn [List.length].
      split; [|exact Hlen].
      replace (List.length pre + 1 + List.length t)
        with (List.length pre + S (List.length t)) by lia. reflexivity.
    + destruct (IH (pre ++ [c]) post ver v Htok' Hver) as (ver' & v' & Heq & Hlen).
      rewrite Hbuf, Hpos, Heq. exists ver', v'. rewrite length_app. cbn [List.length].
      split; [|exact Hlen].
      replace (List.length pre + 1 + List.length t)
        with (List.length pre + S (List.length t)) by lia. reflexivity.
Qed.

Lemma c_str_store_0 ver : c_str (store ver 0 NUL) = [].
Proof. destruct ver; reflexivity. Qed.

(** X5.  The cppop branch without the closing bracket.  For a greeting
    "+OK cppop " t CR LF in which [t] has no "]", the copy loop runs to the
    end of the line and the version is then emptied ([pd->version[0] = 0]):
    the vendor is "cppop" and no version is kept. *)
Theorem cppop_version_needs_bracket dd asd t :
  sstate (server dd) = POP3_STATE_CONNECT ->
  version_array (server dd) ->
  Forall (fun c => isprint c = true /\ c <> chr "]") t ->
  exists dd' asd' n,
    pop3_server_validate dd (bytes "+OK cppop " ++ t ++ crlf) asd true
      = Ok (0%Z, dd', asd') n /\
    vendor (server dd') = Some ven_cppop /\
    c_str (version (server dd')) = [] /\
    version_array (server dd').
Proof.
  intros Hst Hver Ht.
  set (body := bytes "+OK cppop " ++ t).
  set (buf := bytes "+OK cppop " ++ t ++ crlf).
  assert (Hbuf : buf = body ++ crlf).
  { subst buf body. rewrite <- app_assoc. reflexivity. }
  assert (Hbody : Forall (fun c => isprint c = true) body).
  { subst body. apply Forall_app. split.
    - repeat constructor.
    - eapply Forall_impl; [|exact Ht]. cbv beta. tauto. }
  assert (Hlenb : List.length body = 10 + List.length t).
  { subst body. rewrite length_app. reflexivity. }
  assert (Hlen : List.length buf = List.length body + 2).
  { rewrite Hbuf, length_app. reflexivity. }
  assert (Htok : token_bytes (chr "]") (t ++ [CR])).
  { apply Forall_app. split.
    - eapply Forall_impl; [|exact Ht]. cbv beta. intros c [Hp Hc]. split; [|exact Hc].
      intros ->. discriminate.
    - constructor; [split; discriminate|constructor]. }
  enough (Hw : wp (pop3_server_validate dd buf asd true)
                  (fun x _ => fst (fst x) = 0%Z /\
                     vendor (server (snd (fst x))) = Some ven_cppop /\
                     c_str (version (server (snd (fst x)))) = [] /\
                     version_array (server (snd (fst x))))).
  { apply wp_ok in Hw. destruct Hw as ([[r dd'] asd'] & n & Heq & Hr & Hq).
    cbn [fst snd] in *. subst r. exists dd', asd', n. split; [exact Heq|exact Hq]. }
  unfold pop3_server_validate. rewrite Hst. unfold response_case. cbn [Nat.add].
  apply wp_bind. apply wp_ret. cbv iota.
  destruct (Nat.ltb_spec (List.length buf) (sizeof POP3_ERR)) as [Hsmall|_].
  { change (sizeof POP3_ERR) with 5 in Hsmall. lia. }
  apply wp_bind. apply load_n_wp; [|cbn; lia].
  change (sub buf 0 (sizeof POP3_OK - 1)) with POP3_OK.
  rewrite bytes_eqb_refl.
  apply wp_bind. apply wp_ret.
  apply wp_bind. eapply wp_mono; [apply pop3_check_line_wp; cbn; lia|].
  intros [rl d] k [Hline _]. cbn [fst snd] in Hline.
  pose proof (printable_line body 3 Hbody ltac:(lia)) as Hline'.
  rewrite <- Hbuf in Hline'. change (0 + (sizeof POP3_OK - 1)) with 3 in Hline.
  destruct (line_result_fun _ _ _ _ _ _ _ Hline Hline') as [-> ->].
  change (0 <? 0)%Z with false. cbv iota.
  destruct (correlate _ asd) as [dd1 asd1] eqn:Ec.
  pose proof (correlate_server _ _ _ _ Ec) as Hsrv. cbn in Hsrv.
  apply wp_bind.
  assert (Hg : wp (scan_greeting buf 0 (List.length buf - 1) (server dd1))
                  (fun pd _ => vendor pd = Some ven_cppop /\
                     c_str (version pd) = [] /\ version_array pd)).
  { unfold scan_greeting. rewrite Nat.sub_0_r.
    rewrite (service_strstr_first buf (List.length buf - 1) ven_cppop 4).
    - change (4 + (sizeof ven_cppop - 1)) with 9.
      apply wp_bind. apply load_wp; [|lia]. intros c Hc.
      change (nth_error buf 9) with (Some (chr " ")) in Hc. inversion Hc; subst c.
      change (is_chr (chr " ") " ") with true. cbv iota.
      unfold copy_version.
      replace (List.length buf - 1 - 10) with (List.length (t ++ [CR]))
        by (rewrite length_app; cbn [List.length]; lia).
      destruct (copy_until_exhaust (chr "]") (t ++ [CR]) (bytes "+OK cppop ") [LF]
                  (version (with_vendor (server dd1) (Some ven_cppop))) 0 Htok)
        as (ver' & v' & Heq & Hl).
      { cbn. rewrite Hsrv. cbn. exact Hver. }
      assert (Hb : buf = bytes "+OK cppop " ++ (t ++ [CR]) ++ [LF]).
      { unfold buf. rewrite <- app_assoc. reflexivity. }
      rewrite Hb.
      change 10 with (List.length (bytes "+OK cppop ")) at 1.
      rewrite Heq. rewrite <- Hb.
      apply wp_bind. unfold wp at 1.
      unfold nonzero_at.
      destruct (Nat.ltb_spec (List.length (bytes "+OK cppop ") + List.length (t ++ [CR]))
                  (List.length buf - 1)) as [Hlt|_].
      { rewrite length_app in Hlt. cbn [List.length bytes map list_ascii_of_string] in Hlt.
        lia. }
      cbv beta iota. apply wp_bind. apply wp_ret. apply wp_ret. cbn. split; [reflexivity|].
      split; [apply c_str_store_0|]. unfold version_array. cbn.
      rewrite store_length. exact Hl.
    - discriminate.
    - cbn. lia.
    - reflexivity.
    - intros j Hj. destruct j as [|[|[|[|j]]]]; try lia; reflexivity. }
  eapply wp_mono; [exact Hg|]. intros pd1 k2 (Hv1 & Hv2 & Hv3).
  rewrite Nat.leb_refl.
  apply wp_ret. cbn [fst snd]. split; [reflexivity|]. cbn. auto.
Qed.

Lemma cppop_version_needs_bracket_witness :
  exists dd' asd' n,
    pop3_server_validate calloc_POP3DetectorData (bytes "+OK cppop 1.0 ready" ++ crlf)
      new_session true
      = Ok (0%Z, dd', asd') n /\
    vendor (server dd') = Some ven_cppop /\
    c_str (version (server dd')) = [] /\
    version_array (server dd').
Proof.
  apply (cppop_version_needs_bracket calloc_POP3DetectorData new_session (bytes "1.0 ready")).
  - reflexivity.
  - reflexivity.
  - repeat constructor; discriminate.
Defined.

(** ** The body of a multi-line response *)

Lemma whole_lines_le buf d0 d : whole_lines buf d0 d -> d0 <= d.
Proof.
  induction 1 as [d|d d' d'' Hl Hw IH]; [lia|].
  inversion Hl; subst. lia.
Qed.

Lemma whole_lines_snoc buf d0 d d' :
  whole_lines buf d0 d -> line_result buf d (List.length buf) 0 d' -> whole_lines buf d0 d'.
Proof.
  induction 1 as [d|a b c Hl Hw IH]; intros H.
  - eapply whole_lines_cons; [exact H|apply whole_lines_nil].
  - eapply whole_lines_cons; [exact Hl|]. apply IH. exact H.
Qed.

Lemma whole_lines_to_terminator buf pd d0 d :
  whole_lines buf d0 d -> terminator_at buf d ->
  continue_run buf d0 pd 0 (with_sstate (count_incr pd) POP3_STATE_RESPONSE).
Proof.
  intros Hw Ht. induction Hw as [d|d d' d'' Hl Hw IH].
  - apply run_term; [|exact Ht]. destruct Ht; lia.
  - pose proof (whole_lines_le _ _ _ Hw) as Hle.
    assert (Hd : d + 2 <= d') by (inversion Hl; lia).
    destruct Ht as [Ht1 Ht2].
    eapply run_line; [lia| |exact Hl|lia|apply IH; split; assumption].
    intros [H _]. lia.
Qed.

Lemma whole_lines_to_end buf pd d0 :
  (forall d, whole_lines buf 0 d -> ~ terminator_at buf d) ->
  whole_lines buf 0 d0 ->
  whole_lines buf d0 (List.length buf) ->
  continue_run buf d0 pd 0 pd.
Proof.
  intros Hno H0 Hw. remember (List.length buf) as e eqn:He.
  induction Hw as [d|d d' d'' Hl Hw IH].
  - apply run_end. lia.
  - pose proof (whole_lines_le _ _ _ Hw) as Hle.
    assert (Hd : d + 2 <= d') by (inversion Hl; lia).
    subst d''.
    eapply run_line; [lia|apply Hno; exact H0|exact Hl|lia|].
    apply IH; [|reflexivity]. eapply whole_lines_snoc; eassumption.
Qed.

(** X6.  The body of a multi-line response, in CONTINUE state.  The parser
    looks for the terminator "." CR LF only as the last three bytes of a
    payload, at a line start: a payload of whole lines that ends so is
    counted as a completed response and takes the parser back to RESPONSE,
    and a payload of whole lines that does not end so, even when "." CR LF is
    one of its inner lines, leaves the server data as it was.  Both return 0
    and make no call. *)
Theorem body_terminator_ends_response dd buf asd server_arg :
  sstate (server dd) = POP3_STATE_CONTINUE ->
  (forall d, whole_lines buf 0 d -> terminator_at buf d ->
     exists n, pop3_server_validate dd buf asd server_arg
       = Ok (0%Z, with_server dd (with_sstate (count_incr (server dd)) POP3_STATE_RESPONSE),
             asd) n) /\
  (whole_lines buf 0 (List.length buf) ->
   (forall d, whole_lines buf 0 d -> ~ terminator_at buf d) ->
     exists n, pop3_server_validate dd buf asd server_arg
       = Ok (0%Z, with_server dd (server dd), asd) n).
Proof.
  intros Hst.
  pose proof (continue_loop_run buf (List.length buf) 0 (server dd) (Nat.le_0_l _)
                ltac:(lia)) as Hw.
  apply wp_ok in Hw. destruct Hw as ([r pd'] & n & Hrun & Hc). cbn [fst snd] in Hc.
  unfold pop3_server_validate. rewrite Hst, Hrun. unfold bind, ret.
  split.
  - intros d Hd Ht.
    destruct (continue_run_fun _ _ _ _ _ Hc _ _
                (whole_lines_to_terminator buf (server dd) 0 d Hd Ht)) as [-> ->].
    eexists. reflexivity.
  - intros Hall Hno.
    destruct (continue_run_fun _ _ _ _ _ Hc _ _
                (whole_lines_to_end buf (server dd) 0 Hno (whole_lines_nil _ _) Hall))
      as [-> ->].
    eexists. reflexivity.
Qed.

Lemma whole_lines_step buf d0 d d1 :
  whole_lines buf d0 d -> line_result buf d0 (List.length buf) 0 d1 ->
  d = d0 \/ whole_lines buf d1 d.
Proof.
  intros Hw Hl. inversion Hw as [|a b c Hl' Hw']; subst; [left; reflexivity|].
  right. destruct (line_result_fun _ _ _ _ _ _ _ Hl Hl') as [_ ->]. exact Hw'.
Qed.

Lemma whole_lines_at_end buf d : whole_lines buf (List.length buf) d -> d = List.length buf.
Proof.
  intros Hw. inversion Hw as [|a b c Hl' Hw']; subst; [reflexivity|].
  inversion Hl'; subst. lia.
Qed.

Lemma body_terminator_ends_response_witness :
  (exists n, pop3_server_validate in_body
               ((bytes "Subject: hi" ++ crlf ++ bytes "." ++ crlf ++ bytes "bye" ++ crlf)
                ++ bytes "." ++ crlf) new_session true
     = Ok (0%Z, with_server in_body
                  (with_sstate (count_incr (server in_body)) POP3_STATE_RESPONSE),
           new_session) n) /\
  (exists n, pop3_server_validate in_body
               (bytes "Subject: hi" ++ crlf ++ bytes "." ++ crlf ++ bytes "bye" ++ crlf)
               new_session true
     = Ok (0%Z, with_server in_body (server in_body), new_session) n).
Proof.
  assert (L1 : forall rest, line_result (bytes "Subject: hi" ++ crlf ++ rest) 0
                 (List.length (bytes "Subject: hi" ++ crlf ++ rest)) 0 13).
  { intros rest. apply (line_terminated _ 0 _ 11); [cbn; lia| |reflexivity|reflexivity].
    intros i Hi. do 11 (destruct i as [|i]; [eexists; split; reflexivity|]). lia. }
  assert (L2 : forall rest,
             line_result (bytes "Subject: hi" ++ crlf ++ bytes "." ++ crlf ++ rest) 13
               (List.length (bytes "Subject: hi" ++ crlf ++ bytes "." ++ crlf ++ rest)) 0 16).
  { intros rest. apply (line_terminated _ 13 _ 1); [cbn; lia| |reflexivity|reflexivity].
    intros i Hi. assert (i = 13) by lia. subst i. eexists; split; reflexivity. }
  assert (L3 : forall rest,
             line_result (bytes "Subject: hi" ++ crlf ++ bytes "." ++ crlf
                          ++ bytes "bye" ++ crlf ++ rest) 16
               (List.length (bytes "Subject: hi" ++ crlf ++ bytes "." ++ crlf
                             ++ bytes "bye" ++ crlf ++ rest)) 0 21).
  { intros rest. apply (line_terminated _ 16 _ 3); [cbn; lia| |reflexivity|reflexivity].
    intros i Hi.
    assert (i = 16 \/ i = 17 \/ i = 18) as [->|[->| ->]] by lia;
      eexists; split; reflexivity. }
  split.
  - destruct (body_terminator_ends_response in_body
                ((bytes "Subject: hi" ++ crlf ++ bytes "." ++ crlf ++ bytes "bye" ++ crlf)
                 ++ bytes "." ++ crlf) new_session true eq_refl) as [H _].
    apply (H 21); [|split; reflexivity].
    eapply whole_lines_cons; [apply (L1 (bytes "." ++ crlf ++ bytes "bye" ++ crlf
                                          ++ bytes "." ++ crlf))|].
    eapply whole_lines_cons; [apply (L2 (bytes "bye" ++ crlf ++ bytes "." ++ crlf))|].
    eapply whole_lines_cons; [apply (L3 (bytes "." ++ crlf))|].
    apply whole_lines_nil.
  - destruct (body_terminator_ends_response in_body
                (bytes "Subject: hi" ++ crlf ++ bytes "." ++ crlf ++ bytes "bye" ++ crlf)
                new_session true eq_refl) as [_ H].
    apply H.
    + eapply whole_lines_cons; [apply (L1 (bytes "." ++ crlf ++ bytes "bye" ++ crlf))|].
      eapply whole_lines_cons; [apply (L2 (bytes "bye" ++ crlf))|].
      eapply whole_lines_cons; [apply (L3 [])|].
      apply whole_lines_nil.
    + intros d Hw [Hd _]. cbn in Hd. assert (d = 18) by lia. subst d.
      destruct (whole_lines_step _ _ _ _ Hw (L1 (bytes "." ++ crlf ++ bytes "bye" ++ crlf)))
        as [H0|Hw1]; [discriminate|].
      destruct (whole_lines_step _ _ _ _ Hw1 (L2 (bytes "bye" ++ crlf)))
        as [H0|Hw2]; [discriminate|].
      destruct (whole_lines_step _ _ _ _ Hw2 (L3 [])) as [H0|Hw3]; [discriminate|].
      apply whole_lines_at_end in Hw3. discriminate.
Defined.

(** ** The service detector: verdicts and session flags *)

Lemma flags_after_server_refl fl : flags_after_server fl fl.
Proof. repeat split; auto. Qed.

Lemma correlate_effect dd asd dd1 asd1 :
  correlate dd asd = (dd1, asd1) ->
  calls asd1 = calls asd ++ correlate_calls dd /\
  flags_after_server (flags asd) (flags asd1) /\
  flow_data asd1 = flow_data asd /\
  pop_flows (appid_stats asd1) = pop_flows (appid_stats asd).
Proof.
  unfold correlate, correlate_calls.
  destruct (state (client dd)); destruct (username (client dd));
    destruct (error (server dd)); destruct (detected (client dd)) eqn:Ed;
    intros H; inversion H; subst; clear H; cbn; rewrite ?Ed; cbn;
    repeat split; auto; try congruence;
    try (rewrite ?app_nil_r, <- ?app_assoc; reflexivity);
    try (cbn; intros; discriminate).
Qed.

Lemma correlate_calls_no_verdict dd : filter is_verdict (correlate_calls dd) = [].
Proof.
  unfold correlate_calls.
  destruct (state (client dd)); destruct (username (client dd));
    destruct (error (server dd)); destruct (detected (client dd)); reflexivity.
Qed.

(** The session after a call of the server parser. *)
Lemma server_session dd buf asd server_arg r dd' asd' n :
  pop3_server_validate dd buf asd server_arg = Ok (r, dd', asd') n ->
  (exists l, calls asd' = calls asd ++ l /\ filter is_verdict l = []) /\
  flags_after_server (flags asd) (flags asd') /\
  flow_data asd' = flow_data asd /\
  pop_flows (appid_stats asd') = pop_flows (appid_stats asd).
Proof.
  intros H. apply server_effect in H. destruct H as (_ & Hc & _ & _).
  destruct Hc as [(_ & _ & ->) | (ddR & dd1 & _ & _ & Hc & _)].
  - split; [exists []; rewrite app_nil_r; auto|].
    split; [apply flags_after_server_refl|]. auto.
  - apply correlate_effect in Hc. destruct Hc as (H1 & H2 & H3 & H4).
    split; [eexists; split; [exact H1|apply correlate_calls_no_verdict]|].
    auto.
Qed.

Lemma service_flow_data_effect asd dd0 asd0 :
  service_flow_data asd = (dd0, asd0) ->
  dd0 = flow_data_or_new asd /\
  (exists l, calls asd0 = calls asd ++ l /\ filter is_verdict l = []) /\
  client_gets_server_packets (flags asd0) = false /\
  service_detected (flags asd0) = service_detected (flags asd) /\
  continue_flag (flags asd0) = need_continue dd0 /\
  encrypted (flags asd0) = encrypted (flags asd) /\
  client_detected (flags asd0) = client_detected (flags asd) /\
  pop_flows (appid_stats asd0) = pop_flows (appid_stats asd).
Proof.
  unfold service_flow_data, flow_data_or_new.
  destruct (flow_data asd) as [dd|]; [destruct (need_continue dd) eqn:En|];
    intros H; inversion H; subst; cbn; rewrite ?En;
    (split; [reflexivity|]); (split; [eexists; split; [rewrite <- app_assoc; reflexivity|reflexivity]|]);
    repeat split; reflexivity.
Qed.

(** X7.  Every return of Pop3ServiceDetector::validate goes with the
    matching verdict call, and with no other: INPROCESS with one
    service_inprocess, NOMATCH with one fail_service (and only when
    SERVICE_DETECTED was not set), SUCCESS with one
    add_service_consume_subtype when SERVICE_DETECTED was not set and the
    response count has reached the threshold, and with no verdict call at
    all when SERVICE_DETECTED was set. *)
Theorem service_detector_verdicts args r asd' n :
  Pop3ServiceDetector_validate args = Ok (r, asd') n ->
  exists l, calls asd' = calls (asd args) ++ l /\
    match r with
    | APPID_INPROCESS => filter is_verdict l = [service_inprocess]
    | APPID_NOMATCH =>
        filter is_verdict l = [fail_service] /\
        get_session_flags APPID_SESSION_SERVICE_DETECTED (asd args) = false
    | APPID_SUCCESS =>
        if get_session_flags APPID_SESSION_SERVICE_DETECTED (asd args)
        then filter is_verdict l = []
        else exists dd', flow_data asd' = Some (with_server dd' (with_subtype (server dd') []))
                         /\ filter is_verdict l = [service_report dd']
                         /\ (POP3_COUNT_THRESHOLD <= count (server dd'))%Z
    end.
Proof.
  unfold Pop3ServiceDetector_validate.
  destruct (size args =? 0).
  { intros H. inversion H; subst. exists [service_inprocess]. split; reflexivity. }
  destruct (dir args).
  { intros H. inversion H; subst. exists [service_inprocess]. split; reflexivity. }
  destruct (service_flow_data (asd args)) as [dd0 asd0] eqn:Hflow.
  destruct (service_flow_data_effect _ _ _ Hflow)
    as (_ & (l0 & Hl0 & Hf0) & _ & Hsd0 & _).
  unfold get_session_flags. cbn [read_flag]. rewrite Hsd0.
  destruct (negb (need_continue dd0) && service_detected (flags (asd args))) eqn:Eshort.
  { intros H. inversion H; subst. apply andb_true_iff in Eshort. destruct Eshort as [_ ->].
    exists l0. split; [exact Hl0|exact Hf0]. }
  intros H. apply wp_bind_inv in H.
  destruct H as ([[r0 dd1] asd1] & n1 & n2 & Hparse & Hrest & _).
  destruct (server_session _ _ _ _ _ _ _ _ Hparse) as ((l1 & Hl1 & Hf1) & Hfl & _).
  destruct Hfl as (_ & Hsd1 & _). rewrite Hsd1, Hsd0 in Hrest.
  destruct (Z.eqb r0 0).
  - destruct ((POP3_COUNT_THRESHOLD <=? count (server dd1))%Z) eqn:Ecount; cbn [andb] in Hrest.
    + destruct (service_detected (flags (asd args))) eqn:Esd; cbn [negb] in Hrest;
        inversion Hrest; subst; clear Hrest.
      * exists (l0 ++ l1 ++ [service_inprocess]).
        cbn [calls data_add log]. rewrite Hl1, Hl0, <- !app_assoc.
        split; [reflexivity|]. rewrite !filter_app, Hf0, Hf1. reflexivity.
      * exists (l0 ++ l1 ++ [service_report dd1]).
        cbn [calls data_add log bump_pop_flows with_stats].
        rewrite Hl1, Hl0, <- !app_assoc.
        split; [reflexivity|]. exists dd1. split; [reflexivity|].
        split; [rewrite !filter_app, Hf0, Hf1; reflexivity|].
        apply Z.leb_le. exact Ecount.
    + inversion Hrest; subst; clear Hrest.
      exists (l0 ++ l1 ++ [service_inprocess]).
      cbn [calls data_add log]. rewrite Hl1, Hl0, <- !app_assoc.
      split; [reflexivity|]. rewrite !filter_app, Hf0, Hf1. reflexivity.
  - destruct (service_detected (flags (asd args))) eqn:Esd; cbn [negb] in Hrest;
      inversion Hrest; subst; clear Hrest.
    + exists (l0 ++ l1 ++ [clear_session_flags_call APPID_SESSION_CONTINUE]).
      cbn [calls data_add log bump_pop_flows with_stats clear_session_flags].
      rewrite Hl1, Hl0, <- !app_assoc.
      split; [reflexivity|]. rewrite !filter_app, Hf0, Hf1. reflexivity.
    + exists (l0 ++ l1 ++ [fail_service]).
      cbn [calls data_add log]. rewrite Hl1, Hl0, <- !app_assoc.
      split; [reflexivity|]. split; [|reflexivity].
      rewrite !filter_app, Hf0, Hf1. reflexivity.
Qed.

Lemma service_detector_verdicts_witness :
  exists asd' n,
    Pop3ServiceDetector_validate (from_server (bytes "HTTP/1.1 200 OK" ++ crlf) new_session)
      = Ok (APPID_NOMATCH, asd') n /\
    exists l, calls asd' = calls new_session ++ l /\
              filter is_verdict l = [fail_service] /\
              get_session_flags APPID_SESSION_SERVICE_DETECTED new_session = false.
Proof.
  do 2 eexists. split; [vm_compute; reflexivity|].
  exact (service_detector_verdicts
           (from_server (bytes "HTTP/1.1 200 OK" ++ crlf) new_session) APPID_NOMATCH _ _ eq_refl).
Defined.





(** X10.  A first server payload that is no POP3 greeting.  On a flow whose
    server state is CONNECT and whose service is not detected, a non-empty
    server payload that is shorter than five bytes or starts with neither
    "+OK" nor "-ERR" makes Pop3ServiceDetector::validate call fail_service
    and return NOMATCH; the parser has read no byte past the payload, and
    of the server data only the state has changed, to RESPONSE. *)
Theorem bad_greeting_fails_service args dd0 asd0 :
  dir args = APP_ID_FROM_RESPONDER -> size args <> 0 ->
  service_flow_data (asd args) = (dd0, asd0) ->
  sstate (server dd0) = POP3_STATE_CONNECT ->
  get_session_flags APPID_SESSION_SERVICE_DETECTED (asd args) = false ->
  size args < 5 \/ status_of (data args) = None ->
  exists n,
    Pop3ServiceDetector_validate args
    = Ok (APPID_NOMATCH,
          data_add (with_server dd0 (with_sstate (server dd0) POP3_STATE_RESPONSE))
            (log fail_service asd0)) n.
Proof.
  intros Hdir Hsz Hflow Hst Hsd Hbad. unfold Pop3ServiceDetector_validate.
  destruct (Nat.eqb_spec (size args) 0) as [|_]; [contradiction|]. rewrite Hdir, Hflow.
  destruct (service_flow_data_effect _ _ _ Hflow) as (_ & _ & _ & Hsd0 & _).
  unfold get_session_flags in *. cbn [read_flag] in *. rewrite Hsd0, Hsd, andb_false_r.
  assert (Hparse : exists n,
            pop3_server_validate dd0 (data args) asd0 true
            = Ok ((-1)%Z, with_server dd0 (with_sstate (server dd0) POP3_STATE_RESPONSE),
                  asd0) n).
  { unfold pop3_server_validate. rewrite Hst. unfold response_case. cbn [Nat.add].
    unfold size in *. unfold bind at 1. unfold ret at 1.
    destruct (Nat.ltb_spec (List.length (data args)) (sizeof POP3_ERR)) as [Hsmall|Hbig].
    { eexists. reflexivity. }
    change (sizeof POP3_ERR) with 5 in Hbig.
    destruct Hbad as [Hbad|Hbad]; [lia|].
    unfold status_of in Hbad. unfold load_n.
    change (sizeof POP3_OK - 1) with 3. change (sizeof POP3_ERR - 1) with 4.
    destruct (Nat.leb_spec (0 + 3) (List.length (data args))) as [_|]; [|lia].
    destruct (Nat.leb_spec (0 + 4) (List.length (data args))) as [_|]; [|lia].
    unfold bind, ret.
    destruct (bytes_eqb (sub (data args) 0 3) POP3_OK); [discriminate|].
    destruct (bytes_eqb (sub (data args) 0 4) POP3_ERR); [discriminate|].
    eexists. reflexivity. }
  destruct Hparse as [n Hparse]. rewrite Hparse. unfold bind.
  change (Z.eqb (-1) 0) with false. cbv iota.
  cbn [flags]. rewrite Hsd0, Hsd. cbn [negb]. eexists. reflexivity.
Qed.

Lemma bad_greeting_fails_service_witness :
  exists n,
    Pop3ServiceDetector_validate (from_server (bytes "220 smtp ready" ++ crlf) new_session)
    = Ok (APPID_NOMATCH,
          data_add (with_server calloc_POP3DetectorData
                      (with_sstate (server calloc_POP3DetectorData) POP3_STATE_RESPONSE))
            (log fail_service (snd (service_flow_data new_session)))) n.
Proof.
  apply (bad_greeting_fails_service
           (from_server (bytes "220 smtp ready" ++ crlf) new_session)
           calloc_POP3DetectorData (snd (service_flow_data new_session))).
  - reflexivity.
  - discriminate.
  - reflexivity.
  - reflexivity.
  - reflexivity.
  - right. reflexivity.
Defined.

(** ** Server payloads through the two detectors *)

Lemma banner_set_only_by_greeting_witness :
  exists r dd' asd' n,
    pop3_server_validate three_responses (bytes "+OK cppop 1.0]" ++ crlf) new_session true
      = Ok (r, dd', asd') n /\
    sstate (server dd') <> POP3_STATE_CONNECT /\
    (sstate (server three_responses) <> POP3_STATE_CONNECT \/ true = false \/
     status_of (bytes "+OK cppop 1.0]" ++ crlf) <> Some false ->
     vendor (server dd') = vendor (server three_responses) /\
     version (server dd') = version (server three_responses) /\
     subtype (server dd') = subtype (server three_responses)).
Proof.
  do 4 eexists. split; [vm_compute; reflexivity|].
  exact (banner_set_only_by_greeting three_responses (bytes "+OK cppop 1.0]" ++ crlf)
           new_session true _ _ _ _ eq_refl).
Defined.

(** X11.  Server payloads never make a detector read past the payload but in
    one case.  Both detectors return at once on an empty payload; on every
    other server payload Pop3ServiceDetector::validate returns, and
    Pop3ClientDetector::validate returns INPROCESS, unless the payload is
    the single byte "+" and the server state of the flow is RESPONSE (there
    [data[1]] is read). *)
Theorem detectors_return_on_server_payload args :
  dir args = APP_ID_FROM_RESPONDER ->
  ~ (sstate (server (flow_data_or_new (asd args))) = POP3_STATE_RESPONSE /\
     data args = [chr "+"]) ->
  (exists r asd' n, Pop3ServiceDetector_validate args = Ok (r, asd') n) /\
  (forall eoc_past_end, exists asd' n,
     Pop3ClientDetector_validate eoc_past_end args = Ok (APPID_INPROCESS, asd') n).
Proof.
  intros Hdir Hno.
  assert (Hparse : forall dd a server_arg,
            size args <> 0 -> server dd = server (flow_data_or_new (asd args)) ->
            exists r dd' asd' n,
              pop3_server_validate dd (data args) a server_arg = Ok (r, dd', asd') n).
  { intros dd a server_arg Hsz Hsrv.
    apply server_parser_finishes.
    intros [Hst [Hd|Hd]].
    - unfold size in Hsz. rewrite Hd in Hsz. contradiction.
    - apply Hno. rewrite <- Hsrv. auto. }
  split.
  - unfold Pop3ServiceDetector_validate.
    destruct (Nat.eqb_spec (size args) 0) as [|Hsz]; [do 3 eexists; reflexivity|].
    rewrite Hdir.
    destruct (service_flow_data (asd args)) as [dd0 asd0] eqn:Hflow.
    destruct (service_flow_data_effect _ _ _ Hflow) as (Hdd0 & _).
    destruct (negb (need_continue dd0) && _); [do 3 eexists; reflexivity|].
    destruct (Hparse dd0 asd0 true Hsz ltac:(rewrite Hdd0; reflexivity))
      as (r & dd' & asd' & n & Heq).
    rewrite Heq. unfold bind.
    destruct (Z.eqb r 0);
      [destruct ((POP3_COUNT_THRESHOLD <=? count (server dd'))%Z && _)
      |destruct (negb _)]; do 3 eexists; reflexivity.
  - intros e. unfold Pop3ClientDetector_validate.
    destruct (Nat.eqb_spec (size args) 0) as [|Hsz]; [do 2 eexists; reflexivity|].
    rewrite Hdir. unfold flow_data_or_new in Hparse.
    destruct (flow_data (asd args)) as [dd|].
    + destruct (negb (set_flags (client dd))).
      * destruct (Hparse (with_client (with_need_continue dd true)
                            (with_set_flags (client (with_need_continue dd true)) true))
                    (set_session_flags APPID_SESSION_CLIENT_GETS_SERVER_PACKETS (asd args))
                    false Hsz eq_refl) as (r & dd' & asd' & n & Heq).
        rewrite Heq. unfold bind. do 2 eexists. reflexivity.
      * destruct (Hparse dd (asd args) false Hsz eq_refl) as (r & dd' & asd' & n & Heq).
        rewrite Heq. unfold bind. do 2 eexists. reflexivity.
    + cbn [negb set_flags client calloc_POP3DetectorData].
      destruct (Hparse (with_client (with_need_continue calloc_POP3DetectorData true)
                          (with_set_flags
                             (client (with_need_continue calloc_POP3DetectorData true)) true))
                  (set_session_flags APPID_SESSION_CLIENT_GETS_SERVER_PACKETS
                     (data_add calloc_POP3DetectorData (asd args)))
                  false Hsz eq_refl) as (r & dd' & asd' & n & Heq).
      rewrite Heq. unfold bind. do 2 eexists. reflexivity.
Qed.

Lemma detectors_return_on_server_payload_witness :
  (exists r asd' n,
     Pop3ServiceDetector_validate (from_server [chr "+"] new_session) = Ok (r, asd') n) /\
  (forall eoc_past_end, exists asd' n,
     Pop3ClientDetector_validate eoc_past_end (from_server [chr "+"] new_session)
     = Ok (APPID_INPROCESS, asd') n).
Proof.
  apply (detectors_return_on_server_payload (from_server [chr "+"] new_session)).
  - reflexivity.
  - intros [H _]. discriminate.
Defined.

(** ** The vendor named in the greeting *)

Lemma version_scan_refl pd : version_scan pd pd.
Proof. split; [reflexivity|]. exists []. reflexivity. Qed.

Lemma version_scan_version pd v : version_scan pd (with_version pd v).
Proof. split; [reflexivity|]. exists []. reflexivity. Qed.

Lemma version_scan_subtype pd pd' x :
  version_scan pd pd' -> version_scan pd (with_subtype pd' (x :: subtype pd')).
Proof.
  intros [Hv [k Hk]]. split; [exact Hv|]. exists (x :: k). cbn. rewrite Hk. reflexivity.
Qed.

Lemma copy_version_scan stop buf p line_end pd :
  line_end <= List.length buf ->
  wp (copy_version stop buf p line_end pd) (fun pd' _ => version_scan pd pd').
Proof.
  intros Hl. unfold copy_version.
  apply wp_bind. eapply wp_mono; [apply copy_until_wp; lia|].
  intros [[p' ver] v] n _.
  apply wp_bind. eapply wp_mono; [apply nonzero_at_wp; exact Hl|].
  intros nz k _. apply wp_ret. apply version_scan_version.
Qed.

Lemma set_version_scan buf ver p pd :
  p <= List.length buf ->
  wp (set_version buf ver p pd) (fun pd' _ => version_scan pd pd').
Proof.
  intros Hl. unfold set_version.
  apply wp_bind. eapply wp_mono; [apply copy_range_wp; lia|].
  intros [vbuf v] n _. apply wp_ret. apply version_scan_version.
Qed.

Lemma post_office_scan buf p line_end pd :
  line_end <= List.length buf ->
  wp (post_office buf p line_end pd) (fun pd' _ => version_scan pd pd').
Proof.
  intros Hl. unfold post_office.
  apply wp_bind. eapply wp_mono; [apply has_at_wp; [literal_nonempty|exact Hl]|].
  intros m n Hm. destruct m; cbn [negb]; [|apply wp_ret; apply version_scan_refl].
  specialize (Hm eq_refl).
  apply wp_bind. eapply wp_mono; [apply scan_token_wp; exact Hl|].
  intros p1 n1 [Hp1 Hp1'].
  apply wp_bind.
  assert (Hstop : wp (if p1 =? p + (sizeof ven_po - 1) + (sizeof ver_po - 1) then ret true
                      else nz <- nonzero_at buf p1 line_end;; ret (negb nz))
                     (fun stop _ => stop = false -> p1 < line_end)).
  { destruct (p1 =? _); [apply wp_ret; discriminate|].
    apply wp_bind. eapply wp_mono; [apply nonzero_at_wp; exact Hl|].
    intros nz k Hnz. apply wp_ret. destruct nz; [auto|discriminate]. }
  eapply wp_mono; [exact Hstop|]. clear Hstop.
  intros stop n2 Hs. destruct stop; [apply wp_ret; apply version_scan_refl|].
  specialize (Hs eq_refl).
  apply wp_bind. eapply wp_mono; [apply has_at_wp; [literal_nonempty|exact Hl]|].
  intros m n3 Hm3. destruct m; cbn [negb]; [|apply set_version_scan; lia].
  specialize (Hm3 eq_refl).
  apply wp_bind. eapply wp_mono; [apply scan_token_wp; exact Hl|].
  intros p2 n4 [Hp2 Hp2'].
  apply wp_bind.
  assert (Hstop : wp (if negb (p2 <? line_end) || (p2 =? p1 + (sizeof ver_po2 - 1)) then ret true
                      else c <- load buf p2;; ret (Z.eqb c NUL))
                     (fun stop _ => stop = false -> p2 < line_end)).
  { destruct (Nat.ltb_spec p2 line_end); cbn [negb orb]; [|apply wp_ret; discriminate].
    destruct (p2 =? _); [apply wp_ret; discriminate|].
    apply wp_bind. apply load_wp; [|lia]. intros c _. apply wp_ret. auto. }
  eapply wp_mono; [exact Hstop|]. clear Hstop.
  intros stop n5 Hs5. destruct stop; [apply set_version_scan; lia|]. specialize (Hs5 eq_refl).
  apply wp_bind. eapply wp_mono; [apply set_version_scan; lia|].
  intros pd1 n6 Hpd1.
  apply wp_bind. eapply wp_mono; [apply has_at_wp; [literal_nonempty|exact Hl]|].
  intros m n7 Hm7. destruct m; cbn [negb]; [|apply wp_ret; exact Hpd1].
  specialize (Hm7 eq_refl).
  apply wp_bind. eapply wp_mono; [apply scan_token_wp; exact Hl|].
  intros p3 n8 [Hp3 Hp3'].
  apply wp_bind.
  assert (Hstop : wp (if p3 =? p2 + (sizeof sub_po - 1) then ret true
                      else nz <- nonzero_at buf p3 line_end;; ret (negb nz))
                     (fun stop _ => stop = false -> p3 < line_end)).
  { destruct (p3 =? _); [apply wp_ret; discriminate|].
    apply wp_bind. eapply wp_mono; [apply nonzero_at_wp; exact Hl|].
    intros nz k Hnz. apply wp_ret. destruct nz; [auto|discriminate]. }
  eapply wp_mono; [exact Hstop|]. clear Hstop.
  intros stop n9 Hs9. destruct stop; [apply wp_ret; exact Hpd1|]. specialize (Hs9 eq_refl).
  apply wp_bind. apply load_n_wp; [|lia].
  apply wp_bind.
  assert (Hsv : wp (if List.length subver_po <? line_end - p3
                   then w <- load_n buf p3 (List.length subver_po);; ret (bytes_eqb w subver_po)
                   else ret false) (fun _ _ => True)).
  { destruct (Nat.ltb_spec (List.length subver_po) (line_end - p3)); [|apply wp_ret; exact I].
    apply wp_bind. apply load_n_wp; [|lia]. apply wp_ret. exact I. }
  eapply wp_mono; [exact Hsv|]. clear Hsv.
  intros m n10 _.
  destruct m; [|apply wp_ret; apply version_scan_subtype; exact Hpd1].
  apply wp_bind. eapply wp_mono; [apply scan_token_wp; exact Hl|].
  intros p4 n11 [Hp4 Hp4'].
  apply wp_bind.
  assert (Hok : wp (if negb (p4 =? p3 + (sizeof subver_po - 1))
                    then nonzero_at buf p4 line_end else ret false)
                   (fun ok _ => ok = true -> p4 < line_end)).
  { destruct (negb _); [apply nonzero_at_wp; exact Hl|apply wp_ret; discriminate]. }
  eapply wp_mono; [exact Hok|]. clear Hok.
  intros ok n12 Hok.
  destruct ok; [|apply wp_ret; apply version_scan_subtype; exact Hpd1].
  specialize (Hok eq_refl).
  apply wp_bind. apply load_n_wp; [|lia].
  apply wp_ret. apply version_scan_subtype. exact Hpd1.
Qed.

Lemma version_scan_vendor pd pd' v :
  version_scan (with_vendor pd v) pd' ->
  vendor pd' = v /\ exists k, subtype pd' = k ++ subtype pd.
Proof. intros [H1 H2]. split; [exact H1|exact H2]. Qed.

(** The greeting scan sets the vendor by the first name found. *)
Lemma scan_greeting_vendor buf begin line_end pd :
  line_end < List.length buf ->
  wp (scan_greeting buf begin line_end pd)
     (fun pd' _ => vendor pd' = greeting_vendor buf begin line_end (vendor pd) /\
                   exists k, subtype pd' = k ++ subtype pd).
Proof.
  intros Hl. unfold scan_greeting, greeting_vendor, names.
  destruct (service_strstr buf begin (line_end - begin) ven_cppop) as [p|] eqn:E1.
  { apply service_strstr_bounds in E1; [|literal_nonempty].
    apply wp_bind. apply load_wp.
    - intros c _. destruct (is_chr c " ").
      + eapply wp_mono; [apply copy_version_scan; lia|].
        intros pd' n H. apply version_scan_vendor. exact H.
      + apply wp_ret. apply version_scan_vendor. apply version_scan_refl.
    - change (sizeof ven_cppop - 1) with (List.length ven_cppop).
      assert (0 < List.length ven_cppop) by (cbv; lia).
      destruct (Nat.le_gt_cases begin line_end); lia. }
  destruct (service_strstr buf begin (line_end - begin) ven_cc) as [p|] eqn:E2.
  { apply wp_bind. eapply wp_mono; [apply has_at_wp; [literal_nonempty|lia]|].
    intros m n _. destruct m.
    - eapply wp_mono; [apply copy_version_scan; lia|].
      intros pd' k H. apply version_scan_vendor. exact H.
    - apply wp_ret. apply version_scan_vendor. apply version_scan_refl. }
  destruct (service_strstr buf begin (line_end - begin) ven_im) as [p|] eqn:E3.
  { apply wp_ret. apply version_scan_vendor. apply version_scan_refl. }
  destruct (service_strstr buf begin (line_end - begin) ven_po) as [p|] eqn:E4.
  { eapply wp_mono; [apply post_office_scan; lia|].
    intros pd' k H. apply version_scan_vendor. exact H. }
  apply wp_ret. split; [reflexivity|]. exists []. reflexivity.
Qed.

(** X12.  The vendor of the greeting.  When the first server payload of a
    flow starts with "+OK" and the line scanner accepts the status line,
    leaving the cursor at [d], the service detector's parse sets the vendor
    to the first of "cppop", "Cubic Circle", "InterMail" and "Post.Office",
    in this order of the tests, that occurs in the payload before the byte
    at [d] - 1 (the last byte of the line), and leaves the vendor as it was
    when none occurs; entries are only added to the subtype list, never
    taken off it. *)
Theorem greeting_vendor_by_first_name dd buf asd rl d k :
  sstate (server dd) = POP3_STATE_CONNECT ->
  5 <= List.length buf ->
  sub buf 0 3 = POP3_OK ->
  pop3_check_line buf 3 (List.length buf) = Ok (rl, d) k ->
  (0 <= rl)%Z ->
  exists r dd' asd' n,
    pop3_server_validate dd buf asd true = Ok (r, dd', asd') n /\
    vendor (server dd') = greeting_vendor buf 0 (d - 1) (vendor (server dd)) /\
    exists new, subtype (server dd') = new ++ subtype (server dd).
Proof.
  intros Hst Hlen Hok Hline Hrl.
  enough (Hw : wp (pop3_server_validate dd buf asd true)
                  (fun x _ =>
                     vendor (server (snd (fst x)))
                     = greeting_vendor buf 0 (d - 1) (vendor (server dd)) /\
                     exists new, subtype (server (snd (fst x))) = new ++ subtype (server dd))).
  { apply wp_ok in Hw. destruct Hw as ([[r dd'] asd'] & n & Heq & Hq).
    cbn [fst snd] in *. exists r, dd', asd', n. split; [exact Heq|exact Hq]. }
  pose proof (check_line_result buf 3 rl d k ltac:(lia) Hline) as Hres.
  pose proof (line_result_progress _ _ _ _ _ Hres ltac:(lia) Hrl) as Hd.
  unfold pop3_server_validate. rewrite Hst. unfold response_case. cbn [Nat.add].
  apply wp_bind. apply wp_ret. cbv iota.
  destruct (Nat.ltb_spec (List.length buf) (sizeof POP3_ERR)) as [Hsmall|_].
  { change (sizeof POP3_ERR) with 5 in Hsmall. lia. }
  apply wp_bind. apply load_n_wp; [|cbn; lia].
  change (sizeof POP3_OK - 1) with 3. rewrite Hok, bytes_eqb_refl.
  apply wp_bind. apply wp_ret.
  apply wp_bind. rewrite Hline. unfold wp at 1.
  destruct (Z.ltb_spec rl 0) as [|_]; [lia|].
  destruct (correlate _ asd) as [dd1 asd1] eqn:Ec.
  pose proof (correlate_server _ _ _ _ Ec) as Hsrv. cbn in Hsrv.
  apply wp_bind.
  eapply wp_mono; [apply scan_greeting_vendor; lia|].
  intros pd1 k2 (Hv & new & Hnew). rewrite Hsrv in Hv, Hnew. cbn in Hv, Hnew.
  destruct (Nat.leb_spec (List.length buf) d) as [_|Hmore].
  { apply wp_ret. cbn [fst snd]. cbn. split; [exact Hv|]. exists new. exact Hnew. }
  apply wp_bind. eapply wp_mono; [apply continue_loop_wp; lia|].
  intros [r pd'] k3 Hc. cbn [fst snd] in Hc. apply wp_ret. cbn [fst snd].
  apply continue_outcome_effect in Hc. destruct Hc as (_ & (B1 & B2 & B3) & _).
  cbn in *. rewrite B1, B3. split; [exact Hv|]. exists new. exact Hnew.
Qed.

Lemma greeting_vendor_by_first_name_witness :
  exists r dd' asd' n,
    pop3_server_validate calloc_POP3DetectorData
      (bytes "+OK InterMail POP3 server (not Post.Office) ready" ++ crlf) new_session true
      = Ok (r, dd', asd') n /\
    vendor (server dd')
    = greeting_vendor (bytes "+OK InterMail POP3 server (not Post.Office) ready" ++ crlf)
        0 (51 - 1) (vendor (server calloc_POP3DetectorData)) /\
    exists new, subtype (server dd') = new ++ subtype (server calloc_POP3DetectorData).
Proof.
  assert (E : exists k,
            pop3_check_line (bytes "+OK InterMail POP3 server (not Post.Office) ready" ++ crlf)
              3 (List.length (bytes "+OK InterMail POP3 server (not Post.Office) ready" ++ crlf))
            = Ok (0%Z, 51) k) by (eexists; vm_compute; reflexivity).
  destruct E as [k E].
  apply (greeting_vendor_by_first_name calloc_POP3DetectorData _ new_session 0 51 k).
  - reflexivity.
  - vm_compute. lia.
  - vm_compute. reflexivity.
  - exact E.
  - lia.
Defined.

(** ** The client parser: what the loop can change *)

Lemma client_progress_refl dd asd : client_progress dd asd dd asd.
Proof.
  unfold client_progress. repeat split; auto.
  - apply username_kept.
  - exists 0. split; [cbn; rewrite app_nil_r; reflexivity|lia].
Qed.

Lemma client_progress_trans dd asd dd1 asd1 dd2 asd2 :
  client_progress dd asd dd1 asd1 -> client_progress dd1 asd1 dd2 asd2 ->
  client_progress dd asd dd2 asd2.
Proof.
  intros (A1 & A2 & A3 & A4 & A5 & A6 & A7 & A8 & A9 & A10 & k1 & A11 & A12)
         (B1 & B2 & B3 & B4 & B5 & B6 & B7 & B8 & B9 & B10 & k2 & B11 & B12).
  unfold client_progress.
  split; [congruence|]. split; [congruence|]. split; [congruence|].
  split; [congruence|]. split; [congruence|].
  split; [eapply username_kept_or_captured_trans; eauto|].
  split.
  { intros H. destruct (A7 H) as [H1 H2]. destruct (B7 H1) as [H3 H4].
    split; congruence. }
  split; [auto|]. split; [congruence|]. split; [congruence|].
  exists (k1 + k2). split.
  - rewrite B11, A11, <- app_assoc, repeat_app. reflexivity.
  - intros Hk. destruct (Nat.eq_dec k2 0) as [->|Hk2].
    + destruct (A12 ltac:(lia)) as [H1 H2]. destruct (B7 H2) as [H3 _]. auto.
    + apply B12. lia.
Qed.

Lemma command_outcome_progress buf s dd asd s' dd' asd' n :
  command_outcome buf s dd asd (Continue s') dd' asd' n ->
  client_progress dd asd dd' asd'.
Proof.
  intros H. inversion H as [ | s0 fd' n0 Hnz Hst Hs' Hn Hp
                            | s0 asd0 n0 Hnz Hst Hs' Hn Hc Hf Hd]; subst.
  - destruct Hp as (P1 & P2 & P3 & P4 & P5 & P6). cbn in *.
    unfold client_progress. cbn.
    repeat split; auto; try congruence.
    exists 0. split; [cbn; rewrite app_nil_r; reflexivity|lia].
  - unfold client_progress, trans_calls in *.
    destruct (PATTERN_POP3_OTHER <=? pattern_index_of (window buf s)); cbn.
    + repeat split; auto; try apply username_kept.
      exists 1. split; [exact Hc|auto].
    + repeat split; auto; try apply username_kept.
      exists 0. split; [exact Hc|lia].
Qed.

Section ClientTurns.

Variable eoc_past_end : bool.

(** The loop: turns that go on, then one of the two ends. *)
Lemma client_loop_turns buf : forall fuel s dd asd,
  s <= List.length buf -> List.length buf - s <= fuel ->
  wp (client_loop eoc_past_end fuel buf (List.length buf) s dd asd)
     (fun x _ => exists ddm asdm,
        client_progress dd asd ddm asdm /\
        client_loop_end ddm asdm (fst (fst x)) (snd (fst x)) (snd x)).
Proof.
  induction fuel as [|fuel IH]; intros s dd asd Hs Hf.
  - cbn [client_loop]. replace (List.length buf - s) with 0 by lia. cbn [Nat.eqb].
    apply wp_ret. cbn [fst snd]. exists dd, asd.
    split; [apply client_progress_refl|left; auto].
  - cbn [client_loop]. destruct (Nat.eqb_spec (List.length buf - s) 0) as [E|E].
    + apply wp_ret. cbn [fst snd]. exists dd, asd.
      split; [apply client_progress_refl|left; auto].
    + apply wp_bind. eapply wp_mono; [apply client_command_wp; lia|].
      intros [[r dd1] asd1] n Hc. cbn [fst snd] in Hc.
      destruct r as [code|s1].
      * inversion Hc; subst. apply wp_ret. cbn [fst snd]. exists dd, asd.
        split; [apply client_progress_refl|right; auto].
      * pose proof (command_outcome_progress _ _ _ _ _ _ _ _ Hc) as Hp.
        assert (Hs1 : s < s1 <= List.length buf) by (inversion Hc; subst; lia).
        eapply wp_mono; [apply IH; lia|].
        intros [[r2 dd2] asd2] n2 (ddm & asdm & Hm & He). cbn [fst snd] in *.
        exists ddm, asdm. split; [|exact He].
        eapply client_progress_trans; eauto.
Qed.

Lemma client_validate_unfold args :
  size args <> 0 ->
  Pop3ClientDetector_validate eoc_past_end args =
  match dir args with
  | APP_ID_FROM_RESPONDER =>
      '(r, dd, asd) <- pop3_server_validate (fst (client_entry (asd args))) (data args)
                         (snd (client_entry (asd args))) false ;;
      let asd := if negb (Z.eqb r 0)
                 then clear_session_flags APPID_SESSION_CLIENT_GETS_SERVER_PACKETS asd
                 else asd in
      ret (APPID_INPROCESS, data_add dd asd)
  | APP_ID_FROM_INITIATOR =>
      '(r, dd, asd) <- client_loop eoc_past_end (size args) (data args) (size args) 0
                         (fst (client_entry (asd args))) (snd (client_entry (asd args))) ;;
      ret (r, data_add dd asd)
  end.
Proof.
  intros Hsz. unfold Pop3ClientDetector_validate, client_entry.
  destruct (Nat.eqb_spec (size args) 0) as [|_]; [contradiction|].
  rewrite Nat.sub_0_r.
  destruct (flow_data (asd args)) as [dd|].
  - destruct (negb (set_flags (client dd))); reflexivity.
  - reflexivity.
Qed.

End ClientTurns.

(** ** Every call of a detector *)

Lemma client_entry_server a :
  server (fst (client_entry a)) = server (flow_data_or_new a).
Proof.
  unfold client_entry, flow_data_or_new.
  destruct (flow_data a) as [dd|]; [destruct (negb (set_flags (client dd)))|]; reflexivity.
Qed.

Lemma detector_call_shape a r a' : detector_call a r a' -> call_shape a r a'.
Proof.
  intros [e payload d n H | payload d n H].
  - destruct (Nat.eq_dec (List.length payload) 0) as [Hz|Hnz].
    + unfold Pop3ClientDetector_validate, size in H. cbn [data] in H. rewrite Hz in H.
      cbn in H. inversion H; subst. apply shape_idle; reflexivity.
    + rewrite client_validate_unfold in H by exact Hnz. cbn [dir data asd] in H.
      destruct d.
      * apply wp_bind_inv in H. destruct H as ([[r0 dd1] asd1] & n1 & n2 & Hloop & Hret & _).
        inversion Hret; subst.
        pose proof (client_loop_turns e payload (List.length payload) 0
                      (fst (client_entry a)) (snd (client_entry a))
                      (Nat.le_0_l _) ltac:(lia)) as Hw.
        unfold size in Hloop. cbn [data] in Hloop. rewrite Hloop in Hw.
        destruct Hw as (ddm & asdm & Hp & He). cbn [fst snd] in He.
        assert (Hs : server ddm = server (flow_data_or_new a)).
        { destruct Hp as (Hsrv & _). rewrite Hsrv. apply client_entry_server. }
        eapply shape_client; eauto.
      * apply wp_bind_inv in H. destruct H as ([[r0 dd1] asd1] & n1 & n2 & Hsrv & Hret & _).
        inversion Hret; subst.
        pose proof (server_count_step _ _ _ _ _ _ _ _ Hsrv) as Hcount.
        rewrite client_entry_server in Hcount.
        apply server_effect in Hsrv. destruct Hsrv as (_ & Hc & _).
        eapply (shape_client_server _ _ _ dd1 asd1 (negb (Z.eqb r0 0))); eauto.
  - unfold Pop3ServiceDetector_validate in H. cbn [dir data asd] in H.
    destruct (size _ =? 0).
    { inversion H; subst. apply shape_inprocess; reflexivity. }
    destruct d.
    { inversion H; subst. apply shape_inprocess; reflexivity. }
    destruct (service_flow_data a) as [dd0 asd0] eqn:Hflow.
    destruct (negb (need_continue dd0) && _).
    { inversion H; subst. apply shape_service_known; [rewrite Hflow|]; reflexivity. }
    apply wp_bind_inv in H. destruct H as ([[r0 dd1] asd1] & n1 & n2 & Hsrv & Hret & _).
    pose proof (server_count_step _ _ _ _ _ _ _ _ Hsrv) as Hcount.
    destruct (service_flow_data_calls _ _ _ Hflow) as (Hdd0 & _). rewrite Hdd0 in Hcount.
    apply server_effect in Hsrv. destruct Hsrv as (_ & Hc & _).
    apply (shape_service _ _ _ dd1 asd1); [exact Hcount|rewrite Hflow; exact Hc|].
    destruct (Z.eqb r0 0);
      [destruct ((POP3_COUNT_THRESHOLD <=? count (server dd1))%Z) eqn:Ecount;
       [destruct (negb _)|]; cbn [andb] in Hret
      |destruct (negb _)]; inversion Hret; subst; constructor.
    apply Z.leb_le. exact Ecount.
Qed.

Lemma emitted_app a a' l : calls a' = calls a ++ l -> emitted a a' = l.
Proof. intros H. unfold emitted. rewrite H. apply skipn_length_app. Qed.

Lemma client_entry_change a :
  exists l,
    calls (snd (client_entry a)) = calls a ++ l /\
    flow_change (client (flow_data_or_new a)) (need_continue (flow_data_or_new a))
      (client (fst (client_entry a))) (need_continue (fst (client_entry a))) l.
Proof.
  unfold client_entry, flow_data_or_new.
  destruct (flow_data a) as [dd|].
  - destruct (set_flags (client dd)) eqn:Es; cbn [negb fst snd].
    + exists []. rewrite app_nil_r. split; [reflexivity|constructor].
    + eexists. split; [reflexivity|]. cbn. apply fc_first. exact Es.
  - cbn. eexists. split; [reflexivity|]. apply (fc_first _ false). reflexivity.
Qed.

Lemma client_side_change dd asd dd' asd' :
  client_side_effect dd asd dd' asd' ->
  exists l, calls asd' = calls asd ++ l /\
    flow_change (client dd) (need_continue dd) (client dd') (need_continue dd') l.
Proof.
  intros [(H1 & H2 & ->) | (ddR & dd1 & H1 & H2 & Hc & H3 & H4)].
  - exists []. rewrite app_nil_r, H1, H2. split; [reflexivity|constructor].
  - exists (correlate_calls ddR). split.
    + apply correlate_calls_spec in Hc. tauto.
    + rewrite <- H1, <- H2, H3, H4. eapply fc_status. exact Hc.
Qed.

Lemma service_flow_data_change a :
  fst (service_flow_data a) = flow_data_or_new a /\
  exists l, calls (snd (service_flow_data a)) = calls a ++ l /\
    forall fd nc, flow_change fd nc fd nc l.
Proof.
  unfold service_flow_data, flow_data_or_new.
  assert (Hg : packet_flag APPID_SESSION_CLIENT_GETS_SERVER_PACKETS) by (left; reflexivity).
  assert (Hc : packet_flag APPID_SESSION_CONTINUE) by (right; reflexivity).
  destruct (flow_data a) as [dd|]; [destruct (need_continue dd)|];
    (split; [reflexivity|]); cbn; eexists;
    (split; [rewrite <- app_assoc; reflexivity|]); intros fd nc;
    apply (fc_then fd nc fd nc fd nc [_] [_]); constructor; assumption.
Qed.

(** Every detector call is such a sequence. *)
Lemma detector_call_change a r a' :
  detector_call a r a' ->
  exists l, calls a' = calls a ++ l /\
    flow_change (client (flow_data_or_new a)) (need_continue (flow_data_or_new a))
      (client (flow_data_or_new a')) (need_continue (flow_data_or_new a')) l.
Proof.
  intros H. apply detector_call_shape in H.
  destruct H as [-> _ | -> _ | ddm asdm dd' asd1 _ Hp He -> | dd' asd1 failed _ Hc -> _
                | -> _ | dd' asd1 _ Hc Ht].
  - exists []. rewrite app_nil_r. split; [reflexivity|constructor].
  - exists [service_inprocess]. split; [reflexivity|]. apply fc_inprocess.
  - destruct (client_entry_change a) as (l0 & Hl0 & Hf0).
    pose proof (fc_turns _ _ _ _ Hp) as Hf1.
    destruct Hp as (_ & _ & _ & _ & _ & _ & _ & _ & _ & _ & k & Hk & _).
    rewrite (emitted_app _ _ _ Hk) in Hf1.
    destruct He as [(_ & -> & ->) | (_ & -> & ->)].
    + exists (l0 ++ repeat pop3_found k). cbn [calls data_add].
      rewrite Hk, Hl0, <- app_assoc. split; [reflexivity|].
      eapply fc_then; eauto.
    + exists ((l0 ++ repeat pop3_found k)
              ++ [set_session_flags_call APPID_SESSION_CLIENT_DETECTED]).
      cbn [calls data_add set_session_flags log].
      rewrite Hk, Hl0, <- !app_assoc. split; [reflexivity|].
      rewrite app_assoc.
      eapply fc_then; [eapply fc_then; eauto|]. cbn. apply fc_no_command.
  - destruct (client_entry_change a) as (l0 & Hl0 & Hf0).
    destruct (client_side_change _ _ _ _ Hc) as (l1 & Hl1 & Hf1).
    destruct failed.
    + exists ((l0 ++ l1)
              ++ [clear_session_flags_call APPID_SESSION_CLIENT_GETS_SERVER_PACKETS]).
      cbn [calls data_add clear_session_flags log].
      rewrite Hl1, Hl0, <- !app_assoc. split; [reflexivity|].
      rewrite app_assoc.
      eapply fc_then; [eapply fc_then; eauto|]. cbn. apply fc_clear. left; reflexivity.
    + exists (l0 ++ l1). cbn [calls data_add].
      rewrite Hl1, Hl0, <- !app_assoc. split; [reflexivity|].
      eapply fc_then; eauto.
  - destruct (service_flow_data_change a) as (Hdd & l0 & Hl0 & Hf0).
    exists l0. split; [exact Hl0|].
    replace (flow_data_or_new (bump_pop_flows (snd (service_flow_data a))))
      with (flow_data_or_new a); [apply Hf0|].
    unfold service_flow_data, flow_data_or_new.
    destruct (flow_data a) as [dd|] eqn:E; [destruct (need_continue dd)|];
      cbn; rewrite ?E; reflexivity.
  - destruct (service_flow_data_change a) as (Hdd & l0 & Hl0 & Hf0).
    destruct (client_side_change _ _ _ _ Hc) as (l1 & Hl1 & Hf1).
    rewrite Hdd in Hf1.
    destruct Ht.
    + exists ((l0 ++ l1) ++ [service_report dd']).
      cbn [calls data_add bump_pop_flows with_stats log].
      rewrite Hl1, Hl0, <- !app_assoc. split; [reflexivity|].
      rewrite app_assoc.
      eapply fc_then; [eapply fc_then; [apply Hf0|exact Hf1]|]. cbn. apply fc_report.
    + exists ((l0 ++ l1) ++ [service_inprocess]).
      cbn [calls data_add log]. rewrite Hl1, Hl0, <- !app_assoc. split; [reflexivity|].
      rewrite app_assoc.
      eapply fc_then; [eapply fc_then; [apply Hf0|exact Hf1]|]. cbn. apply fc_inprocess.
    + exists ((l0 ++ l1) ++ [fail_service]).
      cbn [calls data_add log]. rewrite Hl1, Hl0, <- !app_assoc. split; [reflexivity|].
      rewrite app_assoc.
      eapply fc_then; [eapply fc_then; [apply Hf0|exact Hf1]|]. cbn. apply fc_fail.
    + exists ((l0 ++ l1) ++ [clear_session_flags_call APPID_SESSION_CONTINUE]).
      cbn [calls data_add bump_pop_flows with_stats clear_session_flags log].
      rewrite Hl1, Hl0, <- !app_assoc. split; [reflexivity|].
      rewrite app_assoc.
      eapply fc_then; [eapply fc_then; [apply Hf0|exact Hf1]|]. cbn.
      apply fc_clear. right; reflexivity.
Qed.

(** ** What holds over every call of a detector *)

Lemma filter_repeat_false {A} (f : A -> bool) x k : f x = false -> filter f (repeat x k) = [].
Proof. intros H. induction k; simpl; [reflexivity|]. rewrite H. exact IHk. Qed.

Lemma progress_calls dd asd dd' asd' :
  client_progress dd asd dd' asd' -> exists k, emitted asd asd' = repeat pop3_found k.
Proof.
  intros (_ & _ & _ & _ & _ & _ & _ & _ & _ & _ & k & Hk & _).
  exists k. apply emitted_app. exact Hk.
Qed.

Lemma flow_change_transaction fd nc fd' nc' l :
  flow_change fd nc fd' nc' l ->
  state fd = POP3_CLIENT_STATE_TRANS ->
  state fd' = POP3_CLIENT_STATE_TRANS /\ filter names_pop3s l = [].
Proof.
  induction 1 as [fd nc | fd nc Hs | dd asd dd' asd' Hp | fd nc | dd asd dd1 asd1 Hc
                 | f fd nc Hf | f fd nc Hf | dd | fd nc | fd nc
                 | fd nc fd1 nc1 fd2 nc2 l1 l2 H1 IH1 H2 IH2]; intros Hst; auto.
  - destruct (progress_calls _ _ _ _ Hp) as [k ->].
    destruct Hp as (_ & _ & _ & _ & _ & _ & A7 & _).
    split; [apply A7; exact Hst|]. apply filter_repeat_false. reflexivity.
  - unfold correlate in Hc. unfold correlate_calls. rewrite Hst in *.
    destruct (username (client dd)); destruct (error (server dd));
      destruct (detected (client dd)) eqn:Ed; inversion Hc; subst; cbn;
      rewrite ?Ed; auto.
  - split; [exact Hst|]. destruct Hf as [-> | ->]; reflexivity.
  - split; [exact Hst|]. cbn. unfold service_report. rewrite Hst. reflexivity.
  - destruct (IH1 Hst) as [Hs1 Hl1]. destruct (IH2 Hs1) as [Hs2 Hl2].
    split; [exact Hs2|]. rewrite filter_app, Hl1, Hl2. reflexivity.
Qed.

(** X13.  The TRANSACTION state is final.  Once the client side of a flow is
    in TRANSACTION state, no call of either detector, whatever the payload
    and its direction, takes it out of that state, and no such call marks
    the flow as POP3 over TLS: none sets ENCRYPTED or names APP_ID_POP3S in
    an add_app, add_user or add_service_consume_subtype call. *)
Theorem transaction_state_is_final a r a' :
  detector_call a r a' ->
  state (client (flow_data_or_new a)) = POP3_CLIENT_STATE_TRANS ->
  state (client (flow_data_or_new a')) = POP3_CLIENT_STATE_TRANS /\
  filter names_pop3s (emitted a a') = [].
Proof.
  intros Hcall Hst. apply detector_call_change in Hcall.
  destruct Hcall as (l & Hl & Hf). rewrite (emitted_app _ _ _ Hl).
  eapply flow_change_transaction; eauto.
Qed.

Lemma flow_change_latch fd nc fd' nc' l :
  flow_change fd nc fd' nc' l ->
  (set_flags fd = true -> set_flags fd' = true /\ (nc = false -> nc' = false)) /\
  (got_user fd = true -> got_user fd' = true) /\
  (detected fd = true -> detected fd' = true).
Proof.
  induction 1 as [fd nc | fd nc Hs | dd asd dd' asd' Hp | fd nc | dd asd dd1 asd1 Hc
                 | f fd nc Hf | f fd nc Hf | dd | fd nc | fd nc
                 | fd nc fd1 nc1 fd2 nc2 l1 l2 H1 IH1 H2 IH2].
  - repeat split; auto.
  - split; [congruence|]. cbn. auto.
  - destruct Hp as (_ & A2 & _ & A4 & A5 & _ & _ & A8 & _).
    split; [intros H; split; congruence|]. split; [congruence|exact A8].
  - repeat split; auto.
  - unfold correlate in Hc.
    destruct (state (client dd)); destruct (username (client dd));
      destruct (error (server dd)); destruct (detected (client dd)) eqn:Ed;
      inversion Hc; subst; cbn; repeat split; auto; congruence.
  - repeat split; auto.
  - repeat split; auto.
  - repeat split; auto.
  - repeat split; auto.
  - repeat split; auto.
  - destruct IH1 as (A1 & A2 & A3). destruct IH2 as (B1 & B2 & B3).
    split; [|auto]. intros Hs. destruct (A1 Hs) as [Hs1 Hn1].
    destruct (B1 Hs1) as [Hs2 Hn2]. auto.
Qed.

(** X14.  The one-way members of the flow data.  Over every call of either
    detector, [set_flags], [got_user] and [detected] stay set once they are
    set, and [need_continue] is raised only by the call that sets
    [set_flags]: on a flow with [set_flags] set, a [need_continue] that is
    0 stays 0. *)
Theorem flow_data_latches a r a' :
  detector_call a r a' ->
  (set_flags (client (flow_data_or_new a)) = true ->
   set_flags (client (flow_data_or_new a')) = true /\
   (need_continue (flow_data_or_new a) = false ->
    need_continue (flow_data_or_new a') = false)) /\
  (got_user (client (flow_data_or_new a)) = true ->
   got_user (client (flow_data_or_new a')) = true) /\
  (detected (client (flow_data_or_new a)) = true ->
   detected (client (flow_data_or_new a')) = true).
Proof.
  intros Hcall. apply detector_call_change in Hcall.
  destruct Hcall as (l & Hl & Hf).
  exact (flow_change_latch _ _ _ _ _ Hf).
Qed.

Lemma flow_change_user_names fd nc fd' nc' l :
  flow_change fd nc fd' nc' l ->
  held_ok fd -> held_ok fd' /\ Forall add_user_ok l.
Proof.
  induction 1 as [fd nc | fd nc Hs | dd asd dd' asd' Hp | fd nc | dd asd dd1 asd1 Hc
                 | f fd nc Hf | f fd nc Hf | dd | fd nc | fd nc
                 | fd nc fd1 nc1 fd2 nc2 l1 l2 H1 IH1 H2 IH2]; intros Hok.
  - split; [exact Hok|constructor].
  - split; [exact Hok|repeat constructor].
  - destruct (progress_calls _ _ _ _ Hp) as [k ->].
    destruct Hp as (_ & _ & _ & _ & _ & A6 & _).
    split.
    + unfold held_ok in *. destruct A6 as [->|(u & -> & Hu)]; [exact Hok|exact Hu].
    + apply Forall_forall. intros c Hc. apply repeat_spec in Hc. subst c. exact I.
  - split; [exact Hok|repeat constructor].
  - unfold correlate in Hc. unfold correlate_calls, held_ok in *.
    destruct (state (client dd)); destruct (username (client dd)) as [u|] eqn:Eu;
      destruct (error (server dd)); destruct (detected (client dd)) eqn:Ed;
      inversion Hc; subst; cbn; rewrite ?Ed, ?Eu;
      (split; [auto|];
       repeat (apply Forall_cons;
               [cbn; try exact I; try (split; [exact Hok|split; [reflexivity|auto]])|]);
       apply Forall_nil).
  - split; [exact Hok|repeat constructor].
  - split; [exact Hok|repeat constructor].
  - split; [exact Hok|repeat constructor].
  - split; [exact Hok|repeat constructor].
  - split; [exact Hok|repeat constructor].
  - destruct (IH1 Hok) as [Hok1 Hl1]. destruct (IH2 Hok1) as [Hok2 Hl2].
    split; [exact Hok2|]. apply Forall_app. auto.
Qed.

(** X15.  The user names that are reported.  Over the whole life of a flow,
    whatever the payloads, their directions and their order, and whatever
    the framework does to the session flags between the calls, every
    add_user call names APP_ID_POP3, has success 0 or 1, and carries a user
    name of 1 to 247 bytes, each a letter, a digit or one of ".", "@", "-",
    "_"; the user name that the flow holds, if any, is such a name. *)
Theorem reported_user_names_are_clean a :
  flow_history a ->
  held_ok (client (flow_data_or_new a)) /\ Forall add_user_ok (calls a).
Proof.
  induction 1 as [fl st | a r a' Hh IH Hcall | a fl Hh IH].
  - split; [exact I|constructor].
  - destruct IH as [Hok Hcalls]. apply detector_call_change in Hcall.
    destruct Hcall as (l & Hl & Hf).
    destruct (flow_change_user_names _ _ _ _ _ Hf Hok) as [Hok' Hl'].
    split; [exact Hok'|]. rewrite Hl. apply Forall_app. auto.
  - exact IH.
Qed.

(** ** The calls of the client detector *)

Lemma client_entry_calls a :
  set_flags (client (fst (client_entry a))) = true /\
  calls (snd (client_entry a))
  = calls a ++ (if negb (set_flags (client (flow_data_or_new a)))
                then [set_session_flags_call APPID_SESSION_CLIENT_GETS_SERVER_PACKETS]
                else []).
Proof.
  unfold client_entry, flow_data_or_new.
  destruct (flow_data a) as [dd|].
  - destruct (set_flags (client dd)) eqn:Es; cbn [negb fst snd].
    + rewrite app_nil_r. auto.
    + split; reflexivity.
  - split; reflexivity.
Qed.

Section ClientCalls.

Variable eoc_past_end : bool.

(** X16.  The calls of Pop3ClientDetector::validate on a client payload.  It
    returns INPROCESS or SUCCESS, never NOMATCH, and into the framework it
    makes these calls and no other, in this order: on the first call for the
    flow, set_session_flags(CLIENT_GETS_SERVER_PACKETS); then add_app(POP3,
    POP3) once for each transaction command met while the client state is
    TRANSACTION; then, when it returns SUCCESS,
    set_session_flags(CLIENT_DETECTED), with [need_continue] cleared.  It
    reports POP3 only on a flow that it leaves in TRANSACTION state with
    [detected] set. *)
Theorem client_detector_calls args r asd' n :
  dir args = APP_ID_FROM_INITIATOR -> size args <> 0 ->
  Pop3ClientDetector_validate eoc_past_end args = Ok (r, asd') n ->
  r <> APPID_NOMATCH /\
  exists k dd',
    flow_data asd' = Some dd' /\
    set_flags (client dd') = true /\
    calls asd' = calls (asd args)
                 ++ client_calls (negb (set_flags (client (flow_data_or_new (asd args))))) k r /\
    (0 < k -> state (client dd') = POP3_CLIENT_STATE_TRANS /\ detected (client dd') = true) /\
    (r = APPID_SUCCESS ->
     need_continue dd' = false /\
     get_session_flags APPID_SESSION_CLIENT_DETECTED asd' = true).
Proof.
  intros Hdir Hsz H. rewrite client_validate_unfold in H by exact Hsz. rewrite Hdir in H.
  apply wp_bind_inv in H. destruct H as ([[r0 dd1] asd1] & n1 & n2 & Hloop & Hret & _).
  inversion Hret; subst; clear Hret.
  pose proof (client_loop_turns eoc_past_end (data args) (size args) 0
                (fst (client_entry (asd args))) (snd (client_entry (asd args)))
                (Nat.le_0_l _) ltac:(unfold size; lia)) as Hw.
  unfold size in Hloop, Hw. rewrite Hloop in Hw.
  destruct Hw as (ddm & asdm & Hp & He). cbn [fst snd] in He.
  destruct (client_entry_calls (asd args)) as [Hsf Hcalls].
  destruct Hp as (_ & _ & _ & A4 & _ & _ & _ & _ & _ & _ & k & Hk & Hk').
  unfold client_calls.
  destruct He as [(-> & -> & ->) | (-> & -> & ->)].
  - split; [discriminate|]. exists k, ddm. split; [reflexivity|].
    split; [congruence|]. split.
    { cbn [calls data_add]. rewrite Hk, Hcalls, <- app_assoc, app_nil_r. reflexivity. }
    split; [intros Hpos; destruct (Hk' Hpos); auto|]. discriminate.
  - split; [discriminate|]. exists k, (with_need_continue ddm false).
    split; [reflexivity|]. split; [cbn; congruence|]. split.
    { cbn [calls data_add set_session_flags log].
      rewrite Hk, Hcalls, <- !app_assoc. reflexivity. }
    split; [intros Hpos; destruct (Hk' Hpos); auto|]. intros _. split; reflexivity.
Qed.

End ClientCalls.

Lemma client_detector_calls_witness :
  exists asd' n,
    Pop3ClientDetector_validate false
      (from_client (bytes "APOP bob c4c9334bac560ecc979e58001b3e22fb" ++ crlf
                    ++ bytes "STAT" ++ crlf ++ bytes "LIST" ++ crlf ++ bytes "hello")
         new_session)
      = Ok (APPID_SUCCESS, asd') n /\
    APPID_SUCCESS <> APPID_NOMATCH /\
    exists k dd',
      flow_data asd' = Some dd' /\
      set_flags (client dd') = true /\
      calls asd' = calls new_session ++ client_calls true k APPID_SUCCESS /\
      (0 < k -> state (client dd') = POP3_CLIENT_STATE_TRANS /\ detected (client dd') = true) /\
      (APPID_SUCCESS = APPID_SUCCESS ->
       need_continue dd' = false /\
       get_session_flags APPID_SESSION_CLIENT_DETECTED asd' = true).
Proof.
  do 2 eexists. split; [vm_compute; reflexivity|].
  match goal with
  | |- context [flow_data ?a = Some _] =>
      assert (E : exists n,
                Pop3ClientDetector_validate false
                  (from_client (bytes "APOP bob c4c9334bac560ecc979e58001b3e22fb" ++ crlf
                                ++ bytes "STAT" ++ crlf ++ bytes "LIST" ++ crlf
                                ++ bytes "hello") new_session)
                = Ok (APPID_SUCCESS, a) n)
        by (eexists; vm_compute; reflexivity)
  end.
  destruct E as [n E].
  exact (client_detector_calls false
           (from_client (bytes "APOP bob c4c9334bac560ecc979e58001b3e22fb" ++ crlf
                         ++ bytes "STAT" ++ crlf ++ bytes "LIST" ++ crlf ++ bytes "hello")
              new_session) _ _ _ eq_refl ltac:(discriminate) E).
Defined.

(** ** Calls on concrete flows *)

Lemma then_client_call a p a' :
  then_client (Some a) p = Some a' -> exists r, detector_call a r a'.
Proof.
  unfold then_client.
  destruct (Pop3ClientDetector_validate false (from_client p a)) as [[r a1] n| |] eqn:E;
    try discriminate.
  intros H. inversion H; subst. exists r. eapply client_call. exact E.
Qed.

Lemma then_service_call a p a' :
  then_service (Some a) p = Some a' -> exists r, detector_call a r a'.
Proof.
  unfold then_service.
  destruct (Pop3ServiceDetector_validate (from_server p a)) as [[r a1] n| |] eqn:E;
    try discriminate.
  intros H. inversion H; subst. exists r. eapply service_call. exact E.
Qed.

Lemma transaction_state_is_final_witness :
  exists a',
    then_service (Some (data_add transaction_flow new_session)) (bytes "+OK welcome" ++ crlf)
      = Some a' /\
    state (client (flow_data_or_new a')) = POP3_CLIENT_STATE_TRANS /\
    filter names_pop3s (emitted (data_add transaction_flow new_session) a') = [].
Proof.
  eexists. split; [vm_compute; reflexivity|].
  match goal with
  | |- context [emitted ?a ?a'] =>
      destruct (then_service_call a (bytes "+OK welcome" ++ crlf) a' eq_refl) as [r Hcall];
      exact (transaction_state_is_final a r a' Hcall eq_refl)
  end.
Defined.

Lemma flow_data_latches_witness :
  exists a',
    then_service (Some (data_add transaction_flow new_session)) (bytes "+OK welcome" ++ crlf)
      = Some a' /\
    set_flags (client (flow_data_or_new a')) = true /\
    need_continue (flow_data_or_new a') = false /\
    got_user (client (flow_data_or_new a')) = true.
Proof.
  eexists. split; [vm_compute; reflexivity|].
  match goal with
  | |- context [flow_data_or_new ?a'] =>
      destruct (then_service_call (data_add transaction_flow new_session)
                  (bytes "+OK welcome" ++ crlf) a' eq_refl) as [r Hcall];
      destruct (flow_data_latches _ r a' Hcall) as (H1 & _ & _);
      destruct (H1 eq_refl) as [H2 H3]
  end.
  split; [exact H2|]. split; [exact (H3 eq_refl)|]. reflexivity.
Defined.

Lemma reported_user_names_are_clean_witness :
  exists a,
    then_service (then_client (Some new_session) (bytes "PASS alice" ++ crlf))
      (bytes "+OK" ++ crlf) = Some a /\
    In (add_user (bytes "alice") APP_ID_POP3 1) (calls a) /\
    held_ok (client (flow_data_or_new a)) /\ Forall add_user_ok (calls a).
Proof.
  eexists. split; [vm_compute; reflexivity|].
  split; [vm_compute; tauto|].
  apply reported_user_names_are_clean.
  match goal with
  | |- flow_history ?a2 =>
      assert (H1 : exists a1, then_client (Some new_session) (bytes "PASS alice" ++ crlf)
                              = Some a1 /\
                              then_service (Some a1) (bytes "+OK" ++ crlf) = Some a2)
        by (eexists; split; [vm_compute; reflexivity|vm_compute; reflexivity])
  end.
  destruct H1 as (a1 & Hc & Hs).
  destruct (then_client_call _ _ _ Hc) as [r1 Hcall1].
  destruct (then_service_call _ _ _ Hs) as [r2 Hcall2].
  eapply history_call; [|exact Hcall2].
  eapply history_call; [|exact Hcall1].
  apply history_new.
Defined.

(** ** The command found at the cursor *)

Lemma in_patterns_id cmd :
  In cmd pop3_client_patterns ->
  exists id, 1 <= id <= 29 /\ cmd = nth (id - 1) pop3_client_patterns no_pattern.
Proof.
  intros H. apply In_nth with (d := no_pattern) in H. destruct H as (i & Hi & <-).
  change (List.length pop3_client_patterns) with 29 in Hi.
  exists (S i). split; [lia|]. f_equal. lia.
Qed.

(** A pattern that starts the text is found. *)
Lemma pattern_index_complete text cmd :
  In cmd pop3_client_patterns -> starts_with text cmd -> pattern_index_of text <> 0.
Proof.
  intros Hin Hpre. destruct (in_patterns_id cmd Hin) as (id & Hid & ->).
  destruct (pattern_lengths id Hid) as [Hl Hr].
  set (c := nth (id - 1) pop3_client_patterns no_pattern) in *.
  assert (Hlen : length c <= List.length text).
  { unfold starts_with in Hpre. apply (f_equal (@List.length Z)) in Hpre.
    rewrite length_firstn in Hpre. lia. }
  unfold pattern_index_of, find_all. rewrite run_callback_find.
  destruct (find accepted (all_matches cmd_matcher text)) as [[id' pos']|] eqn:E.
  - cbn [fst]. apply find_some in E. destruct E as [Hin' _].
    unfold all_matches in Hin'. apply in_flat_map in Hin'.
    destruct Hin' as (q & _ & Hq). apply in_matches_ending_at in Hq.
    destruct Hq as (pat & Hm & _). cbn [fst] in Hm.
    apply cmd_matcher_table in Hm. lia.
  - exfalso. apply find_none with (x := (id, length c)) in E.
    + unfold accepted in E. cbn [fst snd] in E. fold c in E.
      rewrite Nat.eqb_refl in E. discriminate.
    + unfold all_matches. apply in_flat_map. exists (length c). split.
      * apply in_seq. lia.
      * apply in_matches_ending_at. exists (pattern c). cbn [fst snd].
        split; [apply cmd_matcher_table; split; [exact Hid|reflexivity]|].
        split; [|reflexivity].
        rewrite Hl. apply ends_at_prefix. rewrite <- Hl. exact Hpre.
Qed.

(** X17.  The match is anchored at the cursor.  With the callback
    pop3_pattern_match, which keeps a match only when it ends at the
    pattern's own length, the search returns a non-zero index exactly when
    a pattern of the table starts the text; the index is then the 1-based
    place in the table of a pattern that starts the text, and no shorter
    pattern of the table does.  A command further on in the text is not
    found.  (The search tool itself is modelled: it reports every
    occurrence, by increasing end position.) *)
Theorem command_match_is_anchored text :
  (pattern_index_of text <> 0 <->
   exists cmd, In cmd pop3_client_patterns /\ starts_with text cmd) /\
  (pattern_index_of text <> 0 ->
   let cmd := nth (pattern_index_of text - 1) pop3_client_patterns no_pattern in
   1 <= pattern_index_of text <= num_pop3_client_patterns /\
   starts_with text cmd /\
   forall other, In other pop3_client_patterns -> starts_with text other ->
                 length cmd <= length other).
Proof.
  split; [split|].
  - intros Hnz. destruct (pattern_index_sound text Hnz) as (Hid & Hpre & _).
    eexists. split; [|exact Hpre].
    apply nth_In. change (List.length pop3_client_patterns) with 29. lia.
  - intros (cmd & Hin & Hpre). eapply pattern_index_complete; eauto.
  - intros Hnz. destruct (pattern_index_sound text Hnz) as (Hid & Hpre & _ & Hmin).
    cbv zeta. split; [exact Hid|]. split; [exact Hpre|].
    intros other Hin Hother. destruct (in_patterns_id other Hin) as (id & Hi & ->).
    destruct (Nat.le_gt_cases
                (length (nth (pattern_index_of text - 1) pop3_client_patterns no_pattern))
                (length (nth (id - 1) pop3_client_patterns no_pattern))) as [Hle|Hgt];
      [exact Hle|].
    exfalso. exact (Hmin id Hi Hgt Hother).
Qed.

Lemma pattern_index_not_7 text : pattern_index_of text <> 7.
Proof.
  intros H.
  assert (Hnz : pattern_index_of text <> 0) by lia.
  destruct (pattern_index_sound text Hnz) as (_ & Hpre & _ & Hfirst).
  rewrite H in Hpre, Hfirst. cbn in Hpre.
  apply (Hfirst 4); [lia|cbn; lia|].
  cbn. destruct text as [|a [|b [|c [|d [|e [|f [|g text]]]]]]]; try discriminate.
  cbn in Hpre. inversion Hpre; subst. reflexivity.
Qed.

(** X18.  Two entries of the table are never found.  "AUTH " CR LF and
    "AUTH " LF (the 7th and 8th entries) start with the 4th entry, "AUTH ",
    whose match ends first and is kept: the search never returns 7 or 8, so
    that the labels PATTERN_AUTHEOC4 (= 7) and PATTERN_STLSEOC (= 8) of
    [switch (pattern_index)] are never taken.  (The search tool is
    modelled: it reports matches by increasing end position.) *)
Theorem shadowed_patterns_never_found text :
  pattern_index_of text <> 7 /\ pattern_index_of text <> 8 /\
  pattern_index_of text <> PATTERN_AUTHEOC4 /\ pattern_index_of text <> PATTERN_STLSEOC /\
  starts_with AUTHEOC3 (nth 3 pop3_client_patterns no_pattern) /\
  starts_with AUTHEOC4 (nth 3 pop3_client_patterns no_pattern).
Proof.
  split; [apply pattern_index_not_7|]. split; [apply pattern_index_not_8|].
  split; [apply pattern_index_not_7|]. split; [apply pattern_index_not_8|].
  split; reflexivity.
Qed.

(** ** Transaction commands *)

Lemma starts_with_compatible text c1 c2 :
  length c1 = List.length (pattern c1) -> length c2 = List.length (pattern c2) ->
  starts_with text c1 -> starts_with text c2 ->
  compatible (pattern c1) (pattern c2) = true.
Proof.
  unfold starts_with, compatible. intros H1 H2 P1 P2.
  rewrite <- H1, <- H2. rewrite P1 at 1. rewrite P2 at 1.
  rewrite !firstn_firstn.
  replace (Nat.min (Nat.min (length c1) (length c2)) (length c1))
    with (Nat.min (Nat.min (length c1) (length c2)) (length c2)) by lia.
  apply bytes_eqb_refl.
Qed.

(** No entry of the table before the transaction commands, the tenth
    ("STLS" LF) left aside, starts like a transaction command. *)
Lemma transaction_commands_apart :
  forallb (fun i =>
             forallb (fun cmd =>
                        negb (compatible (pattern (nth i pop3_client_patterns no_pattern))
                                (pattern cmd)))
               transaction_commands)
    (seq 0 9) = true.
Proof. vm_compute. reflexivity. Qed.

Lemma transaction_command_index text cmd :
  In cmd transaction_commands -> starts_with text cmd ->
  PATTERN_POP3_OTHER <= pattern_index_of text.
Proof.
  intros Hin Hpre.
  assert (Hin' : In cmd pop3_client_patterns).
  { unfold transaction_commands in Hin.
    rewrite <- (firstn_skipn 10 pop3_client_patterns). apply in_or_app. right. exact Hin. }
  pose proof (pattern_index_complete text cmd Hin' Hpre) as Hnz.
  destruct (pattern_index_sound text Hnz) as (Hid & Hidx & _).
  destruct (Nat.le_gt_cases PATTERN_POP3_OTHER (pattern_index_of text)) as [H|H]; [exact H|].
  exfalso. unfold PATTERN_POP3_OTHER in H.
  destruct (in_patterns_id cmd Hin') as (id & Hi & Hcmd).
  assert (Hc : compatible
                 (pattern (nth (pattern_index_of text - 1) pop3_client_patterns no_pattern))
                 (pattern cmd) = true).
  { apply (starts_with_compatible text).
    - apply pattern_lengths. exact Hid.
    - rewrite Hcmd. apply pattern_lengths. exact Hi.
    - exact Hidx.
    - exact Hpre. }
  pose proof transaction_commands_apart as Hall.
  rewrite forallb_forall in Hall.
  specialize (Hall (pattern_index_of text - 1) ltac:(apply in_seq; lia)).
  rewrite forallb_forall in Hall. specialize (Hall cmd Hin).
  rewrite Hc in Hall. discriminate.
Qed.

Lemma starts_with_window buf cmd :
  In cmd pop3_client_patterns -> starts_with buf cmd -> starts_with (window buf 0) cmd.
Proof.
  intros Hin Hpre. destruct (in_patterns_id cmd Hin) as (id & Hi & ->).
  destruct (pattern_lengths id Hi) as [Hl Hr].
  set (c := nth (id - 1) pop3_client_patterns no_pattern) in *.
  assert (Hlen : length c <= List.length buf).
  { unfold starts_with in Hpre. apply (f_equal (@List.length Z)) in Hpre.
    rewrite length_firstn in Hpre. lia. }
  unfold starts_with. rewrite window_firstn.
  - exact Hpre.
  - unfold window. rewrite sub_length.
    destruct (Nat.ltb_spec longest_pattern (List.length buf - 0)); lia.
Qed.

Lemma client_entry_state a :
  state (client (fst (client_entry a))) = state (client (flow_data_or_new a)).
Proof.
  unfold client_entry, flow_data_or_new.
  destruct (flow_data a) as [dd|]; [destruct (negb (set_flags (client dd)))|]; reflexivity.
Qed.

Section TransactionCommand.

Variable eoc_past_end : bool.

(** X19.  A transaction command reports the POP3 client.  On a flow whose
    client state is TRANSACTION, a client payload that starts with one of
    the transaction commands of the table (DELE, LIST, NOOP, QUIT, RETR,
    STAT, RSET, TOP, UIDL, CAPA in their listed forms) makes
    Pop3ClientDetector::validate call add_app(POP3, POP3) at least once and
    leave the flow in TRANSACTION state with [detected] set. *)
Theorem transaction_command_reports_pop3 args cmd :
  dir args = APP_ID_FROM_INITIATOR ->
  state (client (flow_data_or_new (asd args))) = POP3_CLIENT_STATE_TRANS ->
  In cmd transaction_commands -> starts_with (data args) cmd ->
  exists r asd' n dd' k,
    Pop3ClientDetector_validate eoc_past_end args = Ok (r, asd') n /\
    flow_data asd' = Some dd' /\
    state (client dd') = POP3_CLIENT_STATE_TRANS /\ detected (client dd') = true /\
    calls asd' = calls (asd args)
                 ++ client_calls (negb (set_flags (client (flow_data_or_new (asd args)))))
                      (S k) r.
Proof.
  intros Hdir Hst Hin Hpre.
  assert (Hin' : In cmd pop3_client_patterns).
  { unfold transaction_commands in Hin.
    rewrite <- (firstn_skipn 10 pop3_client_patterns). apply in_or_app. right. exact Hin. }
  pose proof (starts_with_window _ _ Hin' Hpre) as Hwin.
  pose proof (transaction_command_index _ _ Hin Hwin) as Hidx.
  assert (Hsz : size args <> 0).
  { destruct (in_patterns_id cmd Hin') as (id & Hi & ->).
    destruct (pattern_lengths id Hi) as [Hl Hr].
    unfold starts_with in Hpre. apply (f_equal (@List.length Z)) in Hpre.
    rewrite length_firstn in Hpre. unfold size. lia. }
  rewrite client_validate_unfold by exact Hsz. rewrite Hdir.
  destruct (client_entry_calls (asd args)) as [Hsf Hcalls].
  pose proof (client_entry_state (asd args)) as HstE. rewrite Hst in HstE.
  set (ddE := fst (client_entry (asd args))) in *.
  set (aE := snd (client_entry (asd args))) in *.
  unfold size in *. set (buf := data args) in *.
  assert (Hunf : forall f dd a,
            client_loop eoc_past_end (S f) buf (List.length buf) 0 dd a
            = ('(r, dd, asd) <- client_command eoc_past_end buf (List.length buf) 0 dd a ;;
               match r with
               | Return code => ret (code, dd, asd)
               | Continue s => client_loop eoc_past_end f buf (List.length buf) s dd asd
               end)).
  { intros. cbn [client_loop].
    destruct (Nat.eqb_spec (List.length buf - 0) 0) as [|_]; [lia|reflexivity]. }
  set (fuel := List.length buf - 1).
  assert (Hl : client_loop eoc_past_end (List.length buf) buf (List.length buf) 0 ddE aE
               = client_loop eoc_past_end (S fuel) buf (List.length buf) 0 ddE aE).
  { f_equal. unfold fuel. lia. }
  rewrite Hl, Hunf. clear Hl Hunf.
  pose proof (client_command_wp eoc_past_end buf 0 ddE aE ltac:(lia)) as Hw.
  apply wp_ok in Hw. destruct Hw as ([[r1 dd1] asd1] & n1 & Hcmd & Hout).
  cbn [fst snd] in Hout. rewrite Hcmd.
  inversion Hout as [H0 | s' fd' n0 Hnz Hne Hs' Hn Hp
                    | s' asd0 n0 Hnz Hst0 Hs' Hn Hc Hf Hd]; subst.
  { exfalso. pose proof (pattern_index_complete _ _ Hin' Hwin). contradiction. }
  { contradiction. }
  destruct (Nat.leb_spec PATTERN_POP3_OTHER (pattern_index_of (window buf 0))) as [_|]; [|lia].
  unfold trans_calls in Hc.
  destruct (Nat.leb_spec PATTERN_POP3_OTHER (pattern_index_of (window buf 0))) as [_|]; [|lia].
  pose proof (client_loop_turns eoc_past_end buf fuel s'
                (with_client ddE (with_detected (client ddE) true)) asd1
                ltac:(lia) ltac:(lia)) as Hw.
  apply wp_ok in Hw. destruct Hw as ([[r2 dd2] asd2] & n2 & Hloop & ddm & asdm & Hp & He).
  cbn [fst snd] in He. unfold bind at 2. rewrite Hloop. unfold bind, ret.
  destruct Hp as (_ & _ & _ & _ & _ & _ & A7 & A8 & _ & _ & k & Hk & _).
  destruct (A7 HstE) as [HstM _]. specialize (A8 eq_refl).
  unfold client_calls.
  destruct He as [(-> & -> & ->) | (-> & -> & ->)].
  - exists APPID_INPROCESS. do 2 eexists. exists ddm, k.
    split; [reflexivity|]. split; [reflexivity|]. split; [exact HstM|]. split; [exact A8|].
    cbn [calls data_add]. rewrite Hk, Hc, Hcalls, <- !app_assoc, app_nil_r. reflexivity.
  - exists APPID_SUCCESS. do 2 eexists. exists (with_need_continue ddm false), k.
    split; [reflexivity|]. split; [reflexivity|]. split; [exact HstM|]. split; [exact A8|].
    cbn [calls data_add set_session_flags log].
    rewrite Hk, Hc, Hcalls, <- !app_assoc. reflexivity.
Qed.

End TransactionCommand.

Lemma transaction_command_reports_pop3_witness :
  exists r asd' n dd' k,
    Pop3ClientDetector_validate false
      (from_client (bytes "RETR 1" ++ crlf) (data_add transaction_flow new_session))
      = Ok (r, asd') n /\
    flow_data asd' = Some dd' /\
    state (client dd') = POP3_CLIENT_STATE_TRANS /\ detected (client dd') = true /\
    calls asd' = calls (data_add transaction_flow new_session)
                 ++ client_calls false (S k) r.
Proof.
  apply (transaction_command_reports_pop3 false
           (from_client (bytes "RETR 1" ++ crlf) (data_add transaction_flow new_session))
           (entry RETR)).
  - reflexivity.
  - reflexivity.
  - cbv. tauto.
  - reflexivity.
Defined.

(** ** The response count over the life of a flow *)

Lemma packet_call_detector d a r a' : packet_call d a r a' -> detector_call a r a'.
Proof.
  intros [e p n H | p n H]; [eapply client_call|eapply service_call]; exact H.
Qed.

Lemma client_side_no_report dd asd dd' asd' :
  client_side_effect dd asd dd' asd' ->
  exists l, calls asd' = calls asd ++ l /\ filter is_service_report l = [].
Proof.
  intros [(_ & _ & ->) | (ddR & dd1 & _ & _ & Hc & _)].
  - exists []. rewrite app_nil_r. auto.
  - apply correlate_calls_spec in Hc. destruct Hc as (Hc & _).
    eexists. split; [exact Hc|apply correlate_calls_no_report].
Qed.

(** What one call does to the response count, and when it reports the
    service. *)
Lemma call_shape_count a r a' :
  call_shape a r a' ->
  count_step (server (flow_data_or_new a)) (server (flow_data_or_new a')) /\
  exists l, calls a' = calls a ++ l /\
    (filter is_service_report l = [] \/
     (POP3_COUNT_THRESHOLD <= count (server (flow_data_or_new a')))%Z).
Proof.
  intros H.
  destruct H as [-> _ | -> _ | ddm asdm dd' asd1 Hsrv Hp He -> | dd' asd1 failed Hcount Hc -> _
                | -> _ | dd' asd1 Hcount Hc Ht].
  - split; [left; reflexivity|]. exists []. rewrite app_nil_r. auto.
  - split; [left; reflexivity|]. exists [service_inprocess]. auto.
  - destruct (client_entry_calls a) as [_ Hcalls].
    destruct Hp as (_ & _ & _ & _ & _ & _ & _ & _ & _ & _ & k & Hk & _).
    assert (Hrep : filter is_service_report (repeat pop3_found k) = [])
      by (apply filter_repeat_false; reflexivity).
    destruct He as [(_ & -> & ->) | (_ & -> & ->)].
    + split; [left; cbn; rewrite Hsrv; reflexivity|].
      eexists. split.
      { cbn [calls data_add]. rewrite Hk, Hcalls, <- app_assoc. reflexivity. }
      left. rewrite filter_app, Hrep. destruct (negb _); reflexivity.
    + split; [left; cbn; rewrite Hsrv; reflexivity|].
      eexists. split.
      { cbn [calls data_add set_session_flags log]. rewrite Hk, Hcalls, <- !app_assoc.
        reflexivity. }
      left. rewrite !filter_app, Hrep. destruct (negb _); reflexivity.
  - split; [exact Hcount|].
    destruct (client_entry_calls a) as [_ Hcalls].
    destruct (client_side_no_report _ _ _ _ Hc) as (l1 & Hl1 & Hf1).
    destruct failed.
    + eexists. split.
      { cbn [calls data_add clear_session_flags log]. rewrite Hl1, Hcalls, <- !app_assoc.
        reflexivity. }
      left. rewrite !filter_app, Hf1. destruct (negb _); reflexivity.
    + eexists. split.
      { cbn [calls data_add]. rewrite Hl1, Hcalls, <- !app_assoc. reflexivity. }
      left. rewrite !filter_app, Hf1. destruct (negb _); reflexivity.
  - destruct (service_flow_data a) as [dd0 asd0] eqn:Hflow.
    destruct (service_flow_data_calls _ _ _ Hflow) as (Hdd0 & _ & l0 & Hl0 & Hf0).
    split.
    { left. unfold service_flow_data, flow_data_or_new in *.
      destruct (flow_data a) as [dd|] eqn:E; [destruct (need_continue dd)|];
        inversion Hflow; subst; cbn; rewrite ?E; reflexivity. }
    exists l0. cbn [snd calls bump_pop_flows with_stats]. auto.
  - destruct (service_flow_data a) as [dd0 asd0] eqn:Hflow.
    destruct (service_flow_data_calls _ _ _ Hflow) as (Hdd0 & _ & l0 & Hl0 & Hf0).
    cbn [fst snd] in Hc.
    destruct (client_side_no_report _ _ _ _ Hc) as (l1 & Hl1 & Hf1).
    destruct Ht as [Hfour | | | ].
    + split; [exact Hcount|]. eexists. split.
      { cbn [calls data_add bump_pop_flows with_stats log]. rewrite Hl1, Hl0, <- !app_assoc.
        reflexivity. }
      right. exact Hfour.
    + split; [exact Hcount|]. eexists. split.
      { cbn [calls data_add log]. rewrite Hl1, Hl0, <- !app_assoc. reflexivity. }
      left. rewrite !filter_app, Hf0, Hf1. reflexivity.
    + split; [exact Hcount|]. eexists. split.
      { cbn [calls data_add log]. rewrite Hl1, Hl0, <- !app_assoc. reflexivity. }
      left. rewrite !filter_app, Hf0, Hf1. reflexivity.
    + split; [exact Hcount|]. eexists. split.
      { cbn [calls data_add bump_pop_flows with_stats clear_session_flags log].
        rewrite Hl1, Hl0, <- !app_assoc. reflexivity. }
      left. rewrite !filter_app, Hf0, Hf1. reflexivity.
Qed.

(** A call with a client payload leaves the server data alone and reports
    no service. *)
Lemma client_packet_effect a r a' :
  packet_call APP_ID_FROM_INITIATOR a r a' ->
  server (flow_data_or_new a') = server (flow_data_or_new a) /\
  exists l, calls a' = calls a ++ l /\ filter is_service_report l = [].
Proof.
  intros [e p n H | p n H].
  - destruct (Nat.eq_dec (List.length p) 0) as [Hz|Hnz].
    + unfold Pop3ClientDetector_validate, size in H. cbn [data] in H. rewrite Hz in H.
      cbn in H. inversion H; subst. split; [reflexivity|].
      exists []. rewrite app_nil_r. auto.
    + rewrite client_validate_unfold in H by exact Hnz. cbn [dir data asd] in H.
      apply wp_bind_inv in H. destruct H as ([[r0 dd1] asd1] & n1 & n2 & Hloop & Hret & _).
      inversion Hret; subst.
      pose proof (client_loop_turns e p (List.length p) 0
                    (fst (client_entry a)) (snd (client_entry a))
                    (Nat.le_0_l _) ltac:(lia)) as Hw.
      unfold size in Hloop. cbn [data] in Hloop. rewrite Hloop in Hw.
      destruct Hw as (ddm & asdm & Hp & He). cbn [fst snd] in He.
      destruct (client_entry_calls a) as [_ Hcalls].
      destruct Hp as (Hsrv & _ & _ & _ & _ & _ & _ & _ & _ & _ & k & Hk & _).
      rewrite client_entry_server in Hsrv.
      assert (Hrep : filter is_service_report (repeat pop3_found k) = [])
        by (apply filter_repeat_false; reflexivity).
      destruct He as [(_ & -> & ->) | (_ & -> & ->)].
      * split; [exact Hsrv|]. eexists. split.
        { cbn [calls data_add]. rewrite Hk, Hcalls, <- app_assoc. reflexivity. }
        rewrite filter_app, Hrep. destruct (negb _); reflexivity.
      * split; [exact Hsrv|]. eexists. split.
        { cbn [calls data_add set_session_flags log]. rewrite Hk, Hcalls, <- !app_assoc.
          reflexivity. }
        rewrite !filter_app, Hrep. destruct (negb _); reflexivity.
  - unfold Pop3ServiceDetector_validate in H. cbn [dir data asd] in H.
    destruct (size _ =? 0); inversion H; subst;
      (split; [reflexivity|]); exists [service_inprocess]; auto.
Qed.

Lemma count_step_bound pd pd' k :
  count_step pd pd' -> (0 <= count pd <= k)%Z -> (0 <= count pd' <= k + 1)%Z.
Proof.
  intros [H|H] Hc; rewrite H; [lia|].
  pose proof (Z.mod_pos_bound (count pd + 1) (2 ^ 32) ltac:(lia)).
  pose proof (Z.mod_le (count pd + 1) (2 ^ 32) ltac:(lia) ltac:(lia)). lia.
Qed.

(** X20.  The service is reported only after four server payloads.  Over the
    life of a flow, whatever the payloads and whatever is done to the
    session flags between the calls, the response count never exceeds the
    number of detector calls that were given a server payload, and no
    add_service_consume_subtype call is made before the fourth of them. *)
Theorem service_report_needs_four_server_packets k a :
  flow_history_n k a ->
  (0 <= count (server (flow_data_or_new a)) <= Z.of_nat k)%Z /\
  (filter is_service_report (calls a) <> [] -> 4 <= k).
Proof.
  induction 1 as [fl st | k a r a' Hh IH Hcall | k a r a' Hh IH Hcall | k a fl Hh IH].
  - split; [cbn; lia|]. intros H. contradiction.
  - destruct IH as [Hc Hr]. destruct (client_packet_effect _ _ _ Hcall) as (Hs & l & Hl & Hf).
    rewrite Hs. split; [exact Hc|]. rewrite Hl, filter_app, Hf, app_nil_r. exact Hr.
  - destruct IH as [Hc Hr].
    apply packet_call_detector in Hcall. apply detector_call_shape in Hcall.
    destruct (call_shape_count _ _ _ Hcall) as (Hstep & l & Hl & Hf).
    pose proof (count_step_bound _ _ _ Hstep Hc) as Hb.
    split; [lia|]. rewrite Hl, filter_app. intros Hne.
    destruct Hf as [Hf|Hf].
    + rewrite Hf, app_nil_r in Hne. specialize (Hr Hne). lia.
    + unfold POP3_COUNT_THRESHOLD in Hf. lia.
  - exact IH.
Qed.

Lemma then_service_packet a p a' :
  then_service (Some a) p = Some a' -> exists r, packet_call APP_ID_FROM_RESPONDER a r a'.
Proof.
  unfold then_service.
  destruct (Pop3ServiceDetector_validate (from_server p a)) as [[r a1] n| |] eqn:E;
    try discriminate.
  intros H. inversion H; subst. exists r. eapply service_packet_call. exact E.
Qed.

Lemma service_report_needs_four_server_packets_witness :
  exists a,
    then_service
      (then_service
         (then_service (then_service (Some new_session) (bytes "+OK ready" ++ crlf))
            (bytes "+OK" ++ crlf))
         (bytes "-ERR no" ++ crlf))
      (bytes "+OK" ++ crlf) = Some a /\
    filter is_service_report (calls a) <> [] /\
    (0 <= count (server (flow_data_or_new a)) <= Z.of_nat 4)%Z /\
    (filter is_service_report (calls a) <> [] -> 4 <= 4).
Proof.
  eexists. split; [vm_compute; reflexivity|].
  split; [vm_compute; discriminate|].
  apply service_report_needs_four_server_packets.
  match goal with
  | |- flow_history_n 4 ?a4 =>
      assert (H : exists a1 a2 a3,
                then_service (Some new_session) (bytes "+OK ready" ++ crlf) = Some a1 /\
                then_service (Some a1) (bytes "+OK" ++ crlf) = Some a2 /\
                then_service (Some a2) (bytes "-ERR no" ++ crlf) = Some a3 /\
                then_service (Some a3) (bytes "+OK" ++ crlf) = Some a4)
        by (do 3 eexists;
            split; [vm_compute; reflexivity|];
            split; [vm_compute; reflexivity|];
            split; [vm_compute; reflexivity|vm_compute; reflexivity])
  end.
  destruct H as (a1 & a2 & a3 & H1 & H2 & H3 & H4).
  destruct (then_service_packet _ _ _ H1) as [r1 C1].
  destruct (then_service_packet _ _ _ H2) as [r2 C2].
  destruct (then_service_packet _ _ _ H3) as [r3 C3].
  destruct (then_service_packet _ _ _ H4) as [r4 C4].
  eapply hn_server_packet; [|exact C4].
  eapply hn_server_packet; [|exact C3].
  eapply hn_server_packet; [|exact C2].
  eapply hn_server_packet; [|exact C1].
  apply hn_new.
Defined.
